(** * Shapes library: capture normalisation, category stores and the shape cache

    A shallow embedding of the TypeScript sources
    - the shape mapper, [mapToShapeInfo] and its tables (module [Mapper]),
    - the shape cache, [getCachedShapes] and [setCachedShapes] (module [Cache]),
    - [src/utils/shapeSaver.ts]                           (module [ShapeSaver]),
    - [src/utils/previewGenerator.ts]                     (module [PreviewGenerator]),
    together with the part of [src/extractor/windowsExtractor.ts] that turns
    the bridge's JSON into an [ExtractedShape].

    Conventions.  The embedding follows the declared TypeScript types: a
    [Record<K, V>] is a finite map, an optional field [f?: T] is an
    [option T] ([None] is [undefined]).  A function that reads or writes
    the disk is a computation that returns or throws and leaves a disk.
    The clock, the platform and the outcome of the PowerPoint export are
    arguments.  Strings are strings of 8-bit characters; the string
    builtins are the ASCII fragment of the JavaScript ones. *)

From Stdlib Require Import ZArith QArith String Ascii List Sorted Permutation Lia.
From stdpp Require Import gmap strings list fin_maps sorting.

Local Open Scope Z_scope.
Local Open Scope string_scope.
Local Open Scope list_scope.

(** ** JavaScript values and builtins used by the sources *)

Module Js.

(** A JavaScript [number] that holds a measurement (inches, degrees,
    points, a ratio): no arithmetic is done on these, they are only
    tested against zero and copied. *)
Definition number : Type := Q.

Definition isZero (n : number) : bool := Qeq_bool n 0%Q.

(** Truthiness of an optional string: [undefined] and [""] are falsy. *)
Definition truthy_string (s : option string) : bool :=
  match s with
  | Some s => negb (String.eqb s "")
  | None => false
  end.

(** [s || d] for an optional string. *)
Definition or_string (s : option string) (d : string) : string :=
  match s with
  | Some s => if String.eqb s "" then d else s
  | None => d
  end.

Definition between (lo hi c : ascii) : bool :=
  (N_of_ascii lo <=? N_of_ascii c)%N && (N_of_ascii c <=? N_of_ascii hi)%N.

Definition isUpper (c : ascii) : bool := between "A" "Z" c.
Definition isLower (c : ascii) : bool := between "a" "z" c.
Definition isDigit (c : ascii) : bool := between "0" "9" c.

(** The character class [[a-z0-9]]. *)
Definition isLowerAlnum (c : ascii) : bool := isLower c || isDigit c.

Definition lowerChar (c : ascii) : ascii :=
  if isUpper c then ascii_of_N (N_of_ascii c + 32) else c.

(** [s.toLowerCase()] *)
Fixpoint toLowerCase (s : string) : string :=
  match s with
  | EmptyString => EmptyString
  | String c t => String (lowerChar c) (toLowerCase t)
  end.

(** [s.startsWith(p)] *)
Fixpoint startsWith (s p : string) : bool :=
  match p, s with
  | EmptyString, _ => true
  | String _ _, EmptyString => false
  | String a p', String b s' => Ascii.eqb a b && startsWith s' p'
  end.

(** [s.includes(p)] *)
Fixpoint includes (s p : string) : bool :=
  startsWith s p ||
  match s with
  | EmptyString => false
  | String _ t => includes t p
  end.

(** [s.replace(/[^a-z0-9]+/g, sep)]: every maximal run of characters
    outside [[a-z0-9]] becomes one [sep].  [inRun] tells that the
    previous character was already part of the current run. *)
Fixpoint replaceRuns (sep : string) (inRun : bool) (s : string) : string :=
  match s with
  | EmptyString => EmptyString
  | String c t =>
      if isLowerAlnum c then String c (replaceRuns sep false t)
      else if inRun then replaceRuns sep true t
      else sep +:+ replaceRuns sep true t
  end.

Definition replaceNonAlnum (sep s : string) : string := replaceRuns sep false s.

(** [s.replace(/([A-Z])/g, " $1")] *)
Fixpoint spaceBeforeUpper (s : string) : string :=
  match s with
  | EmptyString => EmptyString
  | String c t =>
      if isUpper c then String " " (String c (spaceBeforeUpper t))
      else String c (spaceBeforeUpper t)
  end.

(** White space as [trim] sees it in the ASCII range. *)
Definition isSpace (c : ascii) : bool :=
  Ascii.eqb c " " || between "009" "013" c.

Fixpoint trimStart (s : string) : string :=
  match s with
  | EmptyString => EmptyString
  | String c t => if isSpace c then trimStart t else s
  end.

(** Drops the trailing white space: a character is kept when something
    that is kept follows it, or when it is not white space. *)
Fixpoint trimEnd (s : string) : string :=
  match s with
  | EmptyString => EmptyString
  | String c t =>
      match trimEnd t with
      | EmptyString => if isSpace c then EmptyString else String c EmptyString
      | t' => String c t'
      end
  end.

(** [s.trim()] *)
Definition trim (s : string) : string := trimEnd (trimStart s).

(** [s.split(" ")]: always at least one piece; adjacent separators give
    empty pieces. *)
Fixpoint splitSpace (s : string) : list string :=
  match s with
  | EmptyString => [EmptyString]
  | String c t =>
      if Ascii.eqb c " " then EmptyString :: splitSpace t
      else match splitSpace t with
           | p :: ps => String c p :: ps
           | [] => [String c EmptyString]
           end
  end.

(** [Array.from(new Set(xs))]: the first occurrence of each string, in
    order of first occurrence. *)
Fixpoint dedupe (seen : list string) (xs : list string) : list string :=
  match xs with
  | [] => []
  | x :: t =>
      if existsb (String.eqb x) seen then dedupe seen t
      else x :: dedupe (x :: seen) t
  end.

(** The digit of [d] in radix 36: [0-9] then [a-z]. *)
Definition digit36 (d : Z) : ascii :=
  if (d <? 10)%Z then ascii_of_N (Z.to_N (48 + d)) else ascii_of_N (Z.to_N (87 + d)).

Fixpoint digits (radix : Z) (fuel : nat) (n : Z) (acc : string) : string :=
  match fuel with
  | O => acc
  | S fuel' =>
      let acc' := String (digit36 (n mod radix)) acc in
      if (n <? radix)%Z then acc' else digits radix fuel' (n / radix) acc'
  end.

(** [n.toString(radix)] for an integral [n] and a radix from 2 to 36
    (the digits of [|n|], most significant first, after the sign). *)
Definition toStringRadix (radix n : Z) : string :=
  let m := Z.abs n in
  let ds := digits radix (S (Z.to_nat (Z.log2 m))) m EmptyString in
  if (n <? 0)%Z then String "-" ds else ds.

(** [n.toString(36)] *)
Definition toString36 (n : Z) : string := toStringRadix 36 n.

(** [`${n}`] for an integral [n]. *)
Definition toString10 (n : Z) : string := toStringRadix 10 n.

(** Reading a radix-36 numeral back, as [parseInt(s, 36)] does on a
    string of radix-36 digits. *)
Definition value36 (c : ascii) : Z :=
  if isDigit c then Z.of_N (N_of_ascii c) - 48 else Z.of_N (N_of_ascii c) - 87.

Fixpoint parse36 (acc : Z) (s : string) : Z :=
  match s with
  | EmptyString => acc
  | String c t => parse36 (36 * acc + value36 c) t
  end.

Definition upperChar (c : ascii) : ascii :=
  if isLower c then ascii_of_N (N_of_ascii c - 32) else c.

(** [word.charAt(0).toUpperCase() + word.slice(1)] *)
Definition capitalize (word : string) : string :=
  match word with
  | EmptyString => EmptyString
  | String c t => String (upperChar c) t
  end.

(** Every character of [s] satisfies [p]. *)
Fixpoint every (p : ascii -> bool) (s : string) : bool :=
  match s with
  | EmptyString => true
  | String c t => p c && every p t
  end.

(** A replacement character by character, as [s.replace(/[...]/g, r)]
    does for a class of single characters. *)
Fixpoint mapChars (f : ascii -> ascii) (s : string) : string :=
  match s with
  | EmptyString => EmptyString
  | String c t => String (f c) (mapChars f t)
  end.

Definition isHexDigit (c : ascii) : bool :=
  isDigit c || between "A" "F" c || between "a" "f" c.

(** [/^[0-9A-Fa-f]{6}$/.test(s)] *)
Definition isHex6 (s : string) : bool :=
  (String.length s =? 6)%nat && every isHexDigit s.

(** [s.slice(n)] *)
Fixpoint slice (n : nat) (s : string) : string :=
  match n, s with
  | O, _ => s
  | S n', EmptyString => EmptyString
  | S n', String _ t => slice n' t
  end.

(** The longest prefix of decimal digits: what a greedy run of [\d]
    takes at the start of [s]. *)
Fixpoint takeDigits (s : string) : string :=
  match s with
  | EmptyString => EmptyString
  | String c t => if isDigit c then String c (takeDigits t) else EmptyString
  end.

(** [parseInt(s, 10)] on a string of decimal digits. *)
Fixpoint parseDigits (acc : Z) (s : string) : Z :=
  match s with
  | EmptyString => acc
  | String c t => parseDigits (10 * acc + (Z.of_N (N_of_ascii c) - 48)) t
  end.

End Js.

(** ** The record types ([src/types/shapes.ts]) *)

Module Shapes.

(** Modelled from the spec: the declarations of [types/shapes.ts] are
    not among the sources; the fields are those of the spec's
    "ShapeRecord JSON shape" and of the record literal built by
    [mapToShapeInfo].  [ShapeType] and [ShapeCategory] are the strings
    the sources compare and concatenate. *)
Abbreviation ShapeType := string.
Abbreviation ShapeCategory := string.

Record ShapeFill : Type := {
  fill_color : option string;
  fill_transparency : option Js.number
}.

Record ShapeLine : Type := {
  line_color : option string;
  line_width : option Js.number;
  line_transparency : option Js.number
}.

Record PptxDefinition : Type := {
  type : ShapeType;
  x : Js.number;
  y : Js.number;
  w : Js.number;
  h : Js.number;
  rotate : option Js.number;
  adj : option (list Js.number);
  rectRadius : option Js.number;
  fill : option ShapeFill;
  line : option ShapeLine
}.

Record ShapeInfo : Type := {
  id : string;
  name : string;
  category : ShapeCategory;
  description : string;
  tags : list string;
  preview : string;
  pptxDefinition : PptxDefinition;
  nativePptx : option string;
  nativeOnly : option bool
}.

(** [Partial<ShapeInfo>]: a key that is absent is [None]. *)
Record PartialShapeInfo : Type := {
  p_id : option string;
  p_name : option string;
  p_category : option ShapeCategory;
  p_description : option string;
  p_tags : option (list string);
  p_preview : option string;
  p_pptxDefinition : option PptxDefinition;
  p_nativePptx : option (option string);
  p_nativeOnly : option (option bool)
}.

(** The partial without any key, [{}]. *)
Definition noUpdates : PartialShapeInfo :=
  {| p_id := None; p_name := None; p_category := None; p_description := None;
     p_tags := None; p_preview := None; p_pptxDefinition := None;
     p_nativePptx := None; p_nativeOnly := None |}.

End Shapes.

(** ** The captured shape ([src/extractor/types.ts], [windowsExtractor.ts]) *)

Module Extractor.

Record Position : Type := { x : Js.number; y : Js.number }.
Record Size : Type := { width : Js.number; height : Js.number }.
Record Fill : Type := {
  fill_color : option string;
  fill_transparency : option Js.number
}.
Record Line : Type := {
  line_color : option string;
  line_weight : option Js.number;
  line_transparency : option Js.number
}.

Record ExtractedShape : Type := {
  name : string;
  type : Z;
  autoShapeName : option string;
  isGroup : option bool;
  position : Position;
  size : Size;
  rotation : Js.number;
  adjustments : option (list Js.number);
  nativePptxRelPath : option string;
  isPicture : option bool;
  pngTempPath : option string;
  fill : Fill;
  line : Line
}.

(** The object the PowerShell script prints as JSON: every key is set
    by the script only on some paths. *)
Record BridgeData : Type := {
  d_name : option string;
  d_type : option Z;
  d_autoShapeName : option string;
  d_left : option Js.number;
  d_top : option Js.number;
  d_width : option Js.number;
  d_height : option Js.number;
  d_rotation : option Js.number;
  d_adjustments : option (list Js.number);
  d_nativePptxRelPath : option string;
  d_isGroup : option bool;
  d_isPicture : option bool;
  d_pngTempPath : option string;
  d_fillColor : option string;
  d_fillTransparency : option Js.number;
  d_lineColor : option string;
  d_lineWeight : option Js.number;
  d_lineTransparency : option Js.number
}.

(** [v || d] for an optional number: [undefined] and [0] are falsy. *)
Definition or_number (v : option Js.number) (d : Js.number) : Js.number :=
  match v with
  | Some n => if Js.isZero n then d else n
  | None => d
  end.

Definition or_int (v : option Z) (d : Z) : Z :=
  match v with
  | Some n => if (n =? 0)%Z then d else n
  | None => d
  end.

(** [v === true] *)
Definition is_true (v : option bool) : bool :=
  match v with Some true => true | _ => false end.

(** The record literal of [extractSelectedShapeWindows]'s [close]
    handler (lines 297-318). *)
Definition toExtractedShape (data : BridgeData) : ExtractedShape :=
  {| name := Js.or_string (d_name data) "Unnamed";
     type := or_int (d_type data) 1;
     autoShapeName := d_autoShapeName data;
     position := {| x := or_number (d_left data) 1%Q; y := or_number (d_top data) 1%Q |};
     size := {| width := or_number (d_width data) 2%Q;
                height := or_number (d_height data) 2%Q |};
     rotation := match d_rotation data with Some r => r | None => 0%Q end;
     adjustments := d_adjustments data;
     nativePptxRelPath := d_nativePptxRelPath data;
     isGroup := Some (is_true (d_isGroup data));
     isPicture := Some (is_true (d_isPicture data));
     pngTempPath := d_pngTempPath data;
     fill := {| fill_color := d_fillColor data;
                fill_transparency := d_fillTransparency data |};
     line := {| line_color := d_lineColor data;
                line_weight := Some (match d_lineWeight data with
                                     | Some n => n
                                     | None => 1%Q
                                     end);
                line_transparency := d_lineTransparency data |} |}.

(** The script's [$autoMap]: the enum names it knows, by
    [AutoShapeType]; [$data['autoShapeName']] is its value at the shape's
    type, or nothing. *)
Definition autoMap : gmap Z string :=
  list_to_map [
    (1, "msoShapeRectangle"); (5, "msoShapeRoundedRectangle"); (9, "msoShapeOval");
    (36, "msoShapeLeftArrow"); (37, "msoShapeDownArrow"); (38, "msoShapeUpArrow");
    (39, "msoShapeRightArrow"); (55, "msoShapeChevron");
    (109, "msoShapeFlowchartProcess"); (110, "msoShapeFlowchartAlternateProcess");
    (111, "msoShapeFlowchartDecision"); (140, "msoShapeFlowchartCollate");
    (28, "msoShapePlaque")
  ].

End Extractor.

(** ** Capture normalisation (the shape mapper) *)

Module Mapper.
Import Shapes.

(** PowerPoint [AutoShapeType] constants mapped to PptxGenJS types. *)
Definition AUTOSHAPE_TYPE_MAP : gmap Z ShapeType :=
  list_to_map [
   (1, "rectangle"); (2, "parallelogram"); (3, "trapezoid");
   (4, "diamond"); (5, "roundRectangle"); (6, "octagon"); (7, "triangle");
   (8, "triangle"); (9, "ellipse"); (10, "hexagon"); (11, "cross");
   (12, "plus"); (13, "star"); (17, "heart"); (19, "pentagon");
   (36, "leftArrow"); (37, "downArrow"); (38, "upArrow");
   (39, "rightArrow"); (40, "leftRightArrow"); (41, "upDownArrow");
   (42, "quadArrow"); (43, "notchedRightArrow"); (44, "bentArrow");
   (45, "uturnArrow"); (46, "leftArrowCallout"); (47, "rightArrowCallout");
   (48, "upArrowCallout"); (49, "downArrowCallout"); (52, "circularArrow");
   (55, "chevron"); (109, "flowChartProcess");
   (110, "flowChartAlternateProcess"); (111, "flowChartDecision");
   (112, "flowChartInputOutput"); (113, "flowChartPredefinedProcess");
   (114, "flowChartInternalStorage"); (115, "flowChartDocument");
   (116, "flowChartMultidocument"); (117, "flowChartTerminator");
   (118, "flowChartPreparation"); (119, "flowChartManualInput");
   (120, "flowChartManualOperation"); (121, "flowChartConnector");
   (122, "flowChartOffpageConnector"); (125, "flowChartMagneticTape");
   (126, "flowChartMagneticDisk"); (127, "flowChartMagneticDrum");
   (128, "flowChartDisplay"); (129, "flowChartDelay");
   (134, "flowChartSort"); (135, "flowChartExtract");
   (136, "flowChartMerge"); (137, "flowChartOnlineStorage");
   (138, "flowChartSummingJunction"); (139, "flowChartOr");
   (140, "flowChartCollate"); (141, "flowChartPunchedCard");
   (142, "flowChartPunchedTape"); (56, "wedgeRectCallout");
   (57, "wedgeRoundRectCallout"); (58, "wedgeEllipseCallout");
   (106, "cloudCallout"); (61, "borderCallout1"); (62, "borderCallout2");
   (63, "borderCallout3"); (64, "accentCallout1"); (65, "borderCallout1");
   (66, "borderCallout2"); (67, "borderCallout3"); (68, "accentCallout1");
   (70, "callout1"); (71, "callout2"); (72, "callout3");
   (73, "accentCallout1"); (74, "accentBorderCallout1");
   (75, "accentBorderCallout2"); (76, "accentBorderCallout3")
  ].

(** Optional mapping by enum name when available. *)
Definition AUTOSHAPE_NAME_MAP : gmap string ShapeType :=
  list_to_map [
   ("msoShapeRectangle", "rectangle");
   ("msoShapeRoundedRectangle", "roundRectangle");
   ("msoShapeOval", "ellipse"); ("msoShapeIsoscelesTriangle", "triangle");
   ("msoShapeRightTriangle", "triangle"); ("msoShapeDiamond", "diamond");
   ("msoShapeHexagon", "hexagon"); ("msoShapeOctagon", "octagon");
   ("msoShapeParallelogram", "parallelogram");
   ("msoShapeTrapezoid", "trapezoid"); ("msoShapePentagon", "pentagon");
   ("msoShapeHeart", "heart"); ("msoShapeLeftArrow", "leftArrow");
   ("msoShapeDownArrow", "downArrow"); ("msoShapeUpArrow", "upArrow");
   ("msoShapeRightArrow", "rightArrow");
   ("msoShapeLeftRightArrow", "leftRightArrow");
   ("msoShapeUpDownArrow", "upDownArrow");
   ("msoShapeQuadArrow", "quadArrow");
   ("msoShapeNotchedRightArrow", "notchedRightArrow");
   ("msoShapeBentArrow", "bentArrow");
   ("msoShapeUTurnArrow", "uturnArrow");
   ("msoShapeLeftArrowCallout", "leftArrowCallout");
   ("msoShapeRightArrowCallout", "rightArrowCallout");
   ("msoShapeUpArrowCallout", "upArrowCallout");
   ("msoShapeDownArrowCallout", "downArrowCallout");
   ("msoShapeCircularArrow", "circularArrow");
   ("msoShapeChevron", "chevron");
   ("msoShapeFlowchartProcess", "flowChartProcess");
   ("msoShapeFlowchartAlternateProcess", "flowChartAlternateProcess");
   ("msoShapeFlowchartDecision", "flowChartDecision");
   ("msoShapeFlowchartData", "flowChartInputOutput");
   ("msoShapeFlowchartPredefinedProcess", "flowChartPredefinedProcess");
   ("msoShapeFlowchartInternalStorage", "flowChartInternalStorage");
   ("msoShapeFlowchartDocument", "flowChartDocument");
   ("msoShapeFlowchartMultidocument", "flowChartMultidocument");
   ("msoShapeFlowchartTerminator", "flowChartTerminator");
   ("msoShapeFlowchartPreparation", "flowChartPreparation");
   ("msoShapeFlowchartManualInput", "flowChartManualInput");
   ("msoShapeFlowchartManualOperation", "flowChartManualOperation");
   ("msoShapeFlowchartConnector", "flowChartConnector");
   ("msoShapeFlowchartOffpageConnector", "flowChartOffpageConnector");
   ("msoShapeFlowchartDisplay", "flowChartDisplay");
   ("msoShapeFlowchartDelay", "flowChartDelay");
   ("msoShapeFlowchartSort", "flowChartSort");
   ("msoShapeFlowchartExtract", "flowChartExtract");
   ("msoShapeFlowchartMerge", "flowChartMerge");
   ("msoShapeFlowchartOnlineStorage", "flowChartOnlineStorage");
   ("msoShapeFlowchartSummingJunction", "flowChartSummingJunction");
   ("msoShapeFlowchartOr", "flowChartOr");
   ("msoShapeRectangularCallout", "wedgeRectCallout");
   ("msoShapeRoundedRectangularCallout", "wedgeRoundRectCallout");
   ("msoShapeOvalCallout", "wedgeEllipseCallout");
   ("msoShapeCloudCallout", "cloudCallout");
   ("msoShapePlaque", "roundRectangle");
   ("msoShapePlaqueTabs", "roundRectangle")
  ].

Definition chooseType (extracted : Extractor.ExtractedShape) : ShapeType :=
  let byName :=
    match Extractor.autoShapeName extracted with
    | Some n => if String.eqb n "" then None else AUTOSHAPE_NAME_MAP !! n
    | None => None
    end in
  match byName with
  | Some t => t
  | None =>
      match AUTOSHAPE_TYPE_MAP !! (Extractor.type extracted) with
      | Some t => t
      | None =>
          let nm := Js.toLowerCase (Extractor.name extracted) in
          if Js.includes nm "tag" || Js.includes nm "etiqueta" || Js.includes nm "label"
          then "roundRectangle"
          else "rectangle"
      end
  end.

(** Determine category based on shape type. *)
Definition getCategoryFromType (shapeType : ShapeType) : ShapeCategory :=
  if Js.startsWith shapeType "flowChart" then "flowchart"
  else if Js.includes shapeType "Arrow" || Js.includes shapeType "arrow"
          || Js.includes shapeType "Chevron" || Js.includes shapeType "chevron"
  then "arrows"
  else if Js.includes shapeType "Callout" || Js.includes shapeType "callout"
  then "callouts"
  else "basic".

(** Generate a unique ID for the captured shape; [now] is [Date.now()]. *)
Definition generateShapeId (now : Z) (name : string) : string :=
  let sanitized := Js.replaceNonAlnum "-" (Js.toLowerCase name) in
  let timestamp := Js.toString36 now in
  "captured-" +:+ sanitized +:+ "-" +:+ timestamp.

(** Generate tags based on shape name and type. *)
Definition generateTags (name : string) (shapeType : ShapeType)
    (category : ShapeCategory) : list string :=
  let typeParts :=
    Js.splitSpace (Js.toLowerCase (Js.trim (Js.spaceBeforeUpper shapeType))) in
  let nameParts :=
    List.filter (fun p => (2 <? String.length p)%nat)
      (Js.splitSpace (Js.replaceNonAlnum " " (Js.toLowerCase name))) in
  Js.dedupe [] (["captured"; category] ++ typeParts ++ nameParts).

Definition isNativeOnly (extracted : Extractor.ExtractedShape) : bool :=
  Extractor.is_true (Extractor.isGroup extracted)
  || Extractor.is_true (Extractor.isPicture extracted).

(** Map extracted PowerPoint shape to ShapeInfo format; [now] is the
    clock read by [generateShapeId]. *)
Definition mapToShapeInfo (now : Z) (extracted : Extractor.ExtractedShape)
    (customName : option string) : ShapeInfo :=
  let nativeOnly_ := isNativeOnly extracted in
  let pptxType : option ShapeType :=
    if nativeOnly_ then None else Some (chooseType extracted) in
  let category_ : ShapeCategory :=
    match pptxType with
    | None => "basic"
    | Some t => getCategoryFromType t
    end in
  let shownName := Js.or_string customName (Extractor.name extracted) in
  let type_ := Js.or_string pptxType "rectangle" in
  {| id := generateShapeId now shownName;
     name := shownName;
     category := category_;
     description :=
       "Captured from PowerPoint"
       +:+ (if Extractor.is_true (Extractor.isGroup extracted) then " (Group)"
            else if Extractor.is_true (Extractor.isPicture extracted) then " (Picture)"
            else "")
       +:+ " (Type: " +:+ Js.toString10 (Extractor.type extracted) +:+ ")";
     tags := generateTags shownName type_ category_;
     preview := category_ +:+ "/placeholder.png";
     pptxDefinition :=
       {| type := type_;
          x := Extractor.x (Extractor.position extracted);
          y := Extractor.y (Extractor.position extracted);
          w := Extractor.width (Extractor.size extracted);
          h := Extractor.height (Extractor.size extracted);
          rotate :=
            if Js.isZero (Extractor.rotation extracted) then None
            else Some (Extractor.rotation extracted);
          adj := Extractor.adjustments extracted;
          rectRadius :=
            match pptxType, Extractor.adjustments extracted with
            | Some t, Some (a :: _) =>
                if String.eqb t "roundRectangle" then Some a else None
            | _, _ => None
            end;
          fill :=
            if Js.truthy_string (Extractor.fill_color (Extractor.fill extracted))
            then Some {| fill_color := Extractor.fill_color (Extractor.fill extracted);
                         fill_transparency :=
                           Extractor.fill_transparency (Extractor.fill extracted) |}
            else None;
          line :=
            if Js.truthy_string (Extractor.line_color (Extractor.line extracted))
            then Some {| line_color := Extractor.line_color (Extractor.line extracted);
                         line_width :=
                           Some (Extractor.or_number
                                   (Extractor.line_weight (Extractor.line extracted)) 1%Q);
                         line_transparency :=
                           Extractor.line_transparency (Extractor.line extracted) |}
            else None |};
     nativePptx := Extractor.nativePptxRelPath extracted;
     nativeOnly := if nativeOnly_ then Some true else None |}.

(** Check if AutoShapeType is supported by PptxGenJS. *)
Definition isSupportedShapeType (autoShapeType : Z) : bool :=
  bool_decide (is_Some (AUTOSHAPE_TYPE_MAP !! autoShapeType)).

(** Get human-readable name for PowerPoint AutoShapeType. *)
Definition getShapeTypeName (autoShapeType : Z) : string :=
  match AUTOSHAPE_TYPE_MAP !! autoShapeType with
  | None => "Unknown (" +:+ Js.toString10 autoShapeType +:+ ")"
  | Some pptxType =>
      String.concat " "
        (List.map Js.capitalize (Js.splitSpace (Js.trim (Js.spaceBeforeUpper pptxType))))
  end.

(** Get list of all supported AutoShapeType constants:
    [Object.keys(AUTOSHAPE_TYPE_MAP).map(Number)], the integer keys in
    ascending order. *)
Definition getSupportedShapeTypes : list Z :=
  merge_sort Z.le (map_to_list AUTOSHAPE_TYPE_MAP).*1.

End Mapper.

(** ** Exceptions *)

Module Exn.

(** What a [throw] carries: an [Error] made by the sources, the
    [SyntaxError] of [JSON.parse], or the system error of an [fs] call.
    Each has a [message]. *)
Inductive exn : Type :=
| Error (message : string)
| SyntaxError (message : string)
| SystemError (message : string).

Definition message (e : exn) : string :=
  match e with
  | Error m | SyntaxError m | SystemError m => m
  end.

Inductive result (A : Type) : Type :=
| OK (a : A)
| Throw (e : exn).
Arguments OK {A} a.
Arguments Throw {A} e.

End Exn.

(** ** The shape cache *)

Module Cache.
Import Exn.

Record ShapeCacheEntry : Type := {
  shapes : list Shapes.ShapeInfo;
  lastModified : Z;
  category : string
}.

(** [ShapeCache]: one entry per category name. *)
Abbreviation ShapeCache := (gmap string ShapeCacheEntry).

(** What [statSync] sees: the modification time, in milliseconds, of
    each path that can be stat'd. *)
Abbreviation Mtimes := (gmap string Z).

(** [statSync(filePath).mtime.getTime()] *)
Definition statSync (fs : Mtimes) (filePath : string) : result Z :=
  match fs !! filePath with
  | Some t => OK t
  | None => Throw (SystemError ("ENOENT: no such file or directory, stat '" +:+ filePath +:+ "'"))
  end.

(** Get cached shapes for a category: the cached shapes or [None]
    ([null]) on a miss, and the cache afterwards. *)
Definition getCachedShapes (fs : Mtimes) (cache : ShapeCache)
    (category filePath : string) : option (list Shapes.ShapeInfo) * ShapeCache :=
  match cache !! category with
  | None => (None, cache)
  | Some cacheEntry =>
      match statSync fs filePath with
      | OK currentModified =>
          if (lastModified cacheEntry =? currentModified)%Z
          then (Some (shapes cacheEntry), cache)
          else (None, delete category cache)
      | Throw _ => (None, delete category cache)
      end
  end.

(** Set cached shapes for a category. *)
Definition setCachedShapes (fs : Mtimes) (cache : ShapeCache)
    (category_ filePath : string) (shapes_ : list Shapes.ShapeInfo) : ShapeCache :=
  match statSync fs filePath with
  | OK lastModified_ =>
      <[category_ := {| shapes := shapes_; lastModified := lastModified_;
                        category := category_ |}]> cache
  | Throw _ => cache
  end.

(** Clear all cached shapes. *)
Definition clearCache (cache : ShapeCache) : ShapeCache := ∅.

(** Clear cached shapes for a specific category. *)
Definition clearCategoryCache (cache : ShapeCache) (category : string) : ShapeCache :=
  delete category cache.

End Cache.

(** ** The category stores ([src/utils/shapeSaver.ts]) *)

Module ShapeSaver.
Import Exn Shapes.

(** *** The files *)

(** The text of a file, as far as [JSON.parse] tells: text it rejects
    (with the message of its [SyntaxError]), or the JSON text of an array
    of records, which is what [loadCategoryShapes] declares it returns and
    what [JSON.stringify] writes ([JSON.parse] gives back the array that
    was written). *)
Inductive content : Type :=
| Garbage (message : string)
| Json (shapes : list ShapeInfo).

(** A file on disk: one that cannot be read (with the message of the
    system error) or one that has a text. *)
Inductive file : Type :=
| Unreadable (message : string)
| Readable (text : content).

(** The disk: the files by path, and the paths at which a write fails,
    with the message of the system error. *)
Record FS : Type := {
  files : gmap string file;
  faults : gmap string string
}.

(** A computation on the disk: it returns or throws, and leaves a disk. *)
Definition io (A : Type) : Type := FS -> result A * FS.

Definition ret {A : Type} (a : A) : io A := fun fs => (OK a, fs).

Definition throw {A : Type} (e : exn) : io A := fun fs => (Throw e, fs).

Definition bind {A B : Type} (m : io A) (k : A -> io B) : io B :=
  fun fs =>
    match m fs with
    | (OK a, fs') => k a fs'
    | (Throw e, fs') => (Throw e, fs')
    end.

(** [try { body } catch (e) { handler(e) }] *)
Definition try_catch {A : Type} (body : io A) (handler : exn -> io A) : io A :=
  fun fs =>
    match body fs with
    | (OK a, fs') => (OK a, fs')
    | (Throw e, fs') => handler e fs'
    end.

Notation "'let*' x := c1 'in' c2" := (bind c1 (fun x => c2))
  (at level 10, x name, c1 at level 100, c2 at level 200).

Definition existsSync (path : string) : io bool :=
  fun fs => (OK (bool_decide (is_Some (files fs !! path))), fs).

Definition readFileSync (path : string) : io content :=
  fun fs =>
    match files fs !! path with
    | Some (Readable text) => (OK text, fs)
    | Some (Unreadable m) => (Throw (SystemError m), fs)
    | None =>
        (Throw (SystemError ("ENOENT: no such file or directory, open '" +:+ path +:+ "'")),
         fs)
    end.

Definition writeFileSync (path : string) (text : content) : io unit :=
  fun fs =>
    match faults fs !! path with
    | Some m => (Throw (SystemError m), fs)
    | None => (OK tt, {| files := <[path := Readable text]> (files fs); faults := faults fs |})
    end.

Definition JSON_parse (text : content) : io (list ShapeInfo) :=
  match text with
  | Json shapes => ret shapes
  | Garbage m => throw (SyntaxError m)
  end.

Definition JSON_stringify (shapes : list ShapeInfo) : content := Json shapes.

(** *** Arrays *)

(** [xs.findIndex(p)]: [None] is [-1]. *)
Fixpoint findIndex {A : Type} (p : A -> bool) (xs : list A) : option nat :=
  match xs with
  | [] => None
  | x :: t => if p x then Some O else S <$> findIndex p t
  end.

(** [xs.sort(cmp)]: the sort is stable; an element goes before the
    first one it does not compare greater than. *)
Fixpoint insertSorted {A : Type} (cmp : A -> A -> Z) (a : A) (xs : list A) : list A :=
  match xs with
  | [] => [a]
  | b :: t => if (cmp a b <=? 0)%Z then a :: b :: t else b :: insertSorted cmp a t
  end.

Fixpoint sort {A : Type} (cmp : A -> A -> Z) (xs : list A) : list A :=
  match xs with
  | [] => []
  | a :: t => insertSorted cmp a (sort cmp t)
  end.

(** A [Record<string, number>] with its keys in insertion order. *)
Definition setKey (k : string) (v : nat) (o : list (string * nat)) : list (string * nat) :=
  if existsb (fun kv => String.eqb (fst kv) k) o
  then List.map (fun kv => if String.eqb (fst kv) k then (k, v) else kv) o
  else o ++ [(k, v)].

Definition Object_keys (o : list (string * nat)) : list string := List.map fst o.
Definition Object_values (o : list (string * nat)) : list nat := List.map snd o.

Section Saver.

(** The shapes directory, [getShapesDir()].  (The call also creates the
    directory when it is missing; directories are not part of the disk
    here, which holds the files.) *)
Variable shapesDir : string.

(** [a.localeCompare(b)]: negative, zero or positive. *)
Variable localeCompare : string -> string -> Z.

(** Get path to category JSON file: [join(shapesDir, `${category}.json`)],
    for a category that is a plain name.  ([join] normalises the path it
    builds, so that a category with "/" and ".." in it can name the file of
    another category; a plain name stays the last segment of the path.  The
    lemmas and theorems that tell the files of two categories apart take
    both to be plain names.) *)
Definition getCategoryFilePath (category : ShapeCategory) : string :=
  shapesDir +:+ "/" +:+ category +:+ ".json".

(** Load existing shapes from a category file. *)
Definition loadCategoryShapes (category : ShapeCategory) : io (list ShapeInfo) :=
  let filePath := getCategoryFilePath category in
  let* present := existsSync filePath in
  if negb present then ret []
  else
    try_catch
      (let* content := readFileSync filePath in
       JSON_parse content)
      (fun error => ret []).

(** Save shapes to a category file. *)
Definition saveCategoryShapes (category : ShapeCategory) (shapes : list ShapeInfo)
    : io unit :=
  let filePath := getCategoryFilePath category in
  try_catch
    (let sortedShapes := sort (fun a b => localeCompare (name a) (name b)) shapes in
     let json := JSON_stringify sortedShapes in
     writeFileSync filePath json)
    (fun error =>
       throw (Error ("Failed to save shapes to " +:+ category +:+ ".json at "
                     +:+ filePath +:+ ": " +:+ message error))).

(** Check if a shape with the same ID already exists. *)
Definition shapeExists (id_ : string) (category : ShapeCategory) : io bool :=
  let* shapes := loadCategoryShapes category in
  ret (existsb (fun shape => String.eqb (id shape) id_) shapes).

(** Add a captured shape to the library; returns the path of the
    category file. *)
Definition addShapeToLibrary (shape : ShapeInfo) : io string :=
  let category_ := category shape in
  let* shapes := loadCategoryShapes category_ in
  let existingIndex := findIndex (fun s => String.eqb (id s) (id shape)) shapes in
  let shapes' :=
    match existingIndex with
    | Some i => <[i := shape]> shapes
    | None => shapes ++ [shape]
    end in
  let* _ := saveCategoryShapes category_ shapes' in
  ret (getCategoryFilePath category_).

(** [{ ...shape, ...updates, id, category }] *)
Definition merge (shape : ShapeInfo) (updates : PartialShapeInfo)
    (id_ : string) (category_ : ShapeCategory) : ShapeInfo :=
  {| id := id_;
     name := default (name shape) (p_name updates);
     category := category_;
     description := default (description shape) (p_description updates);
     tags := default (tags shape) (p_tags updates);
     preview := default (preview shape) (p_preview updates);
     pptxDefinition := default (pptxDefinition shape) (p_pptxDefinition updates);
     nativePptx := default (nativePptx shape) (p_nativePptx updates);
     nativeOnly := default (nativeOnly shape) (p_nativeOnly updates) |}.

(** [new Error(`Shape with ID '${id}' not found in ${category} category`)] *)
Definition notFound (id_ : string) (category : ShapeCategory) : exn :=
  Error ("Shape with ID '" +:+ id_ +:+ "' not found in " +:+ category +:+ " category").

(** Update an existing shape in the library. *)
Definition updateShapeInLibrary (id_ : string) (category : ShapeCategory)
    (updates : PartialShapeInfo) : io unit :=
  let* shapes := loadCategoryShapes category in
  match findIndex (fun s => String.eqb (id s) id_) shapes with
  | None => throw (notFound id_ category)
  | Some index =>
      let shapes' :=
        match shapes !! index with
        | Some old => <[index := merge old updates id_ category]> shapes
        | None => shapes
        end in
      saveCategoryShapes category shapes'
  end.

(** Remove a shape from the library. *)
Definition removeShapeFromLibrary (id_ : string) (category : ShapeCategory) : io unit :=
  let* shapes := loadCategoryShapes category in
  let filteredShapes := List.filter (fun s => negb (String.eqb (id s) id_)) shapes in
  if (length filteredShapes =? length shapes)%nat
  then throw (notFound id_ category)
  else saveCategoryShapes category filteredShapes.

Definition categories : list ShapeCategory := ["basic"; "arrows"; "flowchart"; "callouts"].

(** Get count of shapes in each category. *)
Definition getShapeCounts : io (list (string * nat)) :=
  fold_left
    (fun (acc : io (list (string * nat))) category =>
       let* counts := acc in
       let* shapes := loadCategoryShapes category in
       ret (setKey category (length shapes) counts))
    categories (ret []).

(** Get total number of shapes across all categories. *)
Definition getTotalShapeCount : io nat :=
  let* counts := getShapeCounts in
  ret (fold_left (fun sum count => (sum + count)%nat) (Object_values counts) O).

End Saver.

End ShapeSaver.

(** ** Preview generation ([src/utils/previewGenerator.ts]) *)

Module PreviewGenerator.
Import Exn Shapes ShapeSaver.

Section Generator.

Variable shapesDir : string.
Variable localeCompare : string -> string -> Z.

(** The library root, [getLibraryRoot()]. *)
Variable libRoot : string.

(** [process.platform] *)
Variable platform : string.

(** The outcome of getting a PPTX source and of the PowerPoint export
    ([generateShapePptx], [exportPptxToPngWindows]), which run outside the
    stores: [await] returns or throws, and the disk of the stores is as it
    was. *)
Variable exported : result unit.

Definition exportPptxToPngWindows : io unit := fun fs => (exported, fs).

(** Generate a PNG preview for a shape and update its JSON entry with
    the preview path.  Returns the path of the PNG, or [None] ([null])
    off Windows. *)
Definition generatePreview (shape : ShapeInfo) : io (option string) :=
  if negb (String.eqb platform "win32") then ret None
  else
    let outDir := libRoot +:+ "/assets/" +:+ category shape in
    let outPng := outDir +:+ "/" +:+ id shape +:+ ".png" in
    let* _ := exportPptxToPngWindows in
    let rel := category shape +:+ "/" +:+ id shape +:+ ".png" in
    let* _ :=
      try_catch
        (updateShapeInLibrary shapesDir localeCompare (id shape) (category shape)
           {| p_id := None; p_name := None; p_category := None; p_description := None;
              p_tags := None; p_preview := Some rel; p_pptxDefinition := None;
              p_nativePptx := None; p_nativeOnly := None |})
        (fun _ => ret tt) in
    ret (Some outPng).

End Generator.

End PreviewGenerator.

(** ** The PPTX generator ([src/generator/pptxGenerator.ts]) *)

Module Generator.
Import Shapes.

(** Normalize color format to ensure it starts with #. *)
Definition normalizeColor (color : option string) : option string :=
  match color with
  | None => None
  | Some c =>
      if String.eqb c "" then None
      else if Js.startsWith c "#" then Some c
      else if Js.isHex6 c then Some ("#" +:+ c)
      else Some c
  end.

(** Normalize fill properties to ensure color format is correct. *)
Definition normalizeFill (fill : option ShapeFill) : option ShapeFill :=
  match fill with
  | None => None
  | Some f =>
      Some {| fill_color := normalizeColor (fill_color f);
              fill_transparency := fill_transparency f |}
  end.

(** Normalize line properties to ensure color format is correct. *)
Definition normalizeLine (line : option ShapeLine) : option ShapeLine :=
  match line with
  | None => None
  | Some l =>
      Some {| line_color := normalizeColor (line_color l);
              line_width := line_width l;
              line_transparency := line_transparency l |}
  end.

(** [shape.id.replace(/[^a-z0-9-]/gi, "_")] *)
Definition safeName (id_ : string) : string :=
  Js.mapChars
    (fun c => if Js.isLower c || Js.isUpper c || Js.isDigit c || Ascii.eqb c "-"
              then c else "_"%char)
    id_.

(** The name of the temporary file of [generateShapePptx];
    [timestamp] is [Date.now()]. *)
Definition tempFileName (shape : ShapeInfo) (timestamp : Z) : string :=
  "shape_" +:+ safeName (id shape) +:+ "_" +:+ Js.toString10 timestamp +:+ ".pptx".

(** *** The temporary files *)

(** The temporary directory as far as the cleanup sees it: the files
    that exist, those among them that [unlinkSync] cannot delete (in use by
    PowerPoint), and [activeTempFiles], a [Set] in insertion order. *)
Record TempFiles : Type := {
  existing : gset string;
  inUse : gset string;
  activeTempFiles : list string
}.

(** [set.add(x)] and [set.delete(x)] on a [Set] in insertion order. *)
Definition Set_add (x : string) (xs : list string) : list string :=
  if bool_decide (x ∈ xs) then xs else xs ++ [x].

Definition Set_delete (x : string) (xs : list string) : list string :=
  List.filter (fun y => negb (String.eqb y x)) xs.

(** [generateShapePptx] has written [tempPath]: track temp file for
    cleanup. *)
Definition trackTempFile (tempPath : string) (st : TempFiles) : TempFiles :=
  {| existing := {[tempPath]} ∪ existing st;
     inUse := inUse st;
     activeTempFiles := Set_add tempPath (activeTempFiles st) |}.

(** Clean up a temporary file: a failure of [unlinkSync] is caught and
    logged. *)
Definition cleanupTempFile (filePath : string) (st : TempFiles) : TempFiles :=
  if bool_decide (filePath ∈ existing st) then
    if bool_decide (filePath ∈ inUse st) then st
    else {| existing := existing st ∖ {[filePath]};
            inUse := inUse st;
            activeTempFiles := Set_delete filePath (activeTempFiles st) |}
  else st.

(** Clean up all active temporary files: [forEach] visits the paths in
    insertion order, and each visit deletes at most the path it visits. *)
Definition cleanupAllTempFiles (st : TempFiles) : TempFiles :=
  fold_left (fun st filePath => cleanupTempFile filePath st) (activeTempFiles st) st.

(** Get count of active temporary files. *)
Definition getActiveTempFilesCount (st : TempFiles) : nat :=
  length (activeTempFiles st).

End Generator.

(** ** The library deck ([src/utils/deck.ts]) *)

Module Deck.
Import Exn.

(** How [runPs] settles when PowerShell has closed with exit code
    [code], having printed [stdout] and [stderr]: it resolves with
    [stdout] or rejects. *)
Definition runPs (code : Z) (stdout stderr : string) : result string :=
  if negb (code =? 0)%Z then
    Throw (Error ("PowerShell failed (" +:+ Js.toString10 code +:+ "). "
                  +:+ Js.or_string (Some stderr) stdout))
  else if Js.startsWith (Js.trim stdout) "ERROR:" then
    Throw (Error (Js.slice 6 (Js.trim stdout)))
  else OK stdout.

(** The end of [addShapeToDeckFromPptx]: [out] is what [runPs] resolved
    with; the slide index is read with the pattern "OK:" and one or more
    digits at the start of [out.trim()]. *)
Definition slideIndexOfReply (out : string) : result Z :=
  let t := Js.trim out in
  let digits := Js.takeDigits (Js.slice 3 t) in
  if Js.startsWith t "OK:" && negb (String.eqb digits "")
  then OK (Js.parseDigits 0 digits)
  else Throw (Error ("Failed to add to deck: " +:+ out)).

(** [addShapeToDeckFromPptx], from the close of its PowerShell process
    on. *)
Definition addShapeToDeckFromPptx (code : Z) (stdout stderr : string) : result Z :=
  match runPs code stdout stderr with
  | OK out => slideIndexOfReply out
  | Throw e => Throw e
  end.

End Deck.

(** ** The vocabulary of the properties *)

Module Spec.
Import Exn Shapes ShapeSaver.

(** The leading segment of a relative path: what comes before its first
    ["/"] (the whole path when it has none). *)
Fixpoint leadingSegment (p : string) : string :=
  match p with
  | EmptyString => EmptyString
  | String c t => if Ascii.eqb c "/" then EmptyString else String c (leadingSegment t)
  end.

(** A name without ["/"]. *)
Fixpoint plainName (s : string) : bool :=
  match s with
  | EmptyString => true
  | String c t => negb (Ascii.eqb c "/") && plainName t
  end.

(** The core invariant between a record's preview and its category. *)
Definition previewUnderCategory (r : ShapeInfo) : Prop :=
  leadingSegment (preview r) = category r.

(** The records of a category as they are on disk: the array in the
    category's file, when the file holds one. *)
Definition persisted (shapesDir : string) (fs : FS) (category : ShapeCategory)
    : option (list ShapeInfo) :=
  match files fs !! getCategoryFilePath shapesDir category with
  | Some (Readable (Json shapes)) => Some shapes
  | _ => None
  end.

(** The records of a category as [loadCategoryShapes] reads them: those
    on disk, none when there is no file or no array in it. *)
Definition stored (shapesDir : string) (fs : FS) (category : ShapeCategory)
    : list ShapeInfo :=
  default [] (persisted shapesDir fs category).

(** The disk after a write of [shapes] to the file of [category]. *)
Definition written (shapesDir : string) (fs : FS) (category : ShapeCategory)
    (shapes : list ShapeInfo) : FS :=
  {| files := <[getCategoryFilePath shapesDir category := Readable (Json shapes)]> (files fs);
     faults := faults fs |}.

(** The array [addShapeToLibrary] hands to [saveCategoryShapes]: the
    record replaces the first one with its id, or goes last. *)
Definition upsert (shape : ShapeInfo) (shapes : list ShapeInfo) : list ShapeInfo :=
  match findIndex (fun s => String.eqb (id s) (id shape)) shapes with
  | Some i => <[i := shape]> shapes
  | None => shapes ++ [shape]
  end.

(** The records of a list that have a given id. *)
Definition withId (id_ : string) (shapes : list ShapeInfo) : list ShapeInfo :=
  List.filter (fun s => String.eqb (id s) id_) shapes.

(** The ids of a store are unique. *)
Definition uniqueIds (shapes : list ShapeInfo) : Prop := NoDup (List.map id shapes).

(** Every record of a category's store is filed under its own category. *)
Definition filedUnder (category_ : ShapeCategory) (shapes : list ShapeInfo) : Prop :=
  Forall (fun s => category s = category_) shapes.

(** Ascending order of the names under a comparator. *)
Definition sortedBy (cmp : string -> string -> Z) (shapes : list ShapeInfo) : Prop :=
  StronglySorted (fun a b => cmp (name a) (name b) <= 0) shapes.

(** Case-sensitive lexical order: strings compared character by
    character by their codes, so that ["B"] comes before ["a"]. *)
Definition lexicalCompare (a b : string) : Z :=
  match String.compare a b with
  | Lt => -1
  | Eq => 0
  | Gt => 1
  end.

(** A collation in the manner of [localeCompare] on names of ASCII
    letters and digits: the letters are compared without regard to case
    first, so that ["a"] comes before ["B"], and names that differ in case
    only have the lower-case letter first. *)
Definition collate (a b : string) : Z :=
  match String.compare (Js.toLowerCase a) (Js.toLowerCase b) with
  | Lt => -1
  | Gt => 1
  | Eq => - lexicalCompare a b
  end.

(** A comparator is consistent when, of two strings, one is not greater
    than the other, and "not greater" is transitive. *)
Definition consistent (cmp : string -> string -> Z) : Prop :=
  (forall a b, 0 < cmp a b -> cmp b a <= 0)
  /\ (forall a b c, cmp a b <= 0 -> cmp b c <= 0 -> cmp a c <= 0).

(** The characters of a generated id: [[a-z0-9]] and ["-"]. *)
Definition idChar (c : ascii) : bool := Js.isLowerAlnum c || Ascii.eqb c "-".

(** The name as it enters an id. *)
Definition sanitized (name_ : string) : string :=
  Js.replaceNonAlnum "-" (Js.toLowerCase name_).

(** A replacement of characters that changes separators only: it keeps
    each letter and digit, and puts for any other character one that is
    again neither a letter nor a digit. *)
Definition changesSeparatorsOnly (f : ascii -> ascii) : Prop :=
  forall c,
    if Js.isLowerAlnum (Js.lowerChar c) then f c = c
    else Js.isLowerAlnum (Js.lowerChar (f c)) = false.

(** The numeric table, where it has the code, and the name table, where
    it has the name, give the same kind. *)
Definition tablesAgree (entry : Z * string) : bool :=
  match Mapper.AUTOSHAPE_NAME_MAP !! entry.2, Mapper.AUTOSHAPE_TYPE_MAP !! entry.1 with
  | Some byName, Some byCode => String.eqb byName byCode
  | _, _ => true
  end.

End Spec.

(** ** Concrete shapes, disks and caches for the examples *)

Module Examples.
Import Shapes ShapeSaver Spec.

Definition shapesDir : string := "/library/shapes".
Definition libRoot : string := "/library".

(** A capture time, in milliseconds. *)
Definition now : Z := 1700000000000.

Definition box : PptxDefinition :=
  {| type := "rectangle"; x := 1%Q; y := 1%Q; w := 2%Q; h := 2%Q; rotate := None;
     adj := None; rectRadius := None; fill := None; line := None |}.

Definition shape (id_ name_ category_ preview_ : string) : ShapeInfo :=
  {| id := id_; name := name_; category := category_; description := "";
     tags := []; preview := preview_; pptxDefinition := box;
     nativePptx := None; nativeOnly := None |}.

Definition emptyDisk : FS := {| files := ∅; faults := ∅ |}.

(** A disk whose "basic" store holds one record, named "B". *)
Definition basicDisk : FS :=
  written shapesDir emptyDisk "basic" [shape "b" "B" "basic" "basic/b.png"].

(** A disk whose "basic" store holds one record that still has the
    preview normalisation gave it. *)
Definition placeholderDisk : FS :=
  written shapesDir emptyDisk "basic" [shape "b" "B" "basic" "basic/placeholder.png"].

(** A disk whose "basic" file is not JSON. *)
Definition corruptDisk : FS :=
  {| files := {[ getCategoryFilePath shapesDir "basic"
                 := Readable (Garbage "Unexpected end of JSON input") ]};
     faults := ∅ |}.

(** What the bridge prints for a right arrow named "Arrow1". *)
Definition arrowData : Extractor.BridgeData :=
  {| Extractor.d_name := Some "Arrow1"; Extractor.d_type := Some 39;
     Extractor.d_autoShapeName := None;
     Extractor.d_left := Some 1.5%Q; Extractor.d_top := Some 2%Q;
     Extractor.d_width := Some 3%Q; Extractor.d_height := Some 1%Q;
     Extractor.d_rotation := Some 0%Q; Extractor.d_adjustments := None;
     Extractor.d_nativePptxRelPath := None;
     Extractor.d_isGroup := None; Extractor.d_isPicture := None;
     Extractor.d_pngTempPath := None;
     Extractor.d_fillColor := Some "4472C4"; Extractor.d_fillTransparency := Some 0%Q;
     Extractor.d_lineColor := None; Extractor.d_lineWeight := None;
     Extractor.d_lineTransparency := None |}.

(** What the bridge prints for a group whose native save failed: the
    group flag is set, the native path is not. *)
Definition groupData : Extractor.BridgeData :=
  {| Extractor.d_name := Some "Group 5"; Extractor.d_type := Some (-2);
     Extractor.d_autoShapeName := None;
     Extractor.d_left := Some 1%Q; Extractor.d_top := Some 1%Q;
     Extractor.d_width := Some 4%Q; Extractor.d_height := Some 3%Q;
     Extractor.d_rotation := Some 0%Q; Extractor.d_adjustments := None;
     Extractor.d_nativePptxRelPath := None;
     Extractor.d_isGroup := Some true; Extractor.d_isPicture := None;
     Extractor.d_pngTempPath := None;
     Extractor.d_fillColor := None; Extractor.d_fillTransparency := None;
     Extractor.d_lineColor := None; Extractor.d_lineWeight := None;
     Extractor.d_lineTransparency := None |}.

(** A cache with an entry for "basic" read at time 1000, and the
    modification times of a disk on which the file has changed since. *)
Definition basicEntry : Cache.ShapeCacheEntry :=
  {| Cache.shapes := [shape "b" "B" "basic" "basic/b.png"];
     Cache.lastModified := 1000; Cache.category := "basic" |}.

Definition basicCache : gmap string Cache.ShapeCacheEntry := {[ "basic" := basicEntry ]}.

Definition laterTimes : gmap string Z := {[ "/library/shapes/basic.json" := 2000 ]}.

(** The disk [basicDisk] when the "basic" file cannot be written. *)
Definition lockedDisk : FS :=
  {| files := files basicDisk;
     faults := {[ getCategoryFilePath shapesDir "basic"
                  := "EACCES: permission denied, open '/library/shapes/basic.json'" ]} |}.

(** What the bridge prints for a right arrow, with the enum name of its
    [$autoMap]. *)
Definition namedArrowData : Extractor.BridgeData :=
  {| Extractor.d_name := Some "Arrow1"; Extractor.d_type := Some 39;
     Extractor.d_autoShapeName := Some "msoShapeRightArrow";
     Extractor.d_left := Some 1.5%Q; Extractor.d_top := Some 2%Q;
     Extractor.d_width := Some 3%Q; Extractor.d_height := Some 1%Q;
     Extractor.d_rotation := Some 0%Q; Extractor.d_adjustments := None;
     Extractor.d_nativePptxRelPath := None;
     Extractor.d_isGroup := None; Extractor.d_isPicture := None;
     Extractor.d_pngTempPath := None;
     Extractor.d_fillColor := Some "4472C4"; Extractor.d_fillTransparency := Some 0%Q;
     Extractor.d_lineColor := None; Extractor.d_lineWeight := None;
     Extractor.d_lineTransparency := None |}.

(** Dashes for spaces in a name. *)
Definition spaceToDash (c : ascii) : ascii := if Ascii.eqb c " " then "-"%char else c.

(** A carriage return and a line feed, the end of a line the script
    prints. *)
Definition crlf : string := String "013" (String "010" "").

End Examples.

(** * Properties *)

Import Exn Shapes ShapeSaver Spec.

(** ** String builtins *)

Lemma value36_digit36 (d : Z) : 0 <= d < 36 -> Js.value36 (Js.digit36 d) = d.
Proof.
  intros Hd.
  assert (Hn : exists n : nat, (n < 36)%nat /\ d = Z.of_nat n).
  { exists (Z.to_nat d). split; lia. }
  destruct Hn as (n & Hn & ->).
  do 36 (destruct n as [|n]; [reflexivity|]).
  lia.
Qed.

Lemma parse36_digits (fuel : nat) :
  forall n acc, 0 <= n < 2 ^ Z.of_nat fuel ->
    Js.parse36 0 (Js.digits 36 fuel n acc) = Js.parse36 n acc.
Proof.
  induction fuel as [|fuel IH]; intros n acc Hn.
  - simpl in *. replace n with 0 by lia. reflexivity.
  - cbn [Js.digits].
    assert (Hpow : 2 ^ Z.of_nat (S fuel) = 2 * 2 ^ Z.of_nat fuel).
    { rewrite Nat2Z.inj_succ, Z.pow_succ_r by lia. reflexivity. }
    destruct (n <? 36)%Z eqn:Hlt.
    + apply Z.ltb_lt in Hlt.
      cbn [Js.parse36]. rewrite Z.mod_small by lia.
      rewrite value36_digit36 by lia. reflexivity.
    + apply Z.ltb_ge in Hlt.
      rewrite IH.
      * cbn [Js.parse36].
        rewrite value36_digit36 by (apply Z.mod_pos_bound; lia).
        f_equal. symmetry. apply Z.div_mod. lia.
      * split; [apply Z.div_pos; lia|].
        apply Z.div_lt_upper_bound; lia.
Qed.

(** [toString(36)] writes a numeral that reads back as the number. *)
Lemma parse36_toString36 (n : Z) : 0 <= n -> Js.parse36 0 (Js.toString36 n) = n.
Proof.
  intros Hn. unfold Js.toString36, Js.toStringRadix.
  rewrite Z.abs_eq by lia.
  destruct (n <? 0)%Z eqn:Hneg; [apply Z.ltb_lt in Hneg; lia|].
  rewrite parse36_digits; [reflexivity|].
  split; [lia|].
  destruct (Z.eq_dec n 0) as [->|Hnz]; [reflexivity|].
  rewrite Nat2Z.inj_succ, Z2Nat.id by apply Z.log2_nonneg.
  apply Z.log2_spec. lia.
Qed.

Lemma leadingSegment_app (c rest : string) :
  plainName c = true -> leadingSegment (c +:+ "/" +:+ rest) = c.
Proof.
  induction c as [|a c IH]; intros Hc; [reflexivity|].
  simpl in *. apply andb_true_iff in Hc as [Ha Hc].
  destruct (Ascii.eqb a "/"); [discriminate|].
  now rewrite IH.
Qed.

(** ** Capture normalisation *)

Section Normalisation.

Variable now : Z.
Variable extracted : Extractor.ExtractedShape.
Variable customName : option string.

Abbreviation r := (Mapper.mapToShapeInfo now extracted customName).

Lemma getCategoryFromType_closed (t : ShapeType) :
  Mapper.getCategoryFromType t = "flowchart" \/ Mapper.getCategoryFromType t = "arrows"
  \/ Mapper.getCategoryFromType t = "callouts" \/ Mapper.getCategoryFromType t = "basic".
Proof.
  unfold Mapper.getCategoryFromType.
  repeat match goal with |- context [if ?b then _ else _] => destruct b end; auto.
Qed.

Lemma normalised_category_closed :
  category r = "flowchart" \/ category r = "arrows"
  \/ category r = "callouts" \/ category r = "basic".
Proof.
  unfold Mapper.mapToShapeInfo. cbn [category].
  destruct (Mapper.isNativeOnly extracted); [auto|].
  apply getCategoryFromType_closed.
Qed.

Lemma normalised_preview : preview r = category r +:+ "/placeholder.png".
Proof. reflexivity. Qed.

Lemma normalised_previewUnderCategory : previewUnderCategory r.
Proof.
  unfold previewUnderCategory. rewrite normalised_preview.
  destruct normalised_category_closed as [H|[H|[H|H]]]; rewrite H; reflexivity.
Qed.

Lemma normalised_native :
  nativeOnly r = (if Mapper.isNativeOnly extracted then Some true else None)
  /\ nativePptx r = Extractor.nativePptxRelPath extracted.
Proof. split; reflexivity. Qed.

End Normalisation.

Lemma lookup_type_39 : Mapper.AUTOSHAPE_TYPE_MAP !! 39 = Some "rightArrow".
Proof. vm_compute. reflexivity. Qed.

(** C8. Normalising a captured shape named "Arrow1" of numeric type 39,
    without symbolic type name and without group or picture flag, gives a
    record of category "arrows" and geometry kind "rightArrow" whose id is
    "captured-arrow1-" followed by the capture time in radix 36 (a numeral
    that reads back as the time). *)
Theorem normalise_Arrow1 (now : Z) (extracted : Extractor.ExtractedShape) :
  Extractor.name extracted = "Arrow1" ->
  Extractor.type extracted = 39 ->
  Extractor.autoShapeName extracted = None ->
  Extractor.isGroup extracted <> Some true ->
  Extractor.isPicture extracted <> Some true ->
  0 <= now ->
  let r := Mapper.mapToShapeInfo now extracted None in
  category r = "arrows"
  /\ type (pptxDefinition r) = "rightArrow"
  /\ id r = "captured-arrow1-" +:+ Js.toString36 now
  /\ Js.parse36 0 (Js.toString36 now) = now.
Proof.
  intros Hname Htype Hauto Hgroup Hpicture Hnow r.
  assert (Hnative : Mapper.isNativeOnly extracted = false).
  { unfold Mapper.isNativeOnly, Extractor.is_true.
    destruct (Extractor.isGroup extracted) as [[|]|];
      destruct (Extractor.isPicture extracted) as [[|]|]; cbn; congruence. }
  assert (Hchoose : Mapper.chooseType extracted = "rightArrow").
  { unfold Mapper.chooseType. rewrite Hauto, Htype, lookup_type_39. reflexivity. }
  subst r. unfold Mapper.mapToShapeInfo.
  rewrite Hnative, Hchoose, Hname.
  repeat split; try reflexivity.
  now apply parse36_toString36.
Qed.

(** ** The shape cache *)

(** C6. [getCachedShapes] returns the cached list exactly when the
    category has an entry and the file's modification time is the one the
    entry holds, which is the one [setCachedShapes] read when it put the
    entry; a hit leaves the cache as it was; when the category has an entry
    and the time differs or the file cannot be stat'd, the entry is deleted
    and the result is a miss; without an entry the result is a miss. *)
Theorem getCachedShapes_spec (fs : gmap string Z) (cache : gmap string Cache.ShapeCacheEntry)
    (category filePath : string) :
  (forall shapes,
      (Cache.getCachedShapes fs cache category filePath).1 = Some shapes
      <-> exists entry, cache !! category = Some entry
                        /\ Cache.shapes entry = shapes
                        /\ fs !! filePath = Some (Cache.lastModified entry))
  /\ (forall shapes,
        (Cache.getCachedShapes fs cache category filePath).1 = Some shapes ->
        (Cache.getCachedShapes fs cache category filePath).2 = cache)
  /\ (forall entry,
        cache !! category = Some entry ->
        fs !! filePath <> Some (Cache.lastModified entry) ->
        Cache.getCachedShapes fs cache category filePath = (None, delete category cache))
  /\ (cache !! category = None ->
      Cache.getCachedShapes fs cache category filePath = (None, cache))
  /\ (forall fs0 filePath0 shapes0 modified,
        fs0 !! filePath0 = Some modified ->
        forall shapes,
          (Cache.getCachedShapes fs
             (Cache.setCachedShapes fs0 cache category filePath0 shapes0)
             category filePath).1 = Some shapes
          <-> shapes = shapes0 /\ fs !! filePath = Some modified).
Proof.
  assert (Hget : forall (c : gmap string Cache.ShapeCacheEntry) shapes,
             (Cache.getCachedShapes fs c category filePath).1 = Some shapes
             <-> exists entry, c !! category = Some entry
                               /\ Cache.shapes entry = shapes
                               /\ fs !! filePath = Some (Cache.lastModified entry)).
  { intros c shapes. unfold Cache.getCachedShapes, Cache.statSync.
    destruct (c !! category) as [entry|] eqn:Hentry.
    - destruct (fs !! filePath) as [t|] eqn:Hstat.
      + destruct (Z.eqb_spec (Cache.lastModified entry) t) as [Heq|Hne]; cbn.
        * split.
          -- intros [= <-]. exists entry. subst t. auto.
          -- intros (e & [= <-] & Hs & _). now rewrite Hs.
        * split; [discriminate|].
          intros (e & [= <-] & _ & [= Ht]). congruence.
      + cbn. split; [discriminate|]. intros (e & _ & _ & [=]).
    - cbn. split; [discriminate|]. intros (e & [=] & _). }
  split; [exact (Hget cache)|].
  split; [|split; [|split]].
  - intros shapes Hhit. unfold Cache.getCachedShapes, Cache.statSync in *.
    destruct (cache !! category) as [entry|]; [|reflexivity].
    destruct (fs !! filePath) as [t|]; [|discriminate].
    destruct (Cache.lastModified entry =? t)%Z; [reflexivity|discriminate].
  - intros entry Hentry Hstat. unfold Cache.getCachedShapes, Cache.statSync.
    rewrite Hentry. destruct (fs !! filePath) as [t|]; [|reflexivity].
    destruct (Z.eqb_spec (Cache.lastModified entry) t) as [Heq|Hne]; [|reflexivity].
    congruence.
  - intros Hnone. unfold Cache.getCachedShapes. now rewrite Hnone.
  - intros fs0 filePath0 shapes0 modified Hput shapes.
    rewrite Hget. unfold Cache.setCachedShapes, Cache.statSync. rewrite Hput.
    rewrite lookup_insert_eq. split.
    + intros (entry & [= <-] & Hs & Ht). cbn in *. auto.
    + intros [-> Ht]. eexists. split; [reflexivity|]. cbn. auto.
Qed.

(** ** Arrays: [findIndex], [filter] and [sort] *)

Section Arrays.

Context {A : Type}.
Variable cmp : A -> A -> Z.

Lemma insertSorted_Permutation (a : A) (xs : list A) :
  Permutation (insertSorted cmp a xs) (a :: xs).
Proof.
  induction xs as [|b t IH]; cbn; [reflexivity|].
  destruct (cmp a b <=? 0)%Z; [reflexivity|].
  rewrite IH. apply perm_swap.
Qed.

Lemma sort_Permutation (xs : list A) : Permutation (sort cmp xs) xs.
Proof.
  induction xs as [|a t IH]; cbn; [reflexivity|].
  rewrite insertSorted_Permutation. now constructor.
Qed.

Lemma filter_insertSorted (p : A -> bool) (a : A) (xs : list A) :
  Permutation (List.filter p (insertSorted cmp a xs)) (List.filter p (a :: xs)).
Proof.
  induction xs as [|b t IH]; [reflexivity|].
  cbn [insertSorted]. destruct (cmp a b <=? 0)%Z; [reflexivity|].
  cbn [List.filter] in *.
  destruct (p b), (p a); rewrite IH; auto using perm_swap.
Qed.

Lemma filter_sort (p : A -> bool) (xs : list A) :
  Permutation (List.filter p (sort cmp xs)) (List.filter p xs).
Proof.
  induction xs as [|a t IH]; [reflexivity|].
  cbn [sort]. rewrite filter_insertSorted. cbn [List.filter].
  destruct (p a); rewrite IH; reflexivity.
Qed.

(** Sorting moves the one element that satisfies [p], it does not copy or
    drop it. *)
Lemma filter_sort_singleton (p : A -> bool) (xs : list A) (a : A) :
  List.filter p xs = [a] -> List.filter p (sort cmp xs) = [a].
Proof.
  intros H. apply Permutation_length_1_inv.
  rewrite <- H. symmetry. apply filter_sort.
Qed.

(** With a comparator under which, of two elements, one is not greater
    than the other, the sorted array is in ascending order. *)
Hypothesis cmp_total : forall a b, 0 < cmp a b -> cmp b a <= 0.

Lemma insertSorted_Sorted (a : A) (xs : list A) :
  Sorted (fun x y => cmp x y <= 0) xs -> Sorted (fun x y => cmp x y <= 0) (insertSorted cmp a xs).
Proof.
  induction xs as [|b t IH]; intros Hs; cbn.
  - repeat constructor.
  - destruct (Z.leb_spec (cmp a b) 0) as [Hle|Hgt].
    + constructor; [assumption|]. now constructor.
    + apply Sorted_inv in Hs as [Ht Hb].
      constructor; [now apply IH|].
      destruct t as [|c t']; cbn.
      * constructor. now apply cmp_total.
      * destruct (cmp a c <=? 0)%Z; constructor.
        -- now apply cmp_total.
        -- now apply HdRel_inv in Hb.
Qed.

Lemma sort_Sorted (xs : list A) : Sorted (fun x y => cmp x y <= 0) (sort cmp xs).
Proof.
  induction xs as [|a t IH]; cbn; [constructor|].
  now apply insertSorted_Sorted.
Qed.

(** When "not greater" is transitive as well, every element of the sorted
    array is not greater than any element after it. *)
Hypothesis cmp_trans : forall a b c, cmp a b <= 0 -> cmp b c <= 0 -> cmp a c <= 0.

Lemma sort_StronglySorted (xs : list A) :
  StronglySorted (fun x y => cmp x y <= 0) (sort cmp xs).
Proof.
  apply Sorted_StronglySorted; [|apply sort_Sorted].
  intros a b c. apply cmp_trans.
Qed.

End Arrays.

Section FindIndex.

Context {A : Type}.
Variable p : A -> bool.

Lemma findIndex_None (xs : list A) : List.filter p xs = [] -> findIndex p xs = None.
Proof.
  induction xs as [|x t IH]; cbn; [reflexivity|].
  destruct (p x); [discriminate|]. intros H. now rewrite IH.
Qed.

(** [findIndex] finds the first element that satisfies [p]; writing
    another element that satisfies [p] at its index replaces it among the
    elements that satisfy [p]. *)
Lemma findIndex_Some (xs : list A) (a : A) (rest : list A) :
  List.filter p xs = a :: rest ->
  exists i, findIndex p xs = Some i
            /\ xs !! i = Some a
            /\ forall b, p b = true -> List.filter p (<[i := b]> xs) = b :: rest.
Proof.
  induction xs as [|x t IH]; cbn; [discriminate|].
  destruct (p x) eqn:Hx.
  - intros [= -> <-]. exists O. repeat split.
    intros b Hb. cbn. now rewrite Hb.
  - intros H. destruct (IH H) as (i & Hi & Hlook & Hrep).
    exists (S i). rewrite Hi. repeat split; [assumption|].
    intros b Hb. cbn. rewrite Hx. now apply Hrep.
Qed.

Lemma filter_app_singleton (xs : list A) (b : A) :
  p b = true -> List.filter p xs = [] -> List.filter p (xs ++ [b]) = [b].
Proof.
  intros Hb H. rewrite List.filter_app, H. cbn. now rewrite Hb.
Qed.

Lemma filter_negb_length (xs : list A) :
  List.filter p xs = [] -> List.filter (fun x => negb (p x)) xs = xs.
Proof.
  induction xs as [|x t IH]; cbn; [reflexivity|].
  destruct (p x); [discriminate|]. intros H. cbn. now rewrite IH.
Qed.

End FindIndex.

(** ** The category stores *)

Section Stores.

Variable shapesDir : string.
Variable localeCompare : string -> string -> Z.

Abbreviation path := (getCategoryFilePath shapesDir).
Abbreviation byName := (fun a b : ShapeInfo => localeCompare (name a) (name b)).
Abbreviation written := (Spec.written shapesDir).

(** [loadCategoryShapes] never throws and never writes. *)
Lemma loadCategoryShapes_spec (fs : FS) (category : ShapeCategory) :
  loadCategoryShapes shapesDir category fs = (OK (stored shapesDir fs category), fs).
Proof.
  unfold loadCategoryShapes, stored, persisted, bind, existsSync, try_catch, readFileSync.
  cbv zeta.
  destruct (files fs !! path category) as [[m|[m|shapes]]|] eqn:Hfile; cbn;
    rewrite ?Hfile; reflexivity.
Qed.

Lemma saveCategoryShapes_ok (fs : FS) (category : ShapeCategory) (shapes : list ShapeInfo) :
  faults fs !! path category = None ->
  saveCategoryShapes shapesDir localeCompare category shapes fs
  = (OK tt, written fs category (sort byName shapes)).
Proof.
  intros Hw. unfold saveCategoryShapes, try_catch, writeFileSync. now rewrite Hw.
Qed.

(** A save that returns has written the sorted array; a save that throws
    has written nothing. *)
Lemma saveCategoryShapes_inv (fs fs' : FS) (category : ShapeCategory)
    (shapes : list ShapeInfo) (res : result unit) :
  saveCategoryShapes shapesDir localeCompare category shapes fs = (res, fs') ->
  (res = OK tt /\ fs' = written fs category (sort byName shapes))
  \/ ((exists e, res = Throw e) /\ fs' = fs).
Proof.
  unfold saveCategoryShapes, try_catch, writeFileSync, throw.
  destruct (faults fs !! path category) as [m|]; intros [= <- <-]; eauto.
Qed.

Lemma persisted_written (fs : FS) (category : ShapeCategory) (shapes : list ShapeInfo) :
  persisted shapesDir (written fs category shapes) category = Some shapes.
Proof. unfold persisted, written. cbn. now rewrite lookup_insert_eq. Qed.

Lemma stored_written (fs : FS) (category : ShapeCategory) (shapes : list ShapeInfo) :
  stored shapesDir (written fs category shapes) category = shapes.
Proof. unfold stored. now rewrite persisted_written. Qed.

(** *** Listing *)

(** C3. When the category's file is absent, or its text is not JSON,
    [loadCategoryShapes] returns the empty array: it does not throw, and it
    leaves the disk as it is. *)
Theorem load_absent_or_corrupt (fs : FS) (category : ShapeCategory) :
  files fs !! path category = None
  \/ (exists m, files fs !! path category = Some (Readable (Garbage m))) ->
  loadCategoryShapes shapesDir category fs = (OK [], fs).
Proof.
  intros H. rewrite loadCategoryShapes_spec. unfold stored, persisted.
  destruct H as [-> | [m ->]]; reflexivity.
Qed.

(** *** Adding *)

Lemma addShapeToLibrary_ok (fs : FS) (shape : ShapeInfo) :
  faults fs !! path (category shape) = None ->
  addShapeToLibrary shapesDir localeCompare shape fs
  = (OK (path (category shape)),
     written fs (category shape)
       (sort byName (upsert shape (stored shapesDir fs (category shape))))).
Proof.
  intros Hw. unfold addShapeToLibrary, bind.
  rewrite loadCategoryShapes_spec, saveCategoryShapes_ok by assumption.
  reflexivity.
Qed.

Lemma addShapeToLibrary_inv (fs fs' : FS) (shape : ShapeInfo) (p : string) :
  addShapeToLibrary shapesDir localeCompare shape fs = (OK p, fs') ->
  fs' = written fs (category shape)
          (sort byName (upsert shape (stored shapesDir fs (category shape)))).
Proof.
  unfold addShapeToLibrary, bind. rewrite loadCategoryShapes_spec.
  destruct (saveCategoryShapes _ _ _ _ _) as [res fs1] eqn:Hsave.
  apply saveCategoryShapes_inv in Hsave as [[-> ->] | [[e ->] ->]]; [|discriminate].
  intros [= _ <-]. reflexivity.
Qed.

(** After an upsert the array has the record once when it had its id at
    most once. *)
Lemma withId_upsert (shape : ShapeInfo) (shapes : list ShapeInfo) :
  (length (withId (id shape) shapes) <= 1)%nat ->
  withId (id shape) (upsert shape shapes) = [shape].
Proof.
  intros Hone. unfold withId, upsert in *.
  destruct (List.filter _ shapes) as [|a rest] eqn:Hf.
  - rewrite findIndex_None by assumption.
    apply filter_app_singleton; [apply String.eqb_refl | assumption].
  - destruct rest; [|cbn in Hone; lia].
    destruct (findIndex_Some _ _ _ _ Hf) as (i & -> & _ & Hrep).
    apply Hrep, String.eqb_refl.
Qed.

(** C2. In a category whose store holds the id at most once (as every
    store written by these operations does) and whose file can be written,
    adding [r] and then [r'] with the same id and category succeeds twice
    and leaves, among the records on disk, exactly one with that id: [r']. *)
Theorem add_twice_upserts (fs : FS) (r r' : ShapeInfo) :
  id r = id r' ->
  category r = category r' ->
  (length (withId (id r) (stored shapesDir fs (category r))) <= 1)%nat ->
  faults fs !! path (category r) = None ->
  exists p1 fs1 p2 fs2 shapes,
    addShapeToLibrary shapesDir localeCompare r fs = (OK p1, fs1)
    /\ addShapeToLibrary shapesDir localeCompare r' fs1 = (OK p2, fs2)
    /\ persisted shapesDir fs2 (category r') = Some shapes
    /\ withId (id r') shapes = [r'].
Proof.
  intros Hid Hcat Hone Hw.
  do 5 eexists. split; [now apply addShapeToLibrary_ok|].
  split; [apply addShapeToLibrary_ok; rewrite <- Hcat; exact Hw|].
  split; [apply persisted_written|].
  apply filter_sort_singleton, withId_upsert.
  rewrite <- Hcat, stored_written, <- Hid.
  unfold withId. erewrite filter_sort_singleton; [cbn; lia|].
  now apply withId_upsert.
Qed.

(** *** Updating and removing *)

Lemma updateShapeInLibrary_found (fs : FS) (id_ : string) (category : ShapeCategory)
    (updates : PartialShapeInfo) (old : ShapeInfo) (rest : list ShapeInfo) :
  withId id_ (stored shapesDir fs category) = old :: rest ->
  faults fs !! path category = None ->
  exists shapes,
    updateShapeInLibrary shapesDir localeCompare id_ category updates fs
    = (OK tt, written fs category (sort byName shapes))
    /\ withId id_ shapes = merge old updates id_ category :: rest.
Proof.
  intros Hold Hw. unfold withId in Hold.
  destruct (findIndex_Some _ _ _ _ Hold) as (i & Hi & Hlook & Hrep).
  exists (<[i := merge old updates id_ category]> (stored shapesDir fs category)).
  split.
  - unfold updateShapeInLibrary, bind.
    rewrite loadCategoryShapes_spec, Hi, Hlook. now apply saveCategoryShapes_ok.
  - apply Hrep. cbn. apply String.eqb_refl.
Qed.

Lemma updateShapeInLibrary_inv (fs fs' : FS) (id_ : string) (category : ShapeCategory)
    (updates : PartialShapeInfo) :
  updateShapeInLibrary shapesDir localeCompare id_ category updates fs = (OK tt, fs') ->
  exists shapes, fs' = written fs category (sort byName shapes).
Proof.
  unfold updateShapeInLibrary, bind. rewrite loadCategoryShapes_spec.
  destruct (findIndex _ _) as [i|]; [|discriminate].
  destruct (saveCategoryShapes _ _ _ _ _) as [res fs1] eqn:Hsave.
  apply saveCategoryShapes_inv in Hsave as [[-> ->] | [[e ->] ->]]; [|discriminate].
  intros [= <-]. eauto.
Qed.

Lemma removeShapeFromLibrary_inv (fs fs' : FS) (id_ : string) (category : ShapeCategory) :
  removeShapeFromLibrary shapesDir localeCompare id_ category fs = (OK tt, fs') ->
  exists shapes, fs' = written fs category (sort byName shapes).
Proof.
  unfold removeShapeFromLibrary, bind. rewrite loadCategoryShapes_spec.
  destruct (_ =? _)%nat; [discriminate|].
  destruct (saveCategoryShapes _ _ _ _ _) as [res fs1] eqn:Hsave.
  apply saveCategoryShapes_inv in Hsave as [[-> ->] | [[e ->] ->]]; [|discriminate].
  intros [= <-]. eauto.
Qed.

(** C4. When the category's store has no record with the id, both
    [updateShapeInLibrary] and [removeShapeFromLibrary] throw the "not
    found" error that names the id and the category, and the disk they
    leave is the disk they found. *)
Theorem update_remove_unknown_id (fs : FS) (id_ : string) (category : ShapeCategory)
    (updates : PartialShapeInfo) :
  withId id_ (stored shapesDir fs category) = [] ->
  updateShapeInLibrary shapesDir localeCompare id_ category updates fs
  = (Throw (notFound id_ category), fs)
  /\ removeShapeFromLibrary shapesDir localeCompare id_ category fs
     = (Throw (notFound id_ category), fs)
  /\ notFound id_ category
     = Error ("Shape with ID '" +:+ id_ +:+ "' not found in " +:+ category +:+ " category").
Proof.
  intros Hnone. unfold withId in Hnone. repeat split.
  - unfold updateShapeInLibrary, bind.
    rewrite loadCategoryShapes_spec, findIndex_None by assumption. reflexivity.
  - unfold removeShapeFromLibrary, bind. rewrite loadCategoryShapes_spec.
    pose proof (filter_negb_length _ _ Hnone) as Hsame. cbn beta in Hsame.
    rewrite Hsame, Nat.eqb_refl. reflexivity.
Qed.

(** C9. Updating the record with a given id in a category, when the
    record is filed under its own category and the file can be written,
    succeeds and leaves on disk, as the record with that id, one that has
    the id and the category of the old record whatever id and category the
    partial supplies, and for every other field the partial's value when
    the partial has the key and the old value otherwise. *)
Theorem update_keeps_id_and_category (fs : FS) (id_ : string) (category_ : ShapeCategory)
    (updates : PartialShapeInfo) (old : ShapeInfo) :
  withId id_ (stored shapesDir fs category_) = [old] ->
  category old = category_ ->
  faults fs !! path category_ = None ->
  exists fs' shapes new,
    updateShapeInLibrary shapesDir localeCompare id_ category_ updates fs = (OK tt, fs')
    /\ persisted shapesDir fs' category_ = Some shapes
    /\ withId id_ shapes = [new]
    /\ id new = id old
    /\ category new = category old
    /\ name new = default (name old) (p_name updates)
    /\ description new = default (description old) (p_description updates)
    /\ tags new = default (tags old) (p_tags updates)
    /\ preview new = default (preview old) (p_preview updates)
    /\ pptxDefinition new = default (pptxDefinition old) (p_pptxDefinition updates)
    /\ nativePptx new = default (nativePptx old) (p_nativePptx updates)
    /\ nativeOnly new = default (nativeOnly old) (p_nativeOnly updates).
Proof.
  intros Hold Hcat Hw.
  destruct (updateShapeInLibrary_found fs id_ category_ updates old [] Hold Hw)
    as (shapes & Hupd & Hnew).
  assert (Hid : id old = id_).
  { assert (Hin : In old (withId id_ (stored shapesDir fs category_))) by (rewrite Hold; now left).
    apply List.filter_In in Hin as [_ Hin]. now apply String.eqb_eq in Hin. }
  exists (written fs category_ (sort byName shapes)), (sort byName shapes),
    (merge old updates id_ category_).
  split; [exact Hupd|].
  split; [apply persisted_written|].
  split; [now apply filter_sort_singleton|].
  cbn. repeat split; congruence.
Qed.

(** *** The order of a store *)

Lemma sort_sortedBy (shapes : list ShapeInfo) :
  consistent localeCompare -> sortedBy localeCompare (sort byName shapes).
Proof.
  intros [Htotal Htrans]. unfold sortedBy. apply (sort_StronglySorted byName).
  - intros a b. apply Htotal.
  - intros a b c. apply Htrans.
Qed.

(** C5 (amended). When [localeCompare] is a consistent comparator, every
    write of a category's store by add, update or remove leaves on disk an
    array in ascending order of the names under [localeCompare]. *)
Theorem saved_in_localeCompare_order :
  consistent localeCompare ->
  (forall fs shape p fs',
      addShapeToLibrary shapesDir localeCompare shape fs = (OK p, fs') ->
      exists shapes, persisted shapesDir fs' (category shape) = Some shapes
                     /\ sortedBy localeCompare shapes)
  /\ (forall fs id_ category updates fs',
        updateShapeInLibrary shapesDir localeCompare id_ category updates fs = (OK tt, fs') ->
        exists shapes, persisted shapesDir fs' category = Some shapes
                       /\ sortedBy localeCompare shapes)
  /\ (forall fs id_ category fs',
        removeShapeFromLibrary shapesDir localeCompare id_ category fs = (OK tt, fs') ->
        exists shapes, persisted shapesDir fs' category = Some shapes
                       /\ sortedBy localeCompare shapes).
Proof.
  intros Hc. repeat split.
  - intros fs shape p fs' Hadd. apply addShapeToLibrary_inv in Hadd as ->.
    eexists. split; [apply persisted_written | now apply sort_sortedBy].
  - intros fs id_ category updates fs' Hupd.
    apply updateShapeInLibrary_inv in Hupd as [shapes ->].
    eexists. split; [apply persisted_written | now apply sort_sortedBy].
  - intros fs id_ category fs' Hrem.
    apply removeShapeFromLibrary_inv in Hrem as [shapes ->].
    eexists. split; [apply persisted_written | now apply sort_sortedBy].
Qed.

(** *** Counting *)

Lemma length_append (a b : string) :
  String.length (a +:+ b) = (String.length a + String.length b)%nat.
Proof.
  induction a as [|c a IH]; [reflexivity|].
  change (String c a +:+ b) with (String c (a +:+ b)).
  cbn [String.length]. now rewrite IH.
Qed.

Lemma append_inj_l (a b suffix : string) : a +:+ suffix = b +:+ suffix -> a = b.
Proof.
  revert b. induction a as [|c a IH]; intros [|d b] H.
  - reflexivity.
  - apply (f_equal String.length) in H.
    rewrite !length_append in H. cbn [String.length] in H. lia.
  - apply (f_equal String.length) in H.
    rewrite !length_append in H. cbn [String.length] in H. lia.
  - change (String c (a +:+ suffix) = String d (b +:+ suffix)) in H.
    injection H as -> H. f_equal. now apply IH.
Qed.

(** Two categories that are plain names have two files. *)
Lemma getCategoryFilePath_inj (c c' : ShapeCategory) :
  plainName c = true -> plainName c' = true -> path c = path c' -> c = c'.
Proof.
  unfold getCategoryFilePath. intros _ _ H.
  apply (inj (String.app shapesDir)) in H.
  apply (inj (String.app "/")) in H.
  now apply append_inj_l in H.
Qed.

Lemma stored_other_file (fs : FS) (category c : ShapeCategory) (f : file) :
  plainName category = true -> plainName c = true ->
  c <> category ->
  stored shapesDir {| files := <[path category := f]> (files fs); faults := faults fs |} c
  = stored shapesDir fs c.
Proof.
  intros Hplain Hplain' Hne. unfold stored, persisted. cbn.
  rewrite lookup_insert_ne; [reflexivity|].
  intros H. apply getCategoryFilePath_inj in H; [congruence|assumption|assumption].
Qed.

Lemma getShapeCounts_spec (fs : FS) :
  getShapeCounts shapesDir fs
  = (OK [("basic", length (stored shapesDir fs "basic"));
         ("arrows", length (stored shapesDir fs "arrows"));
         ("flowchart", length (stored shapesDir fs "flowchart"));
         ("callouts", length (stored shapesDir fs "callouts"))], fs).
Proof.
  unfold getShapeCounts, categories. cbn [fold_left]. unfold bind, ret.
  rewrite !loadCategoryShapes_spec. reflexivity.
Qed.

(** C10. The counts have exactly the keys "basic", "arrows", "flowchart"
    and "callouts", each with the number of records in that category's
    store; the total is the sum of the counts; and neither changes with
    the file of any other category that is a plain name. *)
Theorem counts_of_the_four_categories (fs : FS) :
  exists counts,
    getShapeCounts shapesDir fs = (OK counts, fs)
    /\ Object_keys counts = ["basic"; "arrows"; "flowchart"; "callouts"]
    /\ Object_values counts
       = List.map (fun c => length (stored shapesDir fs c))
           ["basic"; "arrows"; "flowchart"; "callouts"]
    /\ getTotalShapeCount shapesDir fs = (OK (list_sum (Object_values counts)), fs)
    /\ forall category f,
         plainName category = true ->
         ~ In category ["basic"; "arrows"; "flowchart"; "callouts"] ->
         let fs' := {| files := <[path category := f]> (files fs); faults := faults fs |} in
         (getShapeCounts shapesDir fs').1 = OK counts
         /\ (getTotalShapeCount shapesDir fs').1 = (getTotalShapeCount shapesDir fs).1.
Proof.
  eexists. split; [apply getShapeCounts_spec|].
  split; [reflexivity|]. split; [reflexivity|].
  split.
  - unfold getTotalShapeCount, bind, ret. rewrite getShapeCounts_spec.
    cbn. do 2 f_equal. lia.
  - intros category f Hplain Hother fs'.
    assert (Hsame : forall c, In c ["basic"; "arrows"; "flowchart"; "callouts"] ->
                              stored shapesDir fs' c = stored shapesDir fs c).
    { intros c Hc. apply stored_other_file; [exact Hplain| |intros ->; contradiction].
      destruct Hc as [<-|[<-|[<-|[<-|[]]]]]; reflexivity. }
    unfold getTotalShapeCount, bind, ret. rewrite !getShapeCounts_spec.
    rewrite !Hsame by (cbn; auto). split; reflexivity.
Qed.

(** *** What the stores keep *)

Lemma findIndex_Some_inv {A : Type} (p : A -> bool) (xs : list A) (i : nat) :
  findIndex p xs = Some i -> exists a, xs !! i = Some a /\ p a = true.
Proof.
  revert i. induction xs as [|x t IH]; intros i; cbn; [discriminate|].
  destruct (p x) eqn:Hx.
  - intros [= <-]. eauto.
  - destruct (findIndex p t) as [j|]; [|discriminate].
    intros [= <-]. destruct (IH j eq_refl) as (a & Ha & Hp). eauto.
Qed.

Lemma findIndex_None_inv {A : Type} (p : A -> bool) (xs : list A) :
  findIndex p xs = None -> forall a, In a xs -> p a = false.
Proof.
  induction xs as [|x t IH]; cbn; [contradiction|].
  destruct (p x) eqn:Hx; [discriminate|].
  destruct (findIndex p t); [discriminate|].
  intros _ a [<-|Ha]; auto.
Qed.

Lemma map_id_upsert_found (shape : ShapeInfo) (shapes : list ShapeInfo) (i : nat) :
  findIndex (fun s => String.eqb (id s) (id shape)) shapes = Some i ->
  List.map id (<[i := shape]> shapes) = List.map id shapes.
Proof.
  intros Hi. apply findIndex_Some_inv in Hi as (a & Ha & Hid).
  apply String.eqb_eq in Hid.
  change (List.map id) with (fmap (M := list) id).
  rewrite list_fmap_insert, <- Hid. apply list_insert_id.
  now rewrite list_lookup_fmap, Ha.
Qed.

Lemma upsert_uniqueIds (shape : ShapeInfo) (shapes : list ShapeInfo) :
  uniqueIds shapes -> uniqueIds (upsert shape shapes).
Proof.
  unfold uniqueIds, upsert. intros Hu.
  destruct (findIndex _ shapes) as [i|] eqn:Hi.
  - now rewrite map_id_upsert_found.
  - rewrite List.map_app. cbn.
    apply NoDup_app. split; [assumption|]. split; [|apply NoDup_singleton].
    intros x Hx Hx'. apply list_elem_of_singleton in Hx' as ->.
    apply list_elem_of_In, List.in_map_iff in Hx as (a & Hid & Ha).
    apply (findIndex_None_inv _ _ Hi) in Ha. cbn in Ha.
    apply String.eqb_neq in Ha. congruence.
Qed.

Lemma sort_uniqueIds (shapes : list ShapeInfo) :
  uniqueIds shapes -> uniqueIds (sort byName shapes).
Proof.
  unfold uniqueIds. intros Hu.
  assert (Hp : List.map id (sort byName shapes) ≡ₚ List.map id shapes)
    by apply Permutation_map, sort_Permutation.
  now rewrite Hp.
Qed.

Lemma sort_filedUnder (category_ : ShapeCategory) (shapes : list ShapeInfo) :
  filedUnder category_ shapes -> filedUnder category_ (sort byName shapes).
Proof.
  unfold filedUnder. intros Hf. now rewrite sort_Permutation.
Qed.

Lemma uniqueIds_withId (id_ : string) (shapes : list ShapeInfo) :
  uniqueIds shapes -> (length (withId id_ shapes) <= 1)%nat.
Proof.
  unfold uniqueIds, withId. induction shapes as [|a t IH]; cbn; [lia|].
  intros Hu. apply NoDup_cons in Hu as [Ha Ht].
  destruct (String.eqb_spec (id a) id_) as [<-|Hne]; [|now apply IH].
  cbn. destruct (List.filter _ t) as [|b rest] eqn:Hf; [cbn; lia|].
  exfalso. apply Ha.
  assert (Hb : In b (List.filter (fun s => String.eqb (id s) (id a)) t))
    by (rewrite Hf; now left).
  apply List.filter_In in Hb as [Hb Hid]. apply String.eqb_eq in Hid.
  rewrite <- Hid. apply list_elem_of_In. now apply List.in_map.
Qed.

(** The stores that add, update and remove write have unique ids and
    records filed under their category when the stores they read have;
    the store of an absent file has both. *)
Lemma stores_keep_their_invariants (fs : FS) :
  (forall category_,
      files fs !! path category_ = None ->
      uniqueIds (stored shapesDir fs category_)
      /\ filedUnder category_ (stored shapesDir fs category_))
  /\ (forall shape p fs',
        uniqueIds (stored shapesDir fs (category shape)) ->
        filedUnder (category shape) (stored shapesDir fs (category shape)) ->
        addShapeToLibrary shapesDir localeCompare shape fs = (OK p, fs') ->
        uniqueIds (stored shapesDir fs' (category shape))
        /\ filedUnder (category shape) (stored shapesDir fs' (category shape)))
  /\ (forall id_ category_ updates fs',
        uniqueIds (stored shapesDir fs category_) ->
        filedUnder category_ (stored shapesDir fs category_) ->
        updateShapeInLibrary shapesDir localeCompare id_ category_ updates fs = (OK tt, fs') ->
        uniqueIds (stored shapesDir fs' category_)
        /\ filedUnder category_ (stored shapesDir fs' category_))
  /\ (forall id_ category_ fs',
        uniqueIds (stored shapesDir fs category_) ->
        filedUnder category_ (stored shapesDir fs category_) ->
        removeShapeFromLibrary shapesDir localeCompare id_ category_ fs = (OK tt, fs') ->
        uniqueIds (stored shapesDir fs' category_)
        /\ filedUnder category_ (stored shapesDir fs' category_)).
Proof.
  split; [|split; [|split]].
  - intros category_ Hnone. unfold stored, persisted. rewrite Hnone. cbn.
    split; constructor.
  - intros shape p fs' Hu Hf Hadd. apply addShapeToLibrary_inv in Hadd as ->.
    rewrite stored_written. split.
    + now apply sort_uniqueIds, upsert_uniqueIds.
    + apply sort_filedUnder. unfold filedUnder, upsert in *.
      destruct (findIndex _ _) as [i|].
      * apply Forall_insert; auto.
      * apply Forall_app. split; [assumption|]. now constructor.
  - intros id_ category_ updates fs' Hu Hf. unfold updateShapeInLibrary, bind.
    rewrite loadCategoryShapes_spec.
    destruct (findIndex _ _) as [i|] eqn:Hi; [|discriminate].
    destruct (findIndex_Some_inv _ _ _ Hi) as (a & Ha & Hid). rewrite Ha.
    destruct (saveCategoryShapes _ _ _ _ _) as [res fs1] eqn:Hsave.
    apply saveCategoryShapes_inv in Hsave as [[-> ->] | [[e ->] ->]]; [|discriminate].
    intros [= <-]. rewrite stored_written. split.
    + apply sort_uniqueIds.
      unfold uniqueIds in *. apply String.eqb_eq in Hid.
      change (List.map id) with (fmap (M := list) id) in *.
      rewrite list_fmap_insert. cbn. rewrite <- Hid, list_insert_id; [assumption|].
      now rewrite list_lookup_fmap, Ha.
    + apply sort_filedUnder. unfold filedUnder in *. now apply Forall_insert.
  - intros id_ category_ fs' Hu Hf. unfold removeShapeFromLibrary, bind.
    rewrite loadCategoryShapes_spec.
    destruct (_ =? _)%nat; [discriminate|].
    destruct (saveCategoryShapes _ _ _ _ _) as [res fs1] eqn:Hsave.
    apply saveCategoryShapes_inv in Hsave as [[-> ->] | [[e ->] ->]]; [|discriminate].
    intros [= <-]. rewrite stored_written. split.
    + apply sort_uniqueIds. unfold uniqueIds in *.
      clear Hf. induction (stored shapesDir fs category_) as [|a t IH]; cbn; [constructor|].
      apply NoDup_cons in Hu as [Ha Ht].
      destruct (negb _); cbn; [|now apply IH].
      apply NoDup_cons. split; [|now apply IH].
      intros Hin. apply Ha. apply list_elem_of_In in Hin. apply list_elem_of_In.
      apply List.in_map_iff in Hin as (b & Hb & Hin). apply List.filter_In in Hin as [Hin _].
      rewrite <- Hb. now apply List.in_map.
    + apply sort_filedUnder. unfold filedUnder in *.
      apply List.Forall_forall. intros a Ha. apply List.filter_In in Ha as [Ha _].
      rewrite List.Forall_forall in Hf. now apply Hf.
Qed.

End Stores.

(** ** Previews and categories *)

Section Previews.

Variable shapesDir : string.
Variable localeCompare : string -> string -> Z.
Variable libRoot : string.

Abbreviation path := (getCategoryFilePath shapesDir).

Lemma In_upsert (shape : ShapeInfo) (shapes : list ShapeInfo) :
  In shape (upsert shape shapes).
Proof.
  unfold upsert. destruct (findIndex _ shapes) as [i|] eqn:Hi.
  - apply findIndex_Some_inv in Hi as (a & Ha & _).
    apply list_elem_of_In, list_elem_of_lookup. exists i.
    apply list_lookup_insert_eq. now apply lookup_lt_Some in Ha.
  - apply List.in_or_app. right. now left.
Qed.

(** On Windows, when the export succeeds, [generatePreview] rewrites the
    record with the shape's id in the shape's category. *)
Lemma generatePreview_updates (fs : FS) (shape old : ShapeInfo) :
  withId (id shape) (stored shapesDir fs (category shape)) = [old] ->
  faults fs !! path (category shape) = None ->
  exists fs' shapes new,
    PreviewGenerator.generatePreview shapesDir localeCompare libRoot "win32" (OK tt) shape fs
    = (OK (Some ((libRoot +:+ "/assets/" +:+ category shape)
                 +:+ "/" +:+ id shape +:+ ".png")), fs')
    /\ persisted shapesDir fs' (category shape) = Some shapes
    /\ withId (id shape) shapes = [new]
    /\ category new = category shape
    /\ preview new = category shape +:+ "/" +:+ id shape +:+ ".png".
Proof.
  intros Hold Hw.
  destruct (updateShapeInLibrary_found shapesDir localeCompare fs (id shape) (category shape)
              {| p_id := None; p_name := None; p_category := None; p_description := None;
                 p_tags := None;
                 p_preview := Some (category shape +:+ "/" +:+ id shape +:+ ".png");
                 p_pptxDefinition := None; p_nativePptx := None; p_nativeOnly := None |}
              old [] Hold Hw) as (shapes & Hupd & Hnew).
  do 3 eexists. split.
  - unfold PreviewGenerator.generatePreview, PreviewGenerator.exportPptxToPngWindows,
      bind, try_catch, ret. cbn [String.eqb Ascii.eqb Bool.eqb negb].
    rewrite Hupd. reflexivity.
  - split; [apply persisted_written|].
    split; [apply filter_sort_singleton; exact Hnew|].
    split; reflexivity.
Qed.

(** Off Windows [generatePreview] does nothing, and when the export
    throws it throws before it touches the store. *)
Lemma generatePreview_without_export (fs : FS) (shape : ShapeInfo) (platform : string)
    (exported : result unit) :
  (platform <> "win32" ->
   PreviewGenerator.generatePreview shapesDir localeCompare libRoot platform exported shape fs
   = (OK None, fs))
  /\ (forall e,
        PreviewGenerator.generatePreview shapesDir localeCompare libRoot "win32" (Throw e)
          shape fs = (Throw e, fs)).
Proof.
  split.
  - intros Hp. unfold PreviewGenerator.generatePreview.
    apply String.eqb_neq in Hp. now rewrite Hp.
  - intros e. reflexivity.
Qed.

(** The invariant of a store goes through the sort of a write. *)
Lemma sort_previews (shapes : list ShapeInfo) :
  Forall previewUnderCategory shapes ->
  Forall previewUnderCategory
    (sort (fun a b : ShapeInfo => localeCompare (name a) (name b)) shapes).
Proof. intros H. now rewrite sort_Permutation. Qed.

(** What a save does to the invariant of its category's store. *)
Lemma saveCategoryShapes_previews (fs fs' : FS) (category_ : ShapeCategory)
    (shapes : list ShapeInfo) (res : result unit) :
  Forall previewUnderCategory (stored shapesDir fs category_) ->
  Forall previewUnderCategory shapes ->
  saveCategoryShapes shapesDir localeCompare category_ shapes fs = (res, fs') ->
  Forall previewUnderCategory (stored shapesDir fs' category_).
Proof.
  intros Hold Hnew Hsave.
  apply saveCategoryShapes_inv in Hsave as [[_ ->] | [_ ->]]; [|exact Hold].
  rewrite stored_written. now apply sort_previews.
Qed.

Lemma add_keeps_previews (fs fs' : FS) (shape : ShapeInfo) (res : result string) :
  previewUnderCategory shape ->
  Forall previewUnderCategory (stored shapesDir fs (category shape)) ->
  addShapeToLibrary shapesDir localeCompare shape fs = (res, fs') ->
  Forall previewUnderCategory (stored shapesDir fs' (category shape)).
Proof.
  intros Hshape Hold. unfold addShapeToLibrary, bind, ret.
  rewrite loadCategoryShapes_spec.
  destruct (saveCategoryShapes _ _ _ _ _) as [r fs1] eqn:Hsave.
  assert (Hfs1 : Forall previewUnderCategory (stored shapesDir fs1 (category shape))).
  { eapply saveCategoryShapes_previews; [exact Hold| |exact Hsave].
    destruct (findIndex _ _) as [i|].
    - now apply Forall_insert.
    - apply Forall_app. split; [exact Hold|]. now constructor. }
  destruct r; intros [= _ <-]; exact Hfs1.
Qed.

(** An update keeps the invariant when the record it writes has its
    preview under the category of the call. *)
Lemma update_keeps_previews (fs fs' : FS) (id_ : string) (category_ : ShapeCategory)
    (updates : PartialShapeInfo) (res : result unit) :
  Forall previewUnderCategory (stored shapesDir fs category_) ->
  (forall old, In old (stored shapesDir fs category_) ->
               leadingSegment (default (preview old) (p_preview updates)) = category_) ->
  updateShapeInLibrary shapesDir localeCompare id_ category_ updates fs = (res, fs') ->
  Forall previewUnderCategory (stored shapesDir fs' category_).
Proof.
  intros Hold Hmerge. unfold updateShapeInLibrary, bind.
  rewrite loadCategoryShapes_spec.
  destruct (findIndex _ _) as [i|] eqn:Hi; [|intros [= _ <-]; exact Hold].
  destruct (findIndex_Some_inv _ _ _ Hi) as (a & Ha & _). rewrite Ha.
  intros Hsave. eapply saveCategoryShapes_previews; [exact Hold| |exact Hsave].
  apply Forall_insert; [exact Hold|].
  unfold previewUnderCategory. cbn. apply Hmerge.
  apply list_elem_of_In. eapply list_elem_of_lookup_2. exact Ha.
Qed.

Lemma remove_keeps_previews (fs fs' : FS) (id_ : string) (category_ : ShapeCategory)
    (res : result unit) :
  Forall previewUnderCategory (stored shapesDir fs category_) ->
  removeShapeFromLibrary shapesDir localeCompare id_ category_ fs = (res, fs') ->
  Forall previewUnderCategory (stored shapesDir fs' category_).
Proof.
  intros Hold. unfold removeShapeFromLibrary, bind.
  rewrite loadCategoryShapes_spec.
  destruct (_ =? _)%nat; [intros [= _ <-]; exact Hold|].
  intros Hsave. eapply saveCategoryShapes_previews; [exact Hold| |exact Hsave].
  apply List.Forall_forall. intros a Ha. apply List.filter_In in Ha as [Ha _].
  rewrite List.Forall_forall in Hold. now apply Hold.
Qed.

Lemma generatePreview_keeps_previews (fs fs' : FS) (platform : string)
    (exported : result unit) (shape : ShapeInfo) (out : result (option string)) :
  plainName (category shape) = true ->
  Forall previewUnderCategory (stored shapesDir fs (category shape)) ->
  PreviewGenerator.generatePreview shapesDir localeCompare libRoot platform exported shape fs
  = (out, fs') ->
  Forall previewUnderCategory (stored shapesDir fs' (category shape)).
Proof.
  intros Hplain Hold. unfold PreviewGenerator.generatePreview.
  destruct (negb _); [intros [= _ <-]; exact Hold|].
  unfold PreviewGenerator.exportPptxToPngWindows, bind, try_catch, ret.
  destruct exported as [[]|e]; [|intros [= _ <-]; exact Hold].
  destruct (updateShapeInLibrary _ _ _ _ _ _) as [r fs1] eqn:Hupd.
  assert (Hfs1 : Forall previewUnderCategory (stored shapesDir fs1 (category shape))).
  { eapply update_keeps_previews; [exact Hold| |exact Hupd].
    intros old _. cbn. now apply leadingSegment_app. }
  destruct r; intros [= _ <-]; exact Hfs1.
Qed.

(** C1. Normalisation gives a record whose preview is its category
    followed by "/placeholder.png", and preview generation stores, for the
    record it rewrites, the category followed by "/", the id and ".png",
    under a category name without "/": both emit a preview whose leading
    segment is the record's category.  And the operations keep the
    invariant of a category's store, that the preview of each of its
    records is under the record's category, whether they return or throw:
    the add of a normalised record; preview generation for any shape of a
    category name without "/", on any platform and whatever the export
    gave; an update whose partial has no preview or one under the category,
    in a store whose records are filed under the category; and remove.
    The store of an absent file has the invariant. *)
Theorem preview_under_category :
  (forall now extracted customName,
      let r := Mapper.mapToShapeInfo now extracted customName in
      preview r = category r +:+ "/placeholder.png" /\ previewUnderCategory r)
  /\ (forall fs shape old,
        withId (id shape) (stored shapesDir fs (category shape)) = [old] ->
        faults fs !! path (category shape) = None ->
        plainName (category shape) = true ->
        exists out fs' shapes new,
          PreviewGenerator.generatePreview shapesDir localeCompare libRoot "win32" (OK tt)
            shape fs = (OK (Some out), fs')
          /\ persisted shapesDir fs' (category shape) = Some shapes
          /\ withId (id shape) shapes = [new]
          /\ id new = id shape
          /\ category new = category shape
          /\ preview new = category new +:+ "/" +:+ id new +:+ ".png"
          /\ previewUnderCategory new)
  /\ (forall fs category_,
        files fs !! path category_ = None ->
        Forall previewUnderCategory (stored shapesDir fs category_))
  /\ (forall fs now extracted customName res fs',
        let r := Mapper.mapToShapeInfo now extracted customName in
        Forall previewUnderCategory (stored shapesDir fs (category r)) ->
        addShapeToLibrary shapesDir localeCompare r fs = (res, fs') ->
        Forall previewUnderCategory (stored shapesDir fs' (category r))
        /\ (forall p, res = OK p -> In r (stored shapesDir fs' (category r))))
  /\ (forall fs platform exported shape out fs',
        plainName (category shape) = true ->
        Forall previewUnderCategory (stored shapesDir fs (category shape)) ->
        PreviewGenerator.generatePreview shapesDir localeCompare libRoot platform exported
          shape fs = (out, fs') ->
        Forall previewUnderCategory (stored shapesDir fs' (category shape)))
  /\ (forall fs id_ category_ updates res fs',
        Forall previewUnderCategory (stored shapesDir fs category_) ->
        filedUnder category_ (stored shapesDir fs category_) ->
        (forall p, p_preview updates = Some p -> leadingSegment p = category_) ->
        updateShapeInLibrary shapesDir localeCompare id_ category_ updates fs = (res, fs') ->
        Forall previewUnderCategory (stored shapesDir fs' category_))
  /\ (forall fs id_ category_ res fs',
        Forall previewUnderCategory (stored shapesDir fs category_) ->
        removeShapeFromLibrary shapesDir localeCompare id_ category_ fs = (res, fs') ->
        Forall previewUnderCategory (stored shapesDir fs' category_)).
Proof.
  split; [|split; [|split; [|split; [|split; [|split]]]]].
  - intros now extracted customName r. split.
    + apply normalised_preview.
    + apply normalised_previewUnderCategory.
  - intros fs shape old Hold Hw Hplain.
    destruct (generatePreview_updates fs shape old Hold Hw)
      as (fs' & shapes & new & Hgen & Hp & Hnew & Hcat & Hprev).
    assert (Hid : id new = id shape).
    { assert (Hin : In new (withId (id shape) shapes)) by (rewrite Hnew; now left).
      apply List.filter_In in Hin as [_ Hin]. now apply String.eqb_eq in Hin. }
    exists ((libRoot +:+ "/assets/" +:+ category shape) +:+ "/" +:+ id shape +:+ ".png"),
      fs', shapes, new.
    split; [exact Hgen|]. split; [exact Hp|]. split; [exact Hnew|].
    split; [exact Hid|]. split; [exact Hcat|].
    rewrite Hcat, Hid. split; [exact Hprev|].
    unfold previewUnderCategory. rewrite Hprev, Hcat.
    now apply leadingSegment_app.
  - intros fs category_ Hnone. unfold stored, persisted. rewrite Hnone. constructor.
  - intros fs now extracted customName res fs' r Hold Hadd. split.
    + eapply add_keeps_previews; [|exact Hold|exact Hadd].
      apply normalised_previewUnderCategory.
    + intros p ->. apply addShapeToLibrary_inv in Hadd as ->.
      rewrite stored_written.
      eapply Permutation_in; [symmetry; apply sort_Permutation|]. apply In_upsert.
  - intros fs platform exported shape out fs'. apply generatePreview_keeps_previews.
  - intros fs id_ category_ updates res fs' Hold Hfiled Hpartial.
    apply update_keeps_previews; [exact Hold|].
    intros old Hin. destruct (p_preview updates) as [p|] eqn:Hp; cbn.
    + now apply Hpartial.
    + unfold filedUnder in Hfiled. rewrite List.Forall_forall in Hold, Hfiled.
      rewrite <- (Hfiled old Hin). now apply Hold.
  - intros fs id_ category_ res fs'. apply remove_keeps_previews.
Qed.

End Previews.

(** C7 (amended). The record normalisation gives is native-only exactly
    when the captured shape is flagged as a group or a picture, and its
    native artifact path is the one of the captured shape, set or not. *)
Theorem normalised_native_only (now : Z) (extracted : Extractor.ExtractedShape)
    (customName : option string) :
  let r := Mapper.mapToShapeInfo now extracted customName in
  nativeOnly r = (if Mapper.isNativeOnly extracted then Some true else None)
  /\ nativePptx r = Extractor.nativePptxRelPath extracted.
Proof. apply normalised_native. Qed.

(** ** The comparators of the examples *)

Lemma compare_not_Gt (a b : string) : String.compare a b <> Gt <-> (a ≤ b)%string.
Proof.
  unfold String.le, String.leb.
  destruct (String.compare a b); cbn;
    (split; [intros H; first [exact I | apply H; reflexivity]
          | intros H; first [discriminate | destruct H]]).
Qed.

Lemma compare_not_Lt (a b : string) : String.compare a b <> Lt <-> (b ≤ a)%string.
Proof.
  rewrite <- compare_not_Gt, (String.compare_antisym b a).
  destruct (String.compare a b); cbn;
    (split; intros H; first [discriminate | exfalso; apply H; reflexivity]).
Qed.

Lemma compare_refl (a : string) : String.compare a a = Eq.
Proof.
  pose proof (String.compare_antisym a a) as H.
  destruct (String.compare a a); [reflexivity|discriminate|discriminate].
Qed.

Lemma compare_Lt_trans (a b c : string) :
  String.compare a b = Lt -> String.compare b c = Lt -> String.compare a c = Lt.
Proof.
  intros Hab Hbc.
  assert (Hle : (a ≤ c)%string).
  { transitivity b; apply compare_not_Gt; congruence. }
  apply compare_not_Gt in Hle.
  destruct (String.compare a c) eqn:Hac; [|reflexivity|congruence].
  apply String.compare_eq_iff in Hac as ->.
  rewrite (String.compare_antisym b c), Hab in Hbc. discriminate.
Qed.

Lemma collate_le (a b : string) :
  collate a b <= 0
  <-> String.compare (Js.toLowerCase a) (Js.toLowerCase b) = Lt
      \/ (Js.toLowerCase a = Js.toLowerCase b /\ (b ≤ a)%string).
Proof.
  unfold collate, lexicalCompare. rewrite <- compare_not_Lt.
  destruct (String.compare (Js.toLowerCase a) (Js.toLowerCase b)) eqn:Hl.
  - apply String.compare_eq_iff in Hl.
    destruct (String.compare a b); cbn; split; try lia; intuition congruence.
  - intuition lia.
  - split; [lia|]. intros [H|[H _]]; [discriminate|].
    rewrite H, compare_refl in Hl. discriminate.
Qed.

Lemma collate_consistent : consistent collate.
Proof.
  split.
  - intros a b. unfold collate, lexicalCompare.
    rewrite (String.compare_antisym (Js.toLowerCase a) (Js.toLowerCase b)).
    rewrite (String.compare_antisym a b).
    destruct (String.compare (Js.toLowerCase b) (Js.toLowerCase a));
      destruct (String.compare b a); cbn; lia.
  - intros a b c. rewrite !collate_le.
    intros [Hab|[Hab Hba]] [Hbc|[Hbc Hcb]].
    + left. eapply compare_Lt_trans; eassumption.
    + left. now rewrite <- Hbc.
    + left. now rewrite Hab.
    + right. split; [congruence|]. now transitivity b.
Qed.

Example collate_a_B : collate "a" "B" = -1 /\ lexicalCompare "a" "B" = 1.
Proof. split; reflexivity. Qed.

(** ** Counterexamples *)

(** C5, as stated, fails: under a collation that puts "a" before "B",
    adding a record named "a" to a store that holds one named "B" writes
    "a" first, which is not the case-sensitive lexical order. *)
Lemma saved_not_in_lexical_order :
  exists p fs' shapes,
    addShapeToLibrary Examples.shapesDir collate
      (Examples.shape "a" "a" "basic" "basic/a.png") Examples.basicDisk = (OK p, fs')
    /\ persisted Examples.shapesDir fs' "basic" = Some shapes
    /\ List.map name shapes = ["a"; "B"]
    /\ ~ sortedBy lexicalCompare shapes.
Proof.
  exists "/library/shapes/basic.json",
    (written Examples.shapesDir Examples.basicDisk "basic"
       [Examples.shape "a" "a" "basic" "basic/a.png";
        Examples.shape "b" "B" "basic" "basic/b.png"]),
    [Examples.shape "a" "a" "basic" "basic/a.png";
     Examples.shape "b" "B" "basic" "basic/b.png"].
  split; [reflexivity|]. split; [reflexivity|]. split; [reflexivity|].
  unfold sortedBy. intros Hs. apply StronglySorted_inv in Hs as [_ Hd].
  apply Forall_cons in Hd as [Hd _]. change (1 <= 0) in Hd. lia.
Qed.

(** C7, as stated, fails: a group captured without a native artifact
    gives a native-only record without native artifact path. *)
Lemma native_only_without_native_path :
  let r := Mapper.mapToShapeInfo Examples.now
             (Extractor.toExtractedShape Examples.groupData) None in
  nativeOnly r = Some true /\ nativePptx r = None.
Proof. split; reflexivity. Qed.

(** ** The theorems at concrete inputs *)

Lemma load_absent_or_corrupt_witness :
  loadCategoryShapes Examples.shapesDir "basic" Examples.corruptDisk
  = (OK [], Examples.corruptDisk)
  /\ loadCategoryShapes Examples.shapesDir "arrows" Examples.corruptDisk
     = (OK [], Examples.corruptDisk).
Proof.
  split.
  - apply (load_absent_or_corrupt Examples.shapesDir Examples.corruptDisk "basic").
    right. exists "Unexpected end of JSON input". reflexivity.
  - apply (load_absent_or_corrupt Examples.shapesDir Examples.corruptDisk "arrows").
    left. reflexivity.
Defined.

Lemma add_twice_upserts_witness :
  exists p1 fs1 p2 fs2 shapes,
    addShapeToLibrary Examples.shapesDir collate
      (Examples.shape "b" "Box" "basic" "basic/b.png") Examples.basicDisk = (OK p1, fs1)
    /\ addShapeToLibrary Examples.shapesDir collate
         (Examples.shape "b" "Bigger box" "basic" "basic/b.png") fs1 = (OK p2, fs2)
    /\ persisted Examples.shapesDir fs2 "basic" = Some shapes
    /\ withId "b" shapes = [Examples.shape "b" "Bigger box" "basic" "basic/b.png"].
Proof.
  apply (add_twice_upserts Examples.shapesDir collate Examples.basicDisk
           (Examples.shape "b" "Box" "basic" "basic/b.png")
           (Examples.shape "b" "Bigger box" "basic" "basic/b.png")).
  - reflexivity.
  - reflexivity.
  - vm_compute. apply le_n.
  - reflexivity.
Defined.

Lemma update_remove_unknown_id_witness :
  updateShapeInLibrary Examples.shapesDir collate "missing-id" "basic" noUpdates
    Examples.basicDisk
  = (Throw (Error "Shape with ID 'missing-id' not found in basic category"),
     Examples.basicDisk)
  /\ removeShapeFromLibrary Examples.shapesDir collate "missing-id" "basic"
       Examples.basicDisk
     = (Throw (Error "Shape with ID 'missing-id' not found in basic category"),
        Examples.basicDisk).
Proof.
  destruct (update_remove_unknown_id Examples.shapesDir collate Examples.basicDisk
              "missing-id" "basic" noUpdates) as (Hupd & Hrem & _).
  - reflexivity.
  - split; [exact Hupd | exact Hrem].
Defined.

Lemma update_keeps_id_and_category_witness :
  exists fs' shapes new,
    updateShapeInLibrary Examples.shapesDir collate "b" "basic"
      {| p_id := Some "other"; p_name := Some "Box"; p_category := Some "arrows";
         p_description := None; p_tags := None; p_preview := None;
         p_pptxDefinition := None; p_nativePptx := None; p_nativeOnly := None |}
      Examples.basicDisk = (OK tt, fs')
    /\ persisted Examples.shapesDir fs' "basic" = Some shapes
    /\ withId "b" shapes = [new]
    /\ id new = "b" /\ category new = "basic" /\ name new = "Box".
Proof.
  destruct (update_keeps_id_and_category Examples.shapesDir collate Examples.basicDisk
              "b" "basic"
              {| p_id := Some "other"; p_name := Some "Box"; p_category := Some "arrows";
                 p_description := None; p_tags := None; p_preview := None;
                 p_pptxDefinition := None; p_nativePptx := None; p_nativeOnly := None |}
              (Examples.shape "b" "B" "basic" "basic/b.png"))
    as (fs' & shapes & new & Hupd & Hp & Hnew & Hid & Hcat & Hname & _).
  - reflexivity.
  - reflexivity.
  - reflexivity.
  - exists fs', shapes, new. repeat split; assumption.
Defined.

Lemma saved_in_localeCompare_order_witness :
  exists shapes,
    persisted Examples.shapesDir
      (addShapeToLibrary Examples.shapesDir collate
         (Examples.shape "a" "a" "basic" "basic/a.png") Examples.basicDisk).2 "basic"
    = Some shapes
    /\ sortedBy collate shapes.
Proof.
  destruct (saved_in_localeCompare_order Examples.shapesDir collate collate_consistent)
    as (Hadd & _ & _).
  apply (Hadd Examples.basicDisk (Examples.shape "a" "a" "basic" "basic/a.png")
           "/library/shapes/basic.json").
  reflexivity.
Defined.

Lemma counts_of_the_four_categories_witness :
  exists counts,
    getShapeCounts Examples.shapesDir Examples.basicDisk = (OK counts, Examples.basicDisk)
    /\ (getShapeCounts Examples.shapesDir
          (written Examples.shapesDir Examples.basicDisk "logos"
             [Examples.shape "l" "Logo" "logos" "logos/l.png"])).1 = OK counts.
Proof.
  destruct (counts_of_the_four_categories Examples.shapesDir Examples.basicDisk)
    as (counts & Hcounts & _ & _ & _ & Hother).
  exists counts. split; [exact Hcounts|].
  apply (Hother "logos" (Readable (Json [Examples.shape "l" "Logo" "logos" "logos/l.png"]))).
  - reflexivity.
  - cbn. intros [H|[H|[H|[H|[]]]]]; discriminate.
Defined.

Lemma getCachedShapes_spec_witness :
  Cache.getCachedShapes Examples.laterTimes Examples.basicCache
    "basic" "/library/shapes/basic.json"
  = (None, delete "basic" Examples.basicCache).
Proof.
  destruct (getCachedShapes_spec Examples.laterTimes Examples.basicCache
              "basic" "/library/shapes/basic.json") as (_ & _ & Hstale & _).
  apply (Hstale Examples.basicEntry).
  - reflexivity.
  - vm_compute. discriminate.
Defined.

Lemma normalise_Arrow1_witness :
  let r := Mapper.mapToShapeInfo Examples.now
             (Extractor.toExtractedShape Examples.arrowData) None in
  category r = "arrows"
  /\ type (pptxDefinition r) = "rightArrow"
  /\ id r = "captured-arrow1-loyw3v28".
Proof.
  destruct (normalise_Arrow1 Examples.now (Extractor.toExtractedShape Examples.arrowData))
    as (Hcat & Htype & Hid & _).
  - reflexivity.
  - reflexivity.
  - reflexivity.
  - cbn. discriminate.
  - cbn. discriminate.
  - vm_compute. discriminate.
  - repeat split; assumption.
Defined.

Lemma preview_under_category_witness :
  stored Examples.shapesDir Examples.placeholderDisk "basic"
  = [Examples.shape "b" "B" "basic" "basic/placeholder.png"]
  /\ (exists out fs' shapes new,
        PreviewGenerator.generatePreview Examples.shapesDir collate Examples.libRoot
          "win32" (OK tt) (Examples.shape "b" "B" "basic" "basic/placeholder.png")
          Examples.placeholderDisk = (OK (Some out), fs')
        /\ persisted Examples.shapesDir fs' "basic" = Some shapes
        /\ withId "b" shapes = [new]
        /\ preview new = "basic/b.png"
        /\ previewUnderCategory new)
  /\ (let r := Mapper.mapToShapeInfo Examples.now
                 (Extractor.toExtractedShape Examples.arrowData) None in
      let fs' := (addShapeToLibrary Examples.shapesDir collate r Examples.emptyDisk).2 in
      In r (stored Examples.shapesDir fs' "arrows")
      /\ Forall previewUnderCategory (stored Examples.shapesDir fs' "arrows")).
Proof.
  destruct (preview_under_category Examples.shapesDir collate Examples.libRoot)
    as (_ & Hgen & Habsent & Hadd & _).
  split; [reflexivity|]. split.
  - destruct (Hgen Examples.placeholderDisk
                (Examples.shape "b" "B" "basic" "basic/placeholder.png")
                (Examples.shape "b" "B" "basic" "basic/placeholder.png"))
      as (out & fs' & shapes & new & Hrun & Hp & Hnew & Hid & Hcat & Hprev & Hinv).
    + reflexivity.
    + reflexivity.
    + reflexivity.
    + exists out, fs', shapes, new.
      split; [exact Hrun|]. split; [exact Hp|]. split; [exact Hnew|].
      split; [|exact Hinv]. rewrite Hprev, Hcat, Hid. reflexivity.
  - intros r fs'.
    destruct (Hadd Examples.emptyDisk Examples.now
                (Extractor.toExtractedShape Examples.arrowData) None
                (addShapeToLibrary Examples.shapesDir collate r Examples.emptyDisk).1 fs')
      as [Hall Hin].
    + apply Habsent. reflexivity.
    + apply surjective_pairing.
    + split; [|exact Hall].
      apply (Hin (getCategoryFilePath Examples.shapesDir "arrows")).
      vm_compute. reflexivity.
Defined.

(** ** The builtins at concrete inputs *)

Example toLowerCase_Arrow1 : Js.toLowerCase "Arrow1" = "arrow1".
Proof. reflexivity. Qed.

Example toString36_ex : Js.toString36 1700000000000 = "loyw3v28".
Proof. vm_compute. reflexivity. Qed.

Example lookup39 : Mapper.AUTOSHAPE_TYPE_MAP !! 39 = Some "rightArrow".
Proof. vm_compute. reflexivity. Qed.

Example lookupName : Mapper.AUTOSHAPE_NAME_MAP !! "msoShapeChevron" = Some "chevron".
Proof. vm_compute. reflexivity. Qed.

Example tags_ex : Mapper.generateTags "My Arrow 1" "rightArrow" "arrows" = ["captured"; "arrows"; "right"; "arrow"].
Proof. vm_compute. reflexivity. Qed.

(** * Further properties of the sources *)

(** ** Strings *)

Lemma append_cons (c : ascii) (a b : string) : String c a +:+ b = String c (a +:+ b).
Proof. reflexivity. Qed.

Lemma every_app (p : ascii -> bool) (a b : string) :
  Js.every p (a +:+ b) = Js.every p a && Js.every p b.
Proof.
  induction a as [|c a IH]; [reflexivity|].
  rewrite append_cons. cbn [Js.every]. rewrite IH. now rewrite andb_assoc.
Qed.

Lemma every_impl (p q : ascii -> bool) (s : string) :
  (forall c, p c = true -> q c = true) -> Js.every p s = true -> Js.every q s = true.
Proof.
  intros Hpq. induction s as [|c s IH]; cbn; [reflexivity|].
  intros H. apply andb_true_iff in H as [Hc Hs].
  now rewrite (Hpq c Hc), IH.
Qed.

Lemma every_replaceRuns (p : ascii -> bool) (sep : string) (inRun : bool) (s : string) :
  Js.every p sep = true ->
  (forall c, Js.isLowerAlnum c = true -> p c = true) ->
  Js.every p (Js.replaceRuns sep inRun s) = true.
Proof.
  intros Hsep Hp. revert inRun.
  induction s as [|c s IH]; intros inRun; cbn [Js.replaceRuns]; [reflexivity|].
  destruct (Js.isLowerAlnum c) eqn:Hc.
  - cbn [Js.every]. now rewrite (Hp c Hc), IH.
  - destruct inRun; [apply IH|].
    now rewrite every_app, Hsep, IH.
Qed.

Lemma isLowerAlnum_digit36 (d : Z) : 0 <= d < 36 -> Js.isLowerAlnum (Js.digit36 d) = true.
Proof.
  intros Hd.
  assert (Hn : exists n : nat, (n < 36)%nat /\ d = Z.of_nat n).
  { exists (Z.to_nat d). split; lia. }
  destruct Hn as (n & Hn & ->).
  do 36 (destruct n as [|n]; [reflexivity|]).
  lia.
Qed.

Lemma every_digits36 (fuel : nat) :
  forall n acc, 0 <= n -> Js.every Js.isLowerAlnum acc = true ->
    Js.every Js.isLowerAlnum (Js.digits 36 fuel n acc) = true.
Proof.
  induction fuel as [|fuel IH]; intros n acc Hn Hacc; cbn [Js.digits]; [assumption|].
  assert (Hd : Js.isLowerAlnum (Js.digit36 (n mod 36)) = true)
    by (apply isLowerAlnum_digit36, Z.mod_pos_bound; lia).
  destruct (n <? 36)%Z.
  - cbn [Js.every]. now rewrite Hd.
  - apply IH; [apply Z.div_pos; lia|]. cbn [Js.every]. now rewrite Hd.
Qed.

(** The numeral of a time that is not negative has digits only. *)
Lemma every_toString36 (n : Z) :
  0 <= n -> Js.every Js.isLowerAlnum (Js.toString36 n) = true.
Proof.
  intros Hn. unfold Js.toString36, Js.toStringRadix.
  destruct (n <? 0)%Z eqn:Hneg; [apply Z.ltb_lt in Hneg; lia|].
  apply every_digits36; [lia | reflexivity].
Qed.

Lemma idChar_toString36 (n : Z) : Js.every idChar (Js.toString36 n) = true.
Proof.
  unfold Js.toString36, Js.toStringRadix.
  assert (Hds : Js.every idChar
                  (Js.digits 36 (S (Z.to_nat (Z.log2 (Z.abs n)))) (Z.abs n) "") = true).
  { apply every_impl with (p := Js.isLowerAlnum).
    - intros c Hc. unfold idChar. now rewrite Hc.
    - apply every_digits36; [lia | reflexivity]. }
  destruct (n <? 0)%Z; [|exact Hds].
  cbn [Js.every]. now rewrite Hds.
Qed.

(** ** Generated ids *)

Lemma generateShapeId_idChars (now : Z) (name_ : string) :
  Js.every idChar (Mapper.generateShapeId now name_) = true.
Proof.
  unfold Mapper.generateShapeId. rewrite !every_app.
  rewrite idChar_toString36, andb_true_r.
  unfold Js.replaceNonAlnum. rewrite every_replaceRuns; [reflexivity|reflexivity|].
  intros c Hc. unfold idChar. now rewrite Hc.
Qed.

(** X1. Every character of a generated id is a lower-case letter, a
    digit or "-", whatever the name and the clock. *)
Theorem generateShapeId_charset (now : Z) (name_ : string) :
  Js.every idChar (Mapper.generateShapeId now name_) = true.
Proof. apply generateShapeId_idChars. Qed.

Lemma split_at_last_dash (s1 s2 t1 t2 : string) :
  Js.every Js.isLowerAlnum t1 = true ->
  Js.every Js.isLowerAlnum t2 = true ->
  s1 +:+ "-" +:+ t1 = s2 +:+ "-" +:+ t2 ->
  s1 = s2 /\ t1 = t2.
Proof.
  intros H1 H2. revert s2.
  assert (Hno : forall a b t, Js.every Js.isLowerAlnum t = true ->
                              t <> a +:+ "-" +:+ b).
  { intros a b t Ht ->. rewrite every_app in Ht.
    apply andb_true_iff in Ht as [_ Ht].
    rewrite every_app in Ht. discriminate. }
  induction s1 as [|c s1 IH]; intros [|d s2] H.
  - change (String "-" t1 = String "-" t2) in H. now injection H.
  - change (String "-" t1 = String d (s2 +:+ "-" +:+ t2)) in H.
    injection H as _ H. now apply Hno in H.
  - change (String c (s1 +:+ "-" +:+ t1) = String "-" t2) in H.
    injection H as _ H. symmetry in H. now apply Hno in H.
  - rewrite !append_cons in H. injection H as -> H.
    destruct (IH s2 H) as [-> ->]. auto.
Qed.

Lemma replaceRuns_separators (f : ascii -> ascii) (sep : string) (inRun : bool)
    (s : string) :
  changesSeparatorsOnly f ->
  Js.replaceRuns sep inRun (Js.toLowerCase (Js.mapChars f s))
  = Js.replaceRuns sep inRun (Js.toLowerCase s).
Proof.
  intros Hf. revert inRun. induction s as [|c t IH]; intros inRun; [reflexivity|].
  cbn [Js.mapChars Js.toLowerCase Js.replaceRuns]. specialize (Hf c).
  destruct (Js.isLowerAlnum (Js.lowerChar c)) eqn:Hc.
  - rewrite Hf, Hc. now rewrite IH.
  - rewrite Hf. destruct inRun; now rewrite IH.
Qed.

(** X2. With clocks that are not negative, two generated ids are equal
    exactly when the names are equal once lower-cased and sanitized and
    the times are equal: captures of one name at two times never collide,
    and at one time two names collide when they are equal once lower-cased,
    or when one is the other with its separators, the characters that are
    neither letters nor digits, replaced by other separators. *)
Theorem generateShapeId_collision (now1 now2 : Z) (name1 name2 : string) :
  0 <= now1 -> 0 <= now2 ->
  (Mapper.generateShapeId now1 name1 = Mapper.generateShapeId now2 name2
   <-> sanitized name1 = sanitized name2 /\ now1 = now2)
  /\ (now1 <> now2 ->
      Mapper.generateShapeId now1 name1 <> Mapper.generateShapeId now2 name1)
  /\ (Js.toLowerCase name1 = Js.toLowerCase name2 ->
      Mapper.generateShapeId now1 name1 = Mapper.generateShapeId now1 name2)
  /\ (forall f, changesSeparatorsOnly f ->
                Mapper.generateShapeId now1 (Js.mapChars f name1)
                = Mapper.generateShapeId now1 name1).
Proof.
  intros H1 H2.
  assert (Hiff : forall name_ name', 
             Mapper.generateShapeId now1 name_ = Mapper.generateShapeId now2 name'
             <-> sanitized name_ = sanitized name' /\ now1 = now2).
  { intros name_ name'. unfold Mapper.generateShapeId, sanitized. split.
    - intros H. apply (inj (String.app "captured-")) in H.
      apply split_at_last_dash in H as [Hs Ht]; try now apply every_toString36.
      split; [exact Hs|].
      rewrite <- (parse36_toString36 now1), <- (parse36_toString36 now2) by assumption.
      now rewrite Ht.
    - intros [-> ->]. reflexivity. }
  split; [apply Hiff|]. split; [|split].
  - intros Hne H. apply Hiff in H as [_ H]. contradiction.
  - intros Hlow. unfold Mapper.generateShapeId. now rewrite Hlow.
  - intros f Hf. unfold Mapper.generateShapeId, Js.replaceNonAlnum.
    now rewrite replaceRuns_separators.
Qed.

Lemma replaceRuns_no_double_dash (inRun : bool) (s : string) :
  Js.includes (Js.replaceRuns "-" inRun s) "--" = false
  /\ (inRun = true -> Js.startsWith (Js.replaceRuns "-" inRun s) "-" = false).
Proof.
  revert inRun. induction s as [|c s IH]; intros inRun; [split; reflexivity|].
  cbn [Js.replaceRuns].
  destruct (Js.isLowerAlnum c) eqn:Hc.
  - destruct (IH false) as [Hno _]. split.
    + cbn [Js.includes Js.startsWith]. rewrite Hno.
      destruct (Ascii.eqb_spec "-" c) as [<-|]; [discriminate Hc|reflexivity].
    + intros _. cbn [Js.startsWith].
      destruct (Ascii.eqb_spec "-" c) as [<-|]; [discriminate Hc|reflexivity].
  - destruct (IH true) as [Hno Hstart]. destruct inRun.
    + split; [exact Hno | intros _; now apply Hstart].
    + split; [|discriminate].
      change ("-" +:+ Js.replaceRuns "-" true s)
        with (String "-" (Js.replaceRuns "-" true s)).
      cbn [Js.includes]. rewrite Hno, orb_false_r.
      specialize (Hstart eq_refl).
      destruct (Js.replaceRuns "-" true s) as [|d r]; [reflexivity|].
      cbn [Js.startsWith] in *. now rewrite Hstart.
Qed.

(** X3. A sanitized name never has two separators in a row: a run of
    characters outside [[a-z0-9]], however long, leaves one "-". *)
Theorem sanitized_no_double_dash (name_ : string) :
  Js.includes (sanitized name_) "--" = false.
Proof. apply replaceRuns_no_double_dash. Qed.

(** ** Tags *)

Lemma existsb_eqb_elem_of (x : string) (seen : list string) :
  existsb (String.eqb x) seen = true <-> x ∈ seen.
Proof.
  rewrite List.existsb_exists, list_elem_of_In. split.
  - intros (y & Hy & Heq). apply String.eqb_eq in Heq. now subst.
  - intros Hx. exists x. split; [assumption | apply String.eqb_refl].
Qed.

Lemma dedupe_elem_of (seen xs : list string) (x : string) :
  x ∈ Js.dedupe seen xs <-> x ∈ xs /\ x ∉ seen.
Proof.
  revert seen. induction xs as [|y t IH]; intros seen; cbn [Js.dedupe].
  - rewrite elem_of_nil. tauto.
  - destruct (existsb (String.eqb y) seen) eqn:Hy.
    + apply existsb_eqb_elem_of in Hy. rewrite IH, elem_of_cons.
      split; [tauto|]. intros [[->|Hx] Hn]; [contradiction|tauto].
    + assert (Hy' : y ∉ seen).
      { intros H. apply existsb_eqb_elem_of in H. congruence. }
      rewrite !elem_of_cons, IH, elem_of_cons.
      destruct (decide (x = y)) as [->|Hne]; tauto.
Qed.

Lemma dedupe_NoDup (seen xs : list string) : NoDup (Js.dedupe seen xs).
Proof.
  revert seen. induction xs as [|y t IH]; intros seen; cbn [Js.dedupe]; [constructor|].
  destruct (existsb (String.eqb y) seen); [apply IH|].
  apply NoDup_cons. split; [|apply IH].
  rewrite dedupe_elem_of, elem_of_cons. tauto.
Qed.

(** X4. The tags of a record have no duplicates, begin with "captured",
    include the category, and include every token of the lower-cased name
    that is longer than two characters. *)
Theorem generateTags_spec (name_ : string) (shapeType : ShapeType)
    (category_ : ShapeCategory) :
  let tags_ := Mapper.generateTags name_ shapeType category_ in
  NoDup tags_
  /\ head tags_ = Some "captured"
  /\ category_ ∈ tags_
  /\ forall token,
       token ∈ Js.splitSpace (Js.replaceNonAlnum " " (Js.toLowerCase name_)) ->
       (2 < String.length token)%nat ->
       token ∈ tags_.
Proof.
  unfold Mapper.generateTags. split; [apply dedupe_NoDup|].
  split; [reflexivity|].
  split.
  - apply dedupe_elem_of. split; [|apply not_elem_of_nil].
    apply elem_of_cons. right. apply elem_of_cons. now left.
  - intros token Htoken Hlong.
    apply dedupe_elem_of. split; [|apply not_elem_of_nil].
    rewrite !elem_of_app. right. right.
    apply list_elem_of_In, List.filter_In. split; [now apply list_elem_of_In|].
    now apply Nat.ltb_lt.
Qed.

(** ** Native-only shapes and the tables *)

(** X5. A shape flagged as a group or a picture is normalized without
    looking at its type code or enum name: the record is native-only, of
    category "basic" with preview "basic/placeholder.png", with the
    geometry kind "rectangle" and no corner radius. *)
Theorem normalise_native_only_shape (now : Z) (extracted : Extractor.ExtractedShape)
    (customName : option string) :
  Extractor.isGroup extracted = Some true \/ Extractor.isPicture extracted = Some true ->
  let r := Mapper.mapToShapeInfo now extracted customName in
  nativeOnly r = Some true
  /\ category r = "basic"
  /\ preview r = "basic/placeholder.png"
  /\ type (pptxDefinition r) = "rectangle"
  /\ rectRadius (pptxDefinition r) = None.
Proof.
  intros Hflag r.
  assert (Hnative : Mapper.isNativeOnly extracted = true).
  { unfold Mapper.isNativeOnly. destruct Hflag as [-> | ->]; cbn; [reflexivity|].
    apply orb_true_r. }
  subst r. unfold Mapper.mapToShapeInfo. rewrite Hnative. repeat split.
Qed.

Lemma autoMap_tablesAgree (code : Z) (name_ : string) :
  Extractor.autoMap !! code = Some name_ -> tablesAgree (code, name_) = true.
Proof.
  intros H. apply elem_of_map_to_list in H.
  assert (Hall : forallb tablesAgree (map_to_list Extractor.autoMap) = true)
    by (vm_compute; reflexivity).
  rewrite List.forallb_forall in Hall. apply Hall. now apply list_elem_of_In.
Qed.

(** X6. For a shape as the Windows bridge reports it, with the enum name
    its [$autoMap] gives for the type code, [chooseType] gives the kind the
    numeric table has for the code whenever the numeric table has the code:
    the enum name never overrides the code with another kind. *)
Theorem chooseType_bridge_name (extracted : Extractor.ExtractedShape) (kind : ShapeType) :
  Extractor.autoShapeName extracted = Extractor.autoMap !! Extractor.type extracted ->
  Mapper.AUTOSHAPE_TYPE_MAP !! Extractor.type extracted = Some kind ->
  Mapper.chooseType extracted = kind.
Proof.
  intros Hname Hcode. unfold Mapper.chooseType. rewrite Hname, Hcode.
  destruct (Extractor.autoMap !! Extractor.type extracted) as [n|] eqn:Hn; [|reflexivity].
  destruct (String.eqb n ""); [reflexivity|].
  apply autoMap_tablesAgree in Hn. unfold tablesAgree in Hn. cbn [fst snd] in Hn.
  rewrite Hcode in Hn.
  destruct (Mapper.AUTOSHAPE_NAME_MAP !! n) as [byName|]; [|reflexivity].
  now apply String.eqb_eq in Hn.
Qed.

Lemma title_not_Unknown (code : Z) (kind : ShapeType) :
  Mapper.AUTOSHAPE_TYPE_MAP !! code = Some kind ->
  Js.startsWith (Mapper.getShapeTypeName code) "Unknown" = false.
Proof.
  intros H.
  assert (Hall : forallb (fun entry : Z * string =>
                            negb (Js.startsWith (Mapper.getShapeTypeName entry.1) "Unknown"))
                   (map_to_list Mapper.AUTOSHAPE_TYPE_MAP) = true)
    by (vm_compute; reflexivity).
  rewrite List.forallb_forall in Hall.
  apply elem_of_map_to_list, list_elem_of_In, Hall in H. now apply negb_true_iff in H.
Qed.

(** X7. The three queries on the numeric table agree: a code is listed
    by [getSupportedShapeTypes] exactly when [isSupportedShapeType] accepts
    it, and exactly then [getShapeTypeName] gives a title rather than
    "Unknown (<code>)"; the list is in strictly ascending order. *)
Theorem supported_types_agree (code : Z) :
  (code ∈ Mapper.getSupportedShapeTypes <-> Mapper.isSupportedShapeType code = true)
  /\ (Mapper.isSupportedShapeType code = true
      <-> Mapper.getShapeTypeName code <> "Unknown (" +:+ Js.toString10 code +:+ ")")
  /\ Sorted Z.lt Mapper.getSupportedShapeTypes.
Proof.
  split; [|split].
  - unfold Mapper.getSupportedShapeTypes, Mapper.isSupportedShapeType.
    rewrite merge_sort_Permutation, bool_decide_eq_true, list_elem_of_fmap.
    split.
    + intros ([k v] & -> & Hkv). apply elem_of_map_to_list in Hkv. now exists v.
    + intros [v Hv]. exists (code, v). split; [reflexivity|].
      now apply elem_of_map_to_list.
  - unfold Mapper.isSupportedShapeType. rewrite bool_decide_eq_true. split.
    + intros [kind Hkind] Heq. apply title_not_Unknown in Hkind.
      rewrite Heq in Hkind. discriminate.
    + intros Hne. unfold Mapper.getShapeTypeName in Hne.
      destruct (Mapper.AUTOSHAPE_TYPE_MAP !! code) as [kind|]; [now exists kind|].
      contradiction.
  - vm_compute. repeat constructor.
Qed.

(** ** What the bridge's data become *)

Lemma or_number_not_zero (v : option Js.number) (d : Js.number) :
  Js.isZero d = false -> Js.isZero (Extractor.or_number v d) = false.
Proof.
  intros Hd. unfold Extractor.or_number.
  destruct v as [n|]; [|assumption].
  destruct (Js.isZero n) eqn:Hn; assumption.
Qed.

(** X8. Whatever the bridge printed, the captured shape has a name that
    is not empty, a type code that is not 0, a position and a size without
    a zero coordinate, a line weight, and both flags set to a boolean; and
    the record normalized from it has a name that is not empty and a width
    and a height that are not 0. *)
Theorem toExtractedShape_defaults (now : Z) (data : Extractor.BridgeData)
    (customName : option string) :
  let e := Extractor.toExtractedShape data in
  let r := Mapper.mapToShapeInfo now e customName in
  Extractor.name e <> ""
  /\ Extractor.type e <> 0
  /\ Js.isZero (Extractor.x (Extractor.position e)) = false
  /\ Js.isZero (Extractor.y (Extractor.position e)) = false
  /\ Js.isZero (Extractor.width (Extractor.size e)) = false
  /\ Js.isZero (Extractor.height (Extractor.size e)) = false
  /\ is_Some (Extractor.line_weight (Extractor.line e))
  /\ is_Some (Extractor.isGroup e) /\ is_Some (Extractor.isPicture e)
  /\ name r <> ""
  /\ Js.isZero (w (pptxDefinition r)) = false
  /\ Js.isZero (h (pptxDefinition r)) = false.
Proof.
  intros e r.
  assert (Hname : Extractor.name e <> "").
  { subst e. cbn. unfold Js.or_string.
    destruct (Extractor.d_name data) as [n|]; [|discriminate].
    destruct (String.eqb_spec n ""); [discriminate|assumption]. }
  split; [exact Hname|].
  split.
  { subst e. cbn. unfold Extractor.or_int.
    destruct (Extractor.d_type data) as [n|]; [|discriminate].
    destruct (Z.eqb_spec n 0); [discriminate|assumption]. }
  do 4 (split; [now apply or_number_not_zero|]).
  split; [now eexists|]. split; [now eexists|]. split; [now eexists|].
  split.
  - subst r. cbn. unfold Js.or_string.
    destruct customName as [n|]; [|assumption].
    destruct (String.eqb_spec n ""); assumption.
  - split; now apply or_number_not_zero.
Qed.

(** ** More on the shape cache *)

(** X9. Putting an entry for one category changes the entry of no other
    category, so the answer for another category is what it was; and a get
    for one category leaves the entries of the other categories alone. *)
Theorem cache_categories_independent (fs0 fs : gmap string Z)
    (cache : gmap string Cache.ShapeCacheEntry) (category other filePath0 filePath : string)
    (shapes : list ShapeInfo) :
  category <> other ->
  Cache.setCachedShapes fs0 cache category filePath0 shapes !! other = cache !! other
  /\ (Cache.getCachedShapes fs
        (Cache.setCachedShapes fs0 cache category filePath0 shapes) other filePath).1
     = (Cache.getCachedShapes fs cache other filePath).1
  /\ (Cache.getCachedShapes fs cache category filePath).2 !! other = cache !! other.
Proof.
  intros Hne.
  assert (Hput : Cache.setCachedShapes fs0 cache category filePath0 shapes !! other
                 = cache !! other).
  { unfold Cache.setCachedShapes. destruct (Cache.statSync fs0 filePath0); [|reflexivity].
    now apply lookup_insert_ne. }
  split; [exact Hput|]. split.
  - unfold Cache.getCachedShapes. rewrite Hput.
    destruct (cache !! other) as [entry|]; [|reflexivity].
    destruct (Cache.statSync fs filePath) as [t|e]; [|reflexivity].
    destruct (Cache.lastModified entry =? t)%Z; reflexivity.
  - unfold Cache.getCachedShapes.
    destruct (cache !! category) as [entry|]; [|reflexivity].
    destruct (Cache.statSync fs filePath) as [t|e]; cbn.
    + destruct (Cache.lastModified entry =? t)%Z; cbn; [reflexivity|].
      now apply lookup_delete_ne.
    + now apply lookup_delete_ne.
Qed.

(** X10. A get settles the cache: asking again at once gives the same
    answer and changes nothing more; and a get never adds an entry. *)
Theorem getCachedShapes_settles (fs : gmap string Z)
    (cache : gmap string Cache.ShapeCacheEntry) (category filePath : string) :
  let answer := Cache.getCachedShapes fs cache category filePath in
  Cache.getCachedShapes fs answer.2 category filePath = answer
  /\ dom answer.2 ⊆ dom cache.
Proof.
  cbv zeta.
  assert (Hmiss : Cache.getCachedShapes fs (delete category cache) category filePath
                  = (None, delete category cache)).
  { unfold Cache.getCachedShapes. now rewrite lookup_delete_eq. }
  assert (Hdom : dom (delete category cache) ⊆ dom cache)
    by (rewrite dom_delete_L; now apply subseteq_difference_l).
  destruct (Cache.getCachedShapes fs cache category filePath) as [answer cache'] eqn:Hget.
  unfold Cache.getCachedShapes in Hget.
  destruct (cache !! category) as [entry|] eqn:Hentry.
  - destruct (Cache.statSync fs filePath) as [t|e] eqn:Hstat.
    + destruct (Cache.lastModified entry =? t)%Z eqn:Hsame;
        injection Hget as <- <-; cbn [snd].
      * split; [|reflexivity].
        unfold Cache.getCachedShapes. now rewrite Hentry, Hstat, Hsame.
      * split; assumption.
    + injection Hget as <- <-. split; assumption.
  - injection Hget as <- <-. cbn [snd]. split; [|reflexivity].
    unfold Cache.getCachedShapes. now rewrite Hentry.
Qed.

(** After [clearCategoryCache] a get for the category is a miss, whatever
    the disk, and leaves the cache as it is; after [clearCache] a get for
    any category is a miss. *)
Lemma cleared_cache_misses (fs : gmap string Z)
    (cache : gmap string Cache.ShapeCacheEntry) (category filePath : string) :
  Cache.getCachedShapes fs (Cache.clearCategoryCache cache category) category filePath
  = (None, Cache.clearCategoryCache cache category)
  /\ Cache.getCachedShapes fs (Cache.clearCache cache) category filePath
     = (None, Cache.clearCache cache)
  /\ forall other, other <> category ->
       Cache.clearCategoryCache cache category !! other = cache !! other.
Proof.
  unfold Cache.getCachedShapes, Cache.clearCategoryCache, Cache.clearCache.
  rewrite lookup_delete_eq, lookup_empty. repeat split.
  intros other Hne. now apply lookup_delete_ne.
Qed.

(** ** More on the category stores *)

Section MoreStores.

Variable shapesDir : string.
Variable localeCompare : string -> string -> Z.

Abbreviation path := (getCategoryFilePath shapesDir).
Abbreviation byName := (fun a b : ShapeInfo => localeCompare (name a) (name b)).
Abbreviation written := (Spec.written shapesDir).
Abbreviation stored := (Spec.stored shapesDir).
Abbreviation hasId id_ := (fun s : ShapeInfo => String.eqb (id s) id_).
Abbreviation hasNotId id_ := (fun s : ShapeInfo => negb (String.eqb (id s) id_)).

Lemma saveCategoryShapes_fault (fs : FS) (category_ : ShapeCategory)
    (shapes : list ShapeInfo) (m : string) :
  faults fs !! path category_ = Some m ->
  saveCategoryShapes shapesDir localeCompare category_ shapes fs
  = (Throw (Error ("Failed to save shapes to " +:+ category_ +:+ ".json at "
                   +:+ path category_ +:+ ": " +:+ m)), fs).
Proof.
  intros Hw. unfold saveCategoryShapes, try_catch, writeFileSync. now rewrite Hw.
Qed.

Lemma filter_split_length {A : Type} (p : A -> bool) (xs : list A) :
  (length (List.filter p xs) + length (List.filter (fun x => negb (p x)) xs)
   = length xs)%nat.
Proof.
  induction xs as [|x t IH]; [reflexivity|].
  cbn. destruct (p x); cbn; lia.
Qed.

Lemma removeShapeFromLibrary_unfold (fs : FS) (id_ : string) (category_ : ShapeCategory) :
  withId id_ (stored fs category_) <> [] ->
  removeShapeFromLibrary shapesDir localeCompare id_ category_ fs
  = saveCategoryShapes shapesDir localeCompare category_
      (List.filter (hasNotId id_) (stored fs category_)) fs.
Proof.
  intros Hsome. unfold removeShapeFromLibrary, bind.
  rewrite loadCategoryShapes_spec.
  pose proof (filter_split_length (hasId id_) (stored fs category_)) as Hlen.
  destruct (Nat.eqb_spec (length (List.filter (hasNotId id_) (stored fs category_)))
              (length (stored fs category_))) as [Heq|Hne]; [|reflexivity].
  exfalso. apply Hsome. unfold withId.
  destruct (List.filter (hasId id_) _); [reflexivity|]. cbn in Hlen. lia.
Qed.

Lemma updateShapeInLibrary_unfold (fs : FS) (id_ : string) (category_ : ShapeCategory)
    (updates : PartialShapeInfo) :
  withId id_ (stored fs category_) <> [] ->
  exists shapes,
    updateShapeInLibrary shapesDir localeCompare id_ category_ updates fs
    = saveCategoryShapes shapesDir localeCompare category_ shapes fs.
Proof.
  intros Hsome. unfold withId in Hsome.
  destruct (List.filter (hasId id_) (stored fs category_)) as [|old rest] eqn:Hf;
    [contradiction|].
  destruct (findIndex_Some _ _ _ _ Hf) as (i & Hi & Hlook & _).
  unfold updateShapeInLibrary, bind. rewrite loadCategoryShapes_spec, Hi. eauto.
Qed.

(** X11. When the category's file cannot be written, an add, and an
    update or a remove of an id the store has, throw "Failed to save shapes
    to <category>.json at <path>: <message of the system error>", and the
    disk is as it was. *)
Theorem write_failure_reported (fs : FS) (category_ : ShapeCategory) (m : string) :
  faults fs !! path category_ = Some m ->
  let failure :=
    Error ("Failed to save shapes to " +:+ category_ +:+ ".json at "
           +:+ path category_ +:+ ": " +:+ m) in
  (forall shape, category shape = category_ ->
                 addShapeToLibrary shapesDir localeCompare shape fs = (Throw failure, fs))
  /\ (forall id_ updates,
        withId id_ (stored fs category_) <> [] ->
        updateShapeInLibrary shapesDir localeCompare id_ category_ updates fs
        = (Throw failure, fs)
        /\ removeShapeFromLibrary shapesDir localeCompare id_ category_ fs
           = (Throw failure, fs)).
Proof.
  intros Hw failure. split.
  - intros shape <-. unfold addShapeToLibrary, bind.
    rewrite loadCategoryShapes_spec, (saveCategoryShapes_fault _ _ _ m) by assumption.
    reflexivity.
  - intros id_ updates Hsome. split.
    + destruct (updateShapeInLibrary_unfold fs id_ category_ updates Hsome) as [shapes ->].
      now apply saveCategoryShapes_fault.
    + rewrite removeShapeFromLibrary_unfold by assumption.
      now apply saveCategoryShapes_fault.
Qed.

(** X12. Adding to a category whose file cannot be read, or is not
    JSON, overwrites the file: afterwards the store holds the added record
    and nothing else. *)
Theorem add_overwrites_broken_store (fs : FS) (shape : ShapeInfo) (m : string) :
  files fs !! path (category shape) = Some (Unreadable m)
  \/ files fs !! path (category shape) = Some (Readable (Garbage m)) ->
  faults fs !! path (category shape) = None ->
  addShapeToLibrary shapesDir localeCompare shape fs
  = (OK (path (category shape)), written fs (category shape) [shape]).
Proof.
  intros Hbroken Hw. rewrite addShapeToLibrary_ok by assumption.
  assert (Hnone : stored fs (category shape) = []).
  { unfold Spec.stored, persisted. destruct Hbroken as [-> | ->]; reflexivity. }
  now rewrite Hnone.
Qed.

Lemma removeShapeFromLibrary_inv_filter (fs fs' : FS) (id_ : string)
    (category_ : ShapeCategory) :
  removeShapeFromLibrary shapesDir localeCompare id_ category_ fs = (OK tt, fs') ->
  fs' = written fs category_
          (sort byName (List.filter (hasNotId id_) (stored fs category_))).
Proof.
  unfold removeShapeFromLibrary, bind. rewrite loadCategoryShapes_spec.
  destruct (_ =? _)%nat; [discriminate|].
  destruct (saveCategoryShapes _ _ _ _ _) as [res fs1] eqn:Hsave.
  apply saveCategoryShapes_inv in Hsave as [[-> ->] | [[e ->] ->]]; [|discriminate].
  now intros [= <-].
Qed.

Lemma shapeExists_spec (fs : FS) (id_ : string) (category_ : ShapeCategory) :
  shapeExists shapesDir id_ category_ fs
  = (OK (existsb (hasId id_) (stored fs category_)), fs).
Proof. unfold shapeExists, bind. now rewrite loadCategoryShapes_spec. Qed.

(** X13. After an add that returned, [shapeExists] finds the record's id
    in its category; after a remove that returned, it does not find the
    removed id. *)
Theorem shapeExists_after_add_and_remove (fs fs' : FS) :
  (forall shape p,
      addShapeToLibrary shapesDir localeCompare shape fs = (OK p, fs') ->
      shapeExists shapesDir (id shape) (category shape) fs' = (OK true, fs'))
  /\ (forall id_ category_,
        removeShapeFromLibrary shapesDir localeCompare id_ category_ fs = (OK tt, fs') ->
        shapeExists shapesDir id_ category_ fs' = (OK false, fs')).
Proof.
  split.
  - intros shape p Hadd. apply addShapeToLibrary_inv in Hadd as ->.
    rewrite shapeExists_spec, stored_written. do 2 f_equal.
    apply List.existsb_exists. exists shape. split; [|apply String.eqb_refl].
    eapply Permutation_in; [symmetry; apply sort_Permutation|]. apply In_upsert.
  - intros id_ category_ Hrem. apply removeShapeFromLibrary_inv_filter in Hrem as ->.
    rewrite shapeExists_spec, stored_written. do 2 f_equal.
    apply not_true_is_false. intros H.
    apply List.existsb_exists in H as (s & Hs & Hid).
    eapply Permutation_in in Hs; [|apply sort_Permutation].
    apply List.filter_In in Hs as [_ Hs]. rewrite Hid in Hs. discriminate.
Qed.

Lemma withId_without_id (id_ : string) (shapes : list ShapeInfo) :
  withId id_ (List.filter (hasNotId id_) shapes) = [].
Proof.
  unfold withId. induction shapes as [|a t IH]; [reflexivity|].
  cbn. destruct (String.eqb (id a) id_) eqn:Ha; cbn; [exact IH|].
  now rewrite Ha.
Qed.

Lemma withId_without_other (id_ other : string) (shapes : list ShapeInfo) :
  other <> id_ ->
  withId other (List.filter (hasNotId id_) shapes) = withId other shapes.
Proof.
  intros Hne. unfold withId. induction shapes as [|a t IH]; [reflexivity|].
  cbn. destruct (String.eqb_spec (id a) id_) as [Ha|Ha]; cbn.
  - destruct (String.eqb_spec (id a) other); [congruence|exact IH].
  - destruct (String.eqb (id a) other); [now f_equal|exact IH].
Qed.

(** X14. Removing an id the store has, when the file can be written,
    succeeds and removes every record with that id and no other: the
    records with any other id are those the store had, and the store is
    shorter by the number of records that had the id. *)
Theorem remove_removes_only_the_id (fs : FS) (id_ : string) (category_ : ShapeCategory) :
  withId id_ (stored fs category_) <> [] ->
  faults fs !! path category_ = None ->
  exists fs',
    removeShapeFromLibrary shapesDir localeCompare id_ category_ fs = (OK tt, fs')
    /\ withId id_ (stored fs' category_) = []
    /\ (forall other, other <> id_ ->
          withId other (stored fs' category_) ≡ₚ withId other (stored fs category_))
    /\ (length (stored fs' category_) + length (withId id_ (stored fs category_))
        = length (stored fs category_))%nat.
Proof.
  intros Hsome Hw. eexists. split.
  - rewrite removeShapeFromLibrary_unfold by assumption.
    now apply saveCategoryShapes_ok.
  - rewrite stored_written. split; [|split].
    + apply Permutation_nil_r.
      pose proof (withId_without_id id_ (stored fs category_)) as Hnone.
      unfold withId in *. now rewrite filter_sort, Hnone.
    + intros other Hne.
      pose proof (withId_without_other id_ other (stored fs category_) Hne) as Hsame.
      unfold withId in *. now rewrite filter_sort, Hsame.
    + pose proof (filter_split_length (hasId id_) (stored fs category_)) as Hlen.
      cbn beta in Hlen. unfold withId.
      rewrite (Permutation_length (sort_Permutation byName _)). lia.
Qed.

Lemma getCategoryFilePath_injective (c c' : ShapeCategory) :
  plainName c = true -> plainName c' = true -> path c = path c' -> c = c'.
Proof. apply getCategoryFilePath_inj. Qed.

Lemma written_other_file (fs : FS) (category_ other : ShapeCategory)
    (shapes : list ShapeInfo) :
  plainName category_ = true -> plainName other = true ->
  other <> category_ ->
  files (written fs category_ shapes) !! path other = files fs !! path other.
Proof.
  intros Hplain Hplain' Hne. unfold Spec.written. cbn. apply lookup_insert_ne.
  intros H. apply getCategoryFilePath_injective in H; [congruence|assumption|assumption].
Qed.

Lemma saveCategoryShapes_touches (fs fs' : FS) (category_ : ShapeCategory)
    (shapes : list ShapeInfo) (res : result unit) :
  saveCategoryShapes shapesDir localeCompare category_ shapes fs = (res, fs') ->
  fs' = fs \/ exists shapes', fs' = written fs category_ shapes'.
Proof.
  intros H. apply saveCategoryShapes_inv in H as [[_ ->]|[_ ->]]; eauto.
Qed.

(** X15. An add, an update or a remove in one category, whether it
    returns or throws, leaves the file of every other category as it
    is, and never changes which files can be written; the two categories
    are plain names, without "/". *)
Theorem other_categories_untouched (fs fs' : FS) (category_ other : ShapeCategory) :
  plainName category_ = true -> plainName other = true ->
  other <> category_ ->
  (forall shape res,
      category shape = category_ ->
      addShapeToLibrary shapesDir localeCompare shape fs = (res, fs') ->
      files fs' !! path other = files fs !! path other /\ faults fs' = faults fs)
  /\ (forall id_ updates res,
        updateShapeInLibrary shapesDir localeCompare id_ category_ updates fs = (res, fs') ->
        files fs' !! path other = files fs !! path other /\ faults fs' = faults fs)
  /\ (forall id_ res,
        removeShapeFromLibrary shapesDir localeCompare id_ category_ fs = (res, fs') ->
        files fs' !! path other = files fs !! path other /\ faults fs' = faults fs).
Proof.
  intros Hplain Hplain' Hne.
  assert (Hframe : forall fs1, (fs1 = fs \/ exists shapes', fs1 = written fs category_ shapes') ->
                     files fs1 !! path other = files fs !! path other
                     /\ faults fs1 = faults fs).
  { intros fs1 [->|[shapes' ->]]; [auto|].
    split; [now apply written_other_file | reflexivity]. }
  split; [|split].
  - intros shape res <- Hadd. apply Hframe.
    unfold addShapeToLibrary, bind in Hadd. rewrite loadCategoryShapes_spec in Hadd.
    destruct (saveCategoryShapes _ _ _ _ _) as [[[]|e] fs1] eqn:Hsave;
      injection Hadd as _ <-; eapply saveCategoryShapes_touches; eassumption.
  - intros id_ updates res Hupd. apply Hframe.
    unfold updateShapeInLibrary, bind in Hupd. rewrite loadCategoryShapes_spec in Hupd.
    destruct (findIndex _ _); [|injection Hupd as _ <-; now left].
    eapply saveCategoryShapes_touches; eassumption.
  - intros id_ res Hrem. apply Hframe.
    unfold removeShapeFromLibrary, bind in Hrem. rewrite loadCategoryShapes_spec in Hrem.
    destruct (_ =? _)%nat; [injection Hrem as _ <-; now left|].
    eapply saveCategoryShapes_touches; eassumption.
Qed.

Lemma upsert_cons (shape a : ShapeInfo) (t : list ShapeInfo) :
  upsert shape (a :: t)
  = if String.eqb (id a) (id shape) then shape :: t else a :: upsert shape t.
Proof.
  unfold upsert. cbn [findIndex].
  destruct (String.eqb (id a) (id shape)); [reflexivity|].
  destruct (findIndex _ t); reflexivity.
Qed.

Lemma withId_other_upsert (shape : ShapeInfo) (other : string) (shapes : list ShapeInfo) :
  other <> id shape -> withId other (upsert shape shapes) = withId other shapes.
Proof.
  intros Hne. unfold withId. induction shapes as [|a t IH].
  - cbn. destruct (String.eqb_spec (id shape) other); [congruence|reflexivity].
  - rewrite upsert_cons. destruct (String.eqb_spec (id a) (id shape)) as [Ha|Ha]; cbn.
    + destruct (String.eqb_spec (id shape) other); [congruence|].
      destruct (String.eqb_spec (id a) other); [congruence|reflexivity].
    + destruct (String.eqb (id a) other); [now f_equal|exact IH].
Qed.

Lemma length_upsert (shape : ShapeInfo) (shapes : list ShapeInfo) :
  length (upsert shape shapes)
  = if existsb (hasId (id shape)) shapes then length shapes else S (length shapes).
Proof.
  induction shapes as [|a t IH]; [reflexivity|].
  rewrite upsert_cons. cbn [existsb].
  destruct (String.eqb (id a) (id shape)); [reflexivity|].
  cbn [orb length]. rewrite IH. now destruct (existsb _ t).
Qed.

(** X16. An add that returned has changed the records of one id only:
    the records with any other id are those the store had, and the store
    has one record more when [shapeExists] was false for the id, as many as
    before when it was true. *)
Theorem add_changes_one_id (fs fs' : FS) (shape : ShapeInfo) (p : string) :
  addShapeToLibrary shapesDir localeCompare shape fs = (OK p, fs') ->
  (forall other, other <> id shape ->
     withId other (stored fs' (category shape)) ≡ₚ withId other (stored fs (category shape)))
  /\ length (stored fs' (category shape))
     = if existsb (hasId (id shape)) (stored fs (category shape))
       then length (stored fs (category shape))
       else S (length (stored fs (category shape))).
Proof.
  intros Hadd. apply addShapeToLibrary_inv in Hadd as ->.
  rewrite stored_written. split.
  - intros other Hne. unfold withId at 1. rewrite filter_sort.
    pose proof (withId_other_upsert shape other (stored fs (category shape)) Hne) as Hsame.
    unfold withId in *. now rewrite Hsame.
  - rewrite (Permutation_length (sort_Permutation byName _)). apply length_upsert.
Qed.

Lemma sort_of_sorted {A : Type} (cmp : A -> A -> Z) (xs : list A) :
  Sorted (fun a b => cmp a b <= 0) xs -> sort cmp xs = xs.
Proof.
  induction xs as [|a t IH]; [reflexivity|].
  intros Hs. apply Sorted_inv in Hs as [Ht Ha].
  cbn [sort]. rewrite IH by assumption.
  destruct t as [|b t']; [reflexivity|].
  apply HdRel_inv in Ha. cbn [insertSorted].
  destruct (Z.leb_spec (cmp a b) 0); [reflexivity|lia].
Qed.

Lemma written_same (fs : FS) (category_ : ShapeCategory) (shapes : list ShapeInfo) :
  persisted shapesDir fs category_ = Some shapes -> written fs category_ shapes = fs.
Proof.
  unfold persisted, Spec.written. intros H. destruct fs as [fls flt]. cbn in *. f_equal.
  apply insert_id.
  destruct (fls !! path category_) as [[m|[m|l]]|]; try discriminate.
  now injection H as ->.
Qed.

Lemma merge_noUpdates (old : ShapeInfo) :
  merge old noUpdates (id old) (category old) = old.
Proof. now destruct old. Qed.

(** X17. Updating a record with the partial that has no key, in a store
    that is in order and where the record is filed under its own category,
    leaves the disk exactly as it is. *)
Theorem update_without_keys_is_noop (fs : FS) (id_ : string) (category_ : ShapeCategory)
    (shapes : list ShapeInfo) (old : ShapeInfo) (rest : list ShapeInfo) :
  persisted shapesDir fs category_ = Some shapes ->
  sortedBy localeCompare shapes ->
  withId id_ shapes = old :: rest ->
  category old = category_ ->
  faults fs !! path category_ = None ->
  updateShapeInLibrary shapesDir localeCompare id_ category_ noUpdates fs = (OK tt, fs).
Proof.
  intros Hfile Hsorted Hold Hcat Hw.
  assert (Hstored : stored fs category_ = shapes) by (unfold Spec.stored; now rewrite Hfile).
  unfold withId in Hold.
  destruct (findIndex_Some _ _ _ _ Hold) as (i & Hi & Hlook & _).
  assert (Hid : id old = id_).
  { assert (Hin : In old (List.filter (hasId id_) shapes)) by (rewrite Hold; now left).
    apply List.filter_In in Hin as [_ Hin]. now apply String.eqb_eq in Hin. }
  unfold updateShapeInLibrary, bind.
  rewrite loadCategoryShapes_spec, Hstored, Hi, Hlook.
  rewrite saveCategoryShapes_ok by assumption.
  rewrite <- Hid, <- Hcat, merge_noUpdates, list_insert_id by assumption.
  rewrite sort_of_sorted by (apply StronglySorted_Sorted, Hsorted).
  rewrite Hcat. now rewrite written_same.
Qed.

(** X18. Adding is idempotent: under a comparator for which, of two
    names, one is not greater than the other, and in a store that holds the
    id at most once, adding again the record that an add has just stored
    returns the same path and leaves the disk exactly as the first add
    left it. *)
Theorem add_is_idempotent (fs fs1 : FS) (shape : ShapeInfo) (p : string) :
  (forall a b, 0 < localeCompare a b -> localeCompare b a <= 0) ->
  (length (withId (id shape) (stored fs (category shape))) <= 1)%nat ->
  addShapeToLibrary shapesDir localeCompare shape fs = (OK p, fs1) ->
  addShapeToLibrary shapesDir localeCompare shape fs1 = (OK p, fs1).
Proof.
  intros Htotal Hone Hadd.
  assert (Hw : faults fs !! path (category shape) = None).
  { destruct (faults fs !! path (category shape)) as [m|] eqn:Hm; [|reflexivity].
    unfold addShapeToLibrary, bind in Hadd.
    rewrite loadCategoryShapes_spec, (saveCategoryShapes_fault _ _ _ m) in Hadd
      by assumption.
    discriminate. }
  rewrite addShapeToLibrary_ok in Hadd by assumption. injection Hadd as <- <-.
  set (shapes1 := sort byName (upsert shape (stored fs (category shape)))).
  assert (Hone1 : withId (id shape) shapes1 = [shape])
    by now apply filter_sort_singleton, withId_upsert.
  rewrite addShapeToLibrary_ok by exact Hw.
  rewrite stored_written. f_equal.
  assert (Hup : upsert shape shapes1 = shapes1).
  { unfold withId in Hone1.
    destruct (findIndex_Some _ _ _ _ Hone1) as (i & Hi & Hlook & _).
    unfold upsert. rewrite Hi. now apply list_insert_id. }
  rewrite Hup.
  rewrite sort_of_sorted by (apply (sort_Sorted byName); intros a b; apply Htotal).
  unfold Spec.written. cbn. f_equal. apply insert_insert_eq.
Qed.

Lemma getTotalShapeCount_spec (fs : FS) :
  getTotalShapeCount shapesDir fs
  = (OK (length (stored fs "basic") + length (stored fs "arrows")
         + length (stored fs "flowchart") + length (stored fs "callouts"))%nat, fs).
Proof.
  unfold getTotalShapeCount, bind, ret. rewrite getShapeCounts_spec. reflexivity.
Qed.

Lemma stored_written_other (fs : FS) (category_ other : ShapeCategory)
    (shapes : list ShapeInfo) :
  plainName category_ = true -> plainName other = true ->
  other <> category_ -> stored (written fs category_ shapes) other = stored fs other.
Proof.
  intros Hplain Hplain' Hne. unfold Spec.stored, persisted.
  now rewrite written_other_file.
Qed.

Lemma length_stored_after_add (fs fs' : FS) (shape : ShapeInfo) (p : string)
    (other : ShapeCategory) :
  plainName (category shape) = true -> plainName other = true ->
  addShapeToLibrary shapesDir localeCompare shape fs = (OK p, fs') ->
  length (stored fs' other)
  = (length (stored fs other)
     + if String.eqb other (category shape)
          && negb (existsb (hasId (id shape)) (stored fs (category shape)))
       then 1 else 0)%nat.
Proof.
  intros Hplain Hplain' Hadd. apply addShapeToLibrary_inv in Hadd as ->.
  destruct (String.eqb_spec other (category shape)) as [->|Hne].
  - rewrite stored_written, (Permutation_length (sort_Permutation byName _)), length_upsert.
    destruct (existsb _ _); cbn; lia.
  - rewrite stored_written_other by assumption. cbn. lia.
Qed.

Lemma total_after_add (fs fs' : FS) (shape : ShapeInfo) (p : string) (n : nat) :
  plainName (category shape) = true ->
  addShapeToLibrary shapesDir localeCompare shape fs = (OK p, fs') ->
  (getTotalShapeCount shapesDir fs).1 = OK n ->
  (getTotalShapeCount shapesDir fs').1
  = OK (if existsb (String.eqb (category shape)) categories
           && negb (existsb (hasId (id shape)) (stored fs (category shape)))
        then S n else n).
Proof.
  intros Hplain Hadd. rewrite !getTotalShapeCount_spec. cbn [fst]. intros [= <-]. f_equal.
  rewrite !(length_stored_after_add fs fs' shape p) by (assumption || reflexivity).
  unfold categories. cbn [existsb].
  rewrite !(String.eqb_sym (category shape)).
  destruct (negb _); [|rewrite !andb_false_r; cbn; lia].
  rewrite !andb_true_r.
  destruct (String.eqb_spec "basic" (category shape)) as [H1|H1];
    destruct (String.eqb_spec "arrows" (category shape)) as [H2|H2];
    destruct (String.eqb_spec "flowchart" (category shape)) as [H3|H3];
    destruct (String.eqb_spec "callouts" (category shape)) as [H4|H4];
    try congruence; cbn; lia.
Qed.

(** X19. After an add that returned, of a record whose category is a
    plain name, without "/", the total count is one more than before when
    the category is one of "basic", "arrows", "flowchart" and "callouts"
    and [shapeExists] was false for the record's id; in every other case
    (an id the store had, or any other plain category) the total is
    unchanged. *)
Theorem total_count_after_add (fs fs' : FS) (shape : ShapeInfo) (p : string) (n : nat) :
  plainName (category shape) = true ->
  addShapeToLibrary shapesDir localeCompare shape fs = (OK p, fs') ->
  (getTotalShapeCount shapesDir fs).1 = OK n ->
  (getTotalShapeCount shapesDir fs').1
  = OK (if existsb (String.eqb (category shape)) categories
           && negb (existsb (hasId (id shape)) (stored fs (category shape)))
        then S n else n).
Proof. apply total_after_add. Qed.

(** X20. A record that normalization gives is always counted: added
    to a store that does not have its id and can be written, it raises the
    total count by one. *)
Theorem normalised_record_is_counted (fs : FS) (now : Z)
    (extracted : Extractor.ExtractedShape) (customName : option string) :
  let r := Mapper.mapToShapeInfo now extracted customName in
  withId (id r) (stored fs (category r)) = [] ->
  faults fs !! path (category r) = None ->
  exists p fs' n,
    addShapeToLibrary shapesDir localeCompare r fs = (OK p, fs')
    /\ (getTotalShapeCount shapesDir fs).1 = OK n
    /\ (getTotalShapeCount shapesDir fs').1 = OK (S n).
Proof.
  intros r Hfresh Hw.
  pose proof (addShapeToLibrary_ok shapesDir localeCompare fs r Hw) as Hadd.
  do 3 eexists. split; [exact Hadd|].
  split; [rewrite getTotalShapeCount_spec; reflexivity|].
  assert (Hplain : plainName (category r) = true).
  { destruct (normalised_category_closed now extracted customName) as [H|[H|[H|H]]];
      subst r; rewrite H; reflexivity. }
  erewrite total_after_add;
    [|exact Hplain|exact Hadd|rewrite getTotalShapeCount_spec; reflexivity].
  assert (Hfour : existsb (String.eqb (category r)) categories = true).
  { destruct (normalised_category_closed now extracted customName) as [H|[H|[H|H]]];
      subst r; rewrite H; reflexivity. }
  assert (Hno : existsb (hasId (id r)) (stored fs (category r)) = false).
  { apply not_true_is_false. intros H. apply List.existsb_exists in H as (s0 & Hs & Hid).
    assert (Hin : In s0 (withId (id r) (stored fs (category r))))
      by (apply List.filter_In; auto).
    rewrite Hfresh in Hin. contradiction. }
  now rewrite Hfour, Hno.
Qed.

End MoreStores.

(** ** Preview generation and the store *)

(** X21. On Windows, after a successful export, [generatePreview]
    returns the path of the PNG even when the store has no record with the
    shape's id or the category's file cannot be written: the error of the
    update is swallowed, no record is created and the disk is as it was. *)
Theorem generatePreview_swallows_store_errors (shapesDir : string)
    (localeCompare : string -> string -> Z) (libRoot : string) (fs : FS)
    (shape : ShapeInfo) :
  withId (id shape) (stored shapesDir fs (category shape)) = []
  \/ is_Some (faults fs !! getCategoryFilePath shapesDir (category shape)) ->
  PreviewGenerator.generatePreview shapesDir localeCompare libRoot "win32" (OK tt) shape fs
  = (OK (Some ((libRoot +:+ "/assets/" +:+ category shape)
               +:+ "/" +:+ id shape +:+ ".png")), fs).
Proof.
  intros Hcase.
  assert (Hupd : exists e,
             updateShapeInLibrary shapesDir localeCompare (id shape) (category shape)
               {| p_id := None; p_name := None; p_category := None; p_description := None;
                  p_tags := None;
                  p_preview := Some (category shape +:+ "/" +:+ id shape +:+ ".png");
                  p_pptxDefinition := None; p_nativePptx := None; p_nativeOnly := None |}
               fs = (Throw e, fs)).
  { destruct (withId (id shape) (stored shapesDir fs (category shape))) as [|old rest] eqn:Hw.
    - eexists. unfold updateShapeInLibrary, bind.
      rewrite loadCategoryShapes_spec, findIndex_None by exact Hw. reflexivity.
    - destruct Hcase as [[=]|[m Hm]].
      edestruct updateShapeInLibrary_unfold as [shapes ->];
        [rewrite Hw; discriminate|].
      eexists. exact (saveCategoryShapes_fault shapesDir localeCompare fs _ _ m Hm). }
  destruct Hupd as [e Hupd].
  unfold PreviewGenerator.generatePreview, PreviewGenerator.exportPptxToPngWindows,
    bind, try_catch, ret. cbn [String.eqb Ascii.eqb Bool.eqb negb].
  now rewrite Hupd.
Qed.

(** ** The generator's colours and file names *)

Lemma isHex6_not_hash (c : string) : Js.isHex6 c = true -> Js.startsWith c "#" = false.
Proof.
  unfold Js.isHex6. intros H. apply andb_true_iff in H as [_ H].
  destruct c as [|a t]; [reflexivity|].
  cbn [Js.every] in H. apply andb_true_iff in H as [Ha _].
  cbn [Js.startsWith]. destruct (Ascii.eqb_spec "#" a) as [<-|]; [discriminate Ha|reflexivity].
Qed.

Lemma startsWith_nil (s : string) : Js.startsWith s "" = true.
Proof. now destruct s. Qed.

Lemma normalizeColor_twice (color : option string) :
  Generator.normalizeColor (Generator.normalizeColor color) = Generator.normalizeColor color.
Proof.
  destruct color as [c|]; [|reflexivity]. unfold Generator.normalizeColor.
  destruct (String.eqb c "") eqn:Hempty; [reflexivity|].
  destruct (Js.startsWith c "#") eqn:Hhash; [now rewrite Hempty, Hhash|].
  destruct (Js.isHex6 c) eqn:Hhex; [|now rewrite Hempty, Hhash, Hhex].
  change ("#" +:+ c) with (String "#" c).
  cbn [String.eqb Js.startsWith]. now rewrite startsWith_nil.
Qed.

(** X22. Normalizing a colour twice is normalizing it once, also inside
    a fill and a line; a colour of six hexadecimal digits, as the bridge
    prints it, gets "#" in front; and the result is never the empty
    string. *)
Theorem normalizeColor_spec (color : option string) (fill_ : option ShapeFill)
    (line_ : option ShapeLine) :
  Generator.normalizeColor (Generator.normalizeColor color) = Generator.normalizeColor color
  /\ Generator.normalizeFill (Generator.normalizeFill fill_) = Generator.normalizeFill fill_
  /\ Generator.normalizeLine (Generator.normalizeLine line_) = Generator.normalizeLine line_
  /\ (forall c, color = Some c -> Js.isHex6 c = true ->
                Generator.normalizeColor color = Some ("#" +:+ c))
  /\ Generator.normalizeColor color <> Some "".
Proof.
  split; [apply normalizeColor_twice|].
  split; [destruct fill_ as [f|]; [|reflexivity]; cbn; now rewrite normalizeColor_twice|].
  split; [destruct line_ as [l|]; [|reflexivity]; cbn; now rewrite normalizeColor_twice|].
  split.
  - intros c -> Hhex. unfold Generator.normalizeColor.
    rewrite (isHex6_not_hash c Hhex), Hhex.
    destruct c; [discriminate Hhex|reflexivity].
  - unfold Generator.normalizeColor. destruct color as [c|]; [|discriminate].
    destruct (String.eqb_spec c ""); [discriminate|].
    destruct (Js.startsWith c "#"); [congruence|].
    destruct (Js.isHex6 c); [discriminate|congruence].
Qed.

Lemma mapChars_id (f : ascii -> ascii) (p : ascii -> bool) (s : string) :
  (forall c, p c = true -> f c = c) -> Js.every p s = true -> Js.mapChars f s = s.
Proof.
  intros Hf. induction s as [|c s IH]; [reflexivity|].
  cbn. intros H. apply andb_true_iff in H as [Hc Hs]. now rewrite (Hf c Hc), IH.
Qed.

(** X23. The file-name sanitizing of [generateShapePptx] leaves a
    generated id as it is: the temporary file of a captured shape is
    "shape_<id>_<timestamp>.pptx" with the id unchanged. *)
Theorem safeName_of_generated_id (now timestamp : Z) (name_ : string) (shape : ShapeInfo) :
  id shape = Mapper.generateShapeId now name_ ->
  Generator.safeName (id shape) = id shape
  /\ Generator.tempFileName shape timestamp
     = "shape_" +:+ id shape +:+ "_" +:+ Js.toString10 timestamp +:+ ".pptx".
Proof.
  intros Hid.
  assert (Hsafe : Generator.safeName (id shape) = id shape).
  { rewrite Hid. unfold Generator.safeName.
    apply mapChars_id with (p := idChar); [|apply generateShapeId_idChars].
    intros c Hc. unfold idChar, Js.isLowerAlnum in Hc.
    destruct (Js.isLower c); [reflexivity|]. destruct (Js.isUpper c); [reflexivity|].
    destruct (Js.isDigit c); [reflexivity|]. cbn in *. now rewrite Hc. }
  split; [exact Hsafe|]. unfold Generator.tempFileName. now rewrite Hsafe.
Qed.

(** ** The temporary files *)

Lemma Set_delete_elem_of (x q : string) (xs : list string) :
  q ∈ Generator.Set_delete x xs <-> q ∈ xs /\ q <> x.
Proof.
  unfold Generator.Set_delete. rewrite !list_elem_of_In, List.filter_In, negb_true_iff.
  now rewrite String.eqb_neq.
Qed.

Lemma Set_delete_length (x : string) (xs : list string) :
  (length (Generator.Set_delete x xs) <= length xs)%nat.
Proof. apply List.filter_length_le. Qed.

Lemma cleanupTempFile_spec (p : string) (st : Generator.TempFiles) :
  let st' := Generator.cleanupTempFile p st in
  Generator.inUse st' = Generator.inUse st
  /\ (forall q, q ∈ Generator.existing st'
                <-> q ∈ Generator.existing st /\ ~ (q = p /\ p ∉ Generator.inUse st))
  /\ (forall q, q ∈ Generator.activeTempFiles st'
                <-> q ∈ Generator.activeTempFiles st
                    /\ ~ (q = p /\ p ∈ Generator.existing st /\ p ∉ Generator.inUse st))
  /\ (length (Generator.activeTempFiles st') <= length (Generator.activeTempFiles st))%nat.
Proof.
  unfold Generator.cleanupTempFile.
  destruct (bool_decide_reflect (p ∈ Generator.existing st)) as [Hex|Hex];
    [destruct (bool_decide_reflect (p ∈ Generator.inUse st)) as [Hin|Hin]|]; cbn.
  - split; [reflexivity|]. split; [intros q; tauto|]. split; [intros q; tauto|]. lia.
  - split; [reflexivity|]. split; [|split].
    + intros q. rewrite elem_of_difference, elem_of_singleton. tauto.
    + intros q. rewrite Set_delete_elem_of. tauto.
    + apply Set_delete_length.
  - split; [reflexivity|]. split; [|split; [intros q; tauto|lia]].
    intros q. split; [|tauto].
    intros Hq. split; [assumption|]. intros [-> _]. contradiction.
Qed.

Lemma cleanup_fold_spec (paths : list string) :
  forall st,
    let st' := fold_left (fun st p => Generator.cleanupTempFile p st) paths st in
    Generator.inUse st' = Generator.inUse st
    /\ (forall q, q ∈ Generator.existing st'
                  <-> q ∈ Generator.existing st /\ ~ (q ∈ paths /\ q ∉ Generator.inUse st))
    /\ (forall q, q ∈ Generator.activeTempFiles st'
                  <-> q ∈ Generator.activeTempFiles st
                      /\ ~ (q ∈ paths /\ q ∈ Generator.existing st
                            /\ q ∉ Generator.inUse st))
    /\ (length (Generator.activeTempFiles st')
        <= length (Generator.activeTempFiles st))%nat.
Proof.
  induction paths as [|p t IH]; intros st; cbn [fold_left].
  - repeat split; try tauto; try lia.
    + intros [[]%elem_of_nil _].
    + intros [[]%elem_of_nil _].
  - destruct (cleanupTempFile_spec p st) as (Hu1 & He1 & Ha1 & Hl1).
    destruct (IH (Generator.cleanupTempFile p st)) as (Hu & He & Ha & Hl).
    cbv zeta in *. split; [congruence|]. split; [|split; [|lia]].
    + intros q. rewrite He, He1, Hu1, elem_of_cons.
      destruct (decide (q = p)) as [->|]; tauto.
    + intros q. rewrite Ha, Ha1, He1, Hu1, elem_of_cons.
      destruct (decide (q = p)) as [->|]; tauto.
Qed.

(** X24. After [cleanupAllTempFiles] the tracked paths are those that
    were tracked and whose file was already gone or could not be deleted,
    and the files that exist are those that existed and were not tracked or
    could not be deleted: no tracked file that can be deleted is left, the
    count never grows, and a path whose file was deleted by someone else
    stays tracked. *)
Theorem cleanupAllTempFiles_spec (st : Generator.TempFiles) :
  let st' := Generator.cleanupAllTempFiles st in
  (forall q, q ∈ Generator.activeTempFiles st'
             <-> q ∈ Generator.activeTempFiles st
                 /\ (q ∉ Generator.existing st \/ q ∈ Generator.inUse st))
  /\ (forall q, q ∈ Generator.existing st'
                <-> q ∈ Generator.existing st
                    /\ (q ∉ Generator.activeTempFiles st \/ q ∈ Generator.inUse st))
  /\ (Generator.getActiveTempFilesCount st' <= Generator.getActiveTempFilesCount st)%nat.
Proof.
  unfold Generator.cleanupAllTempFiles, Generator.getActiveTempFilesCount.
  destruct (cleanup_fold_spec (Generator.activeTempFiles st) st) as (_ & He & Ha & Hl).
  cbv zeta in *. split; [|split; [|exact Hl]].
  - intros q. rewrite Ha.
    destruct (decide (q ∈ Generator.existing st)), (decide (q ∈ Generator.inUse st)); tauto.
  - intros q. rewrite He.
    destruct (decide (q ∈ Generator.activeTempFiles st)),
      (decide (q ∈ Generator.inUse st)); tauto.
Qed.

(** ** The replies of the deck script *)

Lemma digit_value (d : Z) : 0 <= d < 10 -> Z.of_N (N_of_ascii (Js.digit36 d)) - 48 = d.
Proof.
  intros Hd.
  assert (Hn : exists n : nat, (n < 10)%nat /\ d = Z.of_nat n).
  { exists (Z.to_nat d). split; lia. }
  destruct Hn as (n & Hn & ->).
  do 10 (destruct n as [|n]; [reflexivity|]).
  lia.
Qed.

Lemma isDigit_digit36 (d : Z) : 0 <= d < 10 -> Js.isDigit (Js.digit36 d) = true.
Proof.
  intros Hd.
  assert (Hn : exists n : nat, (n < 10)%nat /\ d = Z.of_nat n).
  { exists (Z.to_nat d). split; lia. }
  destruct Hn as (n & Hn & ->).
  do 10 (destruct n as [|n]; [reflexivity|]).
  lia.
Qed.

Lemma parseDigits_digits10 (fuel : nat) :
  forall n acc, 0 <= n < 2 ^ Z.of_nat fuel ->
    Js.parseDigits 0 (Js.digits 10 fuel n acc) = Js.parseDigits n acc.
Proof.
  induction fuel as [|fuel IH]; intros n acc Hn.
  - simpl in *. replace n with 0 by lia. reflexivity.
  - cbn [Js.digits].
    assert (Hpow : 2 ^ Z.of_nat (S fuel) = 2 * 2 ^ Z.of_nat fuel).
    { rewrite Nat2Z.inj_succ, Z.pow_succ_r by lia. reflexivity. }
    destruct (n <? 10)%Z eqn:Hlt.
    + apply Z.ltb_lt in Hlt.
      cbn [Js.parseDigits]. rewrite Z.mod_small by lia.
      rewrite digit_value by lia. reflexivity.
    + apply Z.ltb_ge in Hlt.
      rewrite IH.
      * cbn [Js.parseDigits].
        rewrite digit_value by (apply Z.mod_pos_bound; lia).
        f_equal. symmetry. apply Z.div_mod. lia.
      * split; [apply Z.div_pos; lia|].
        apply Z.div_lt_upper_bound; lia.
Qed.

Lemma every_digits10 (fuel : nat) :
  forall n acc, 0 <= n -> Js.every Js.isDigit acc = true ->
    Js.every Js.isDigit (Js.digits 10 fuel n acc) = true.
Proof.
  induction fuel as [|fuel IH]; intros n acc Hn Hacc; cbn [Js.digits]; [assumption|].
  assert (Hd : Js.isDigit (Js.digit36 (n mod 10)) = true)
    by (apply isDigit_digit36, Z.mod_pos_bound; lia).
  destruct (n <? 10)%Z.
  - cbn [Js.every]. now rewrite Hd.
  - apply IH; [apply Z.div_pos; lia|]. cbn [Js.every]. now rewrite Hd.
Qed.

Lemma digits_not_empty (radix : Z) (fuel : nat) (n : Z) (acc : string) :
  Js.digits radix (S fuel) n acc <> "".
Proof.
  revert n acc. induction fuel as [|fuel IH]; intros n acc; cbn [Js.digits].
  - destruct (n <? radix)%Z; discriminate.
  - destruct (n <? radix)%Z; [discriminate|]. apply IH.
Qed.

(** The decimal numeral of a number that is not negative: digits, at
    least one, that read back as the number. *)
Lemma toString10_spec (n : Z) :
  0 <= n ->
  Js.every Js.isDigit (Js.toString10 n) = true
  /\ Js.toString10 n <> ""
  /\ Js.parseDigits 0 (Js.toString10 n) = n.
Proof.
  intros Hn. unfold Js.toString10, Js.toStringRadix. rewrite Z.abs_eq by lia.
  destruct (n <? 0)%Z eqn:Hneg; [apply Z.ltb_lt in Hneg; lia|].
  split; [apply every_digits10; [lia|reflexivity]|].
  split; [apply digits_not_empty|].
  rewrite parseDigits_digits10; [reflexivity|].
  split; [lia|].
  destruct (Z.eq_dec n 0) as [->|Hnz]; [reflexivity|].
  rewrite Nat2Z.inj_succ, Z2Nat.id by apply Z.log2_nonneg.
  apply Z.log2_spec. lia.
Qed.

Lemma takeDigits_all (s : string) : Js.every Js.isDigit s = true -> Js.takeDigits s = s.
Proof.
  induction s as [|c s IH]; [reflexivity|].
  cbn. intros H. apply andb_true_iff in H as [Hc Hs]. now rewrite Hc, IH.
Qed.

Lemma every_takeDigits (s : string) : Js.every Js.isDigit (Js.takeDigits s) = true.
Proof.
  induction s as [|c s IH]; [reflexivity|].
  cbn. destruct (Js.isDigit c) eqn:Hc; [|reflexivity]. cbn. now rewrite Hc.
Qed.

Lemma parseDigits_nonneg (s : string) :
  forall acc, 0 <= acc -> Js.every Js.isDigit s = true -> 0 <= Js.parseDigits acc s.
Proof.
  induction s as [|c s IH]; intros acc Hacc; cbn [Js.parseDigits Js.every]; [auto|].
  intros H. apply andb_true_iff in H as [Hc Hs]. apply IH; [|assumption].
  unfold Js.isDigit, Js.between in Hc. apply andb_true_iff in Hc as [Hlo _].
  apply N.leb_le in Hlo. change (N_of_ascii "0") with 48%N in Hlo. lia.
Qed.

Lemma trimEnd_spaces (ws : string) : Js.every Js.isSpace ws = true -> Js.trimEnd ws = "".
Proof.
  induction ws as [|c ws IH]; [reflexivity|].
  cbn [Js.every Js.trimEnd]. intros H. apply andb_true_iff in H as [Hc Hs].
  now rewrite IH, Hc.
Qed.

Lemma trimEnd_app_spaces (s ws : string) :
  Js.every Js.isSpace ws = true -> Js.trimEnd (s +:+ ws) = Js.trimEnd s.
Proof.
  intros Hws. induction s as [|c s IH]; [now apply trimEnd_spaces|].
  rewrite append_cons. cbn [Js.trimEnd]. now rewrite IH.
Qed.

Lemma trimEnd_no_space (s : string) :
  Js.every (fun c => negb (Js.isSpace c)) s = true -> Js.trimEnd s = s.
Proof.
  induction s as [|c s IH]; [reflexivity|].
  cbn [Js.every Js.trimEnd]. intros H. apply andb_true_iff in H as [Hc Hs].
  rewrite IH by assumption. apply negb_true_iff in Hc.
  destruct s; [now rewrite Hc|reflexivity].
Qed.

Lemma isDigit_not_space (c : ascii) : Js.isDigit c = true -> negb (Js.isSpace c) = true.
Proof.
  unfold Js.isDigit, Js.isSpace, Js.between. intros H.
  apply andb_true_iff in H as [Hlo Hhi]. apply N.leb_le in Hlo, Hhi.
  change (N_of_ascii "0") with 48%N in Hlo.
  apply negb_true_iff, orb_false_iff. split.
  - apply Ascii.eqb_neq. intros ->. change (N_of_ascii " ") with 32%N in Hlo. lia.
  - apply andb_false_iff. right. apply N.leb_gt.
    change (N_of_ascii "013") with 13%N. lia.
Qed.

(** X25. The slide index the script prints is read back: when
    PowerShell exits with code 0 having printed "OK:" and the decimal
    numeral of an index from 0 to the largest integer a number holds
    exactly, followed by any white space, [addShapeToDeckFromPptx] returns
    that index. *)
Theorem deck_reply_round_trip (n : Z) (ws stderr : string) :
  0 <= n <= 9007199254740991 ->
  Js.every Js.isSpace ws = true ->
  Deck.addShapeToDeckFromPptx 0 ("OK:" +:+ Js.toString10 n +:+ ws) stderr = OK n.
Proof.
  intros [Hn _] Hws. destruct (toString10_spec n Hn) as (Hdigits & Hsome & Hparse).
  assert (Htrim : Js.trim ("OK:" +:+ Js.toString10 n +:+ ws) = "OK:" +:+ Js.toString10 n).
  { unfold Js.trim.
    change (Js.trimStart ("OK:" +:+ Js.toString10 n +:+ ws))
      with ("OK:" +:+ Js.toString10 n +:+ ws).
    change ("OK:" +:+ Js.toString10 n +:+ ws) with (("OK:" +:+ Js.toString10 n) +:+ ws).
    rewrite trimEnd_app_spaces by assumption.
    apply trimEnd_no_space. rewrite every_app. cbn [andb].
    change (Js.every (fun c => negb (Js.isSpace c)) "OK:") with true. cbn [andb].
    eapply every_impl; [|exact Hdigits]. apply isDigit_not_space. }
  unfold Deck.addShapeToDeckFromPptx, Deck.runPs, Deck.slideIndexOfReply.
  cbn [Z.eqb negb]. rewrite Htrim.
  change (Js.startsWith ("OK:" +:+ Js.toString10 n) "ERROR:") with false.
  cbv iota beta. rewrite Htrim.
  change (Js.slice 3 ("OK:" +:+ Js.toString10 n)) with (Js.toString10 n).
  change (Js.startsWith ("OK:" +:+ Js.toString10 n) "OK:")
    with (Js.startsWith (Js.toString10 n) "").
  rewrite startsWith_nil, takeDigits_all by assumption.
  destruct (String.eqb_spec (Js.toString10 n) ""); [contradiction|].
  cbn. now rewrite Hparse.
Qed.

(** X26. [addShapeToDeckFromPptx] returns an index only when PowerShell
    exited with code 0 and its trimmed output begins with "OK:" and not
    with "ERROR:", and the index is then not negative; with another exit
    code it throws "PowerShell failed (<code>). " followed by the error
    output, or the output when there is none; with code 0 and an output that
    begins with "ERROR:" it throws the text after that prefix. *)
Theorem deck_reply_classified (code : Z) (stdout stderr : string) :
  (code <> 0 ->
   Deck.addShapeToDeckFromPptx code stdout stderr
   = Throw (Error ("PowerShell failed (" +:+ Js.toString10 code +:+ "). "
                   +:+ (if String.eqb stderr "" then stdout else stderr))))
  /\ (code = 0 -> Js.startsWith (Js.trim stdout) "ERROR:" = true ->
      Deck.addShapeToDeckFromPptx code stdout stderr
      = Throw (Error (Js.slice 6 (Js.trim stdout))))
  /\ (forall n,
        Deck.addShapeToDeckFromPptx code stdout stderr = OK n ->
        code = 0
        /\ Js.startsWith (Js.trim stdout) "OK:" = true
        /\ Js.startsWith (Js.trim stdout) "ERROR:" = false
        /\ 0 <= n).
Proof.
  unfold Deck.addShapeToDeckFromPptx, Deck.runPs, Deck.slideIndexOfReply.
  split; [|split].
  - intros Hcode. apply Z.eqb_neq in Hcode. now rewrite Hcode.
  - intros -> Herr. cbn [Z.eqb negb]. now rewrite Herr.
  - intros n. destruct (Z.eqb_spec code 0) as [->|Hne]; cbn [negb]; [|discriminate].
    destruct (Js.startsWith (Js.trim stdout) "ERROR:"); [discriminate|].
    destruct (Js.startsWith (Js.trim stdout) "OK:"); cbn [andb]; [|discriminate].
    destruct (negb _); [|discriminate].
    intros [= <-]. repeat split.
    apply parseDigits_nonneg; [lia | apply every_takeDigits].
Qed.

(** ** The invariants of the stores *)

(** X27. Add, update and remove keep the two invariants of a category's
    store: when the ids of the store are unique and its records are filed
    under the category, so they are in the store an operation that returned
    has written; and the store of an absent file has both. *)
Theorem store_invariants_preserved (shapesDir : string)
    (localeCompare : string -> string -> Z) (fs : FS) :
  (forall category_,
      files fs !! getCategoryFilePath shapesDir category_ = None ->
      uniqueIds (stored shapesDir fs category_)
      /\ filedUnder category_ (stored shapesDir fs category_))
  /\ (forall shape p fs',
        uniqueIds (stored shapesDir fs (category shape)) ->
        filedUnder (category shape) (stored shapesDir fs (category shape)) ->
        addShapeToLibrary shapesDir localeCompare shape fs = (OK p, fs') ->
        uniqueIds (stored shapesDir fs' (category shape))
        /\ filedUnder (category shape) (stored shapesDir fs' (category shape)))
  /\ (forall id_ category_ updates fs',
        uniqueIds (stored shapesDir fs category_) ->
        filedUnder category_ (stored shapesDir fs category_) ->
        updateShapeInLibrary shapesDir localeCompare id_ category_ updates fs = (OK tt, fs') ->
        uniqueIds (stored shapesDir fs' category_)
        /\ filedUnder category_ (stored shapesDir fs' category_))
  /\ (forall id_ category_ fs',
        uniqueIds (stored shapesDir fs category_) ->
        filedUnder category_ (stored shapesDir fs category_) ->
        removeShapeFromLibrary shapesDir localeCompare id_ category_ fs = (OK tt, fs') ->
        uniqueIds (stored shapesDir fs' category_)
        /\ filedUnder category_ (stored shapesDir fs' category_)).
Proof. apply stores_keep_their_invariants. Qed.

Lemma filter_insert_irrelevant {A : Type} (p : A -> bool) (xs : list A) (i : nat) (a b : A) :
  xs !! i = Some a -> p a = false -> p b = false ->
  List.filter p (<[i := b]> xs) = List.filter p xs.
Proof.
  revert i. induction xs as [|x t IH]; intros i Hi Ha Hb; [discriminate|].
  destruct i as [|i]; cbn in *.
  - injection Hi as ->. now rewrite Ha, Hb.
  - destruct (p x); [f_equal|]; now apply IH.
Qed.

(** X28. An update that returned has neither added nor removed a
    record: the store is as long as it was, and the records with any other
    id are those the store had. *)
Theorem update_changes_one_id (shapesDir : string) (localeCompare : string -> string -> Z)
    (fs fs' : FS) (id_ : string) (category_ : ShapeCategory) (updates : PartialShapeInfo) :
  updateShapeInLibrary shapesDir localeCompare id_ category_ updates fs = (OK tt, fs') ->
  length (stored shapesDir fs' category_) = length (stored shapesDir fs category_)
  /\ forall other, other <> id_ ->
       withId other (stored shapesDir fs' category_)
       ≡ₚ withId other (stored shapesDir fs category_).
Proof.
  unfold updateShapeInLibrary, bind. rewrite loadCategoryShapes_spec.
  destruct (findIndex _ _) as [i|] eqn:Hi; [|discriminate].
  destruct (findIndex_Some_inv _ _ _ Hi) as (old & Hold & Hid). rewrite Hold.
  destruct (saveCategoryShapes _ _ _ _ _) as [res fs1] eqn:Hsave.
  apply saveCategoryShapes_inv in Hsave as [[-> ->] | [[e ->] ->]]; [|discriminate].
  intros [= <-]. rewrite stored_written. split.
  - rewrite (Permutation_length (sort_Permutation _ _)). apply length_insert.
  - intros other Hne. unfold withId. rewrite filter_sort.
    apply String.eqb_eq in Hid.
    rewrite (filter_insert_irrelevant _ _ i old); [reflexivity|assumption| |].
    + apply String.eqb_neq. congruence.
    + cbn. apply String.eqb_neq. congruence.
Qed.

(** ** The further properties at concrete inputs *)

Lemma generateShapeId_collision_witness :
  Mapper.generateShapeId Examples.now "Arrow 1" = Mapper.generateShapeId Examples.now "arrow-1"
  /\ Mapper.generateShapeId Examples.now "Arrow 1"
     <> Mapper.generateShapeId (Examples.now + 1) "Arrow 1"
  /\ Mapper.generateShapeId Examples.now (Js.mapChars Examples.spaceToDash "Arrow 1")
     = Mapper.generateShapeId Examples.now "Arrow 1".
Proof.
  split; [|split].
  - destruct (generateShapeId_collision Examples.now Examples.now "Arrow 1" "arrow-1")
      as ([_ Hcollide] & _).
    + unfold Examples.now. lia.
    + unfold Examples.now. lia.
    + apply Hcollide. split; reflexivity.
  - destruct (generateShapeId_collision Examples.now (Examples.now + 1) "Arrow 1" "Arrow 1")
      as (_ & Hdistinct & _).
    + unfold Examples.now. lia.
    + unfold Examples.now. lia.
    + apply Hdistinct. unfold Examples.now. lia.
  - destruct (generateShapeId_collision Examples.now Examples.now "Arrow 1" "Arrow 1")
      as (_ & _ & _ & Hseparators).
    + unfold Examples.now. lia.
    + unfold Examples.now. lia.
    + apply Hseparators.
      intros [[|] [|] [|] [|] [|] [|] [|] [|]]; reflexivity.
Defined.

Lemma generateTags_spec_witness :
  "arrow1" ∈ Mapper.generateTags "Arrow1" "rightArrow" "arrows".
Proof.
  destruct (generateTags_spec "Arrow1" "rightArrow" "arrows") as (_ & _ & _ & Htoken).
  apply Htoken.
  - apply list_elem_of_In. vm_compute. left. reflexivity.
  - vm_compute. lia.
Defined.

Lemma normalise_native_only_shape_witness :
  let r := Mapper.mapToShapeInfo Examples.now
             (Extractor.toExtractedShape Examples.groupData) None in
  nativeOnly r = Some true
  /\ category r = "basic"
  /\ preview r = "basic/placeholder.png"
  /\ type (pptxDefinition r) = "rectangle"
  /\ rectRadius (pptxDefinition r) = None.
Proof.
  apply (normalise_native_only_shape Examples.now
           (Extractor.toExtractedShape Examples.groupData) None).
  left. reflexivity.
Defined.

Lemma chooseType_bridge_name_witness :
  Mapper.chooseType (Extractor.toExtractedShape Examples.namedArrowData) = "rightArrow".
Proof.
  apply (chooseType_bridge_name (Extractor.toExtractedShape Examples.namedArrowData)
           "rightArrow").
  - vm_compute. reflexivity.
  - vm_compute. reflexivity.
Defined.

Lemma cache_categories_independent_witness :
  Cache.setCachedShapes Examples.laterTimes Examples.basicCache "arrows"
    "/library/shapes/arrows.json" [] !! "basic"
  = Examples.basicCache !! "basic".
Proof.
  destruct (cache_categories_independent Examples.laterTimes Examples.laterTimes
              Examples.basicCache "arrows" "basic" "/library/shapes/arrows.json"
              "/library/shapes/basic.json" []) as (Hput & _ & _).
  - discriminate.
  - exact Hput.
Defined.

Lemma write_failure_reported_witness :
  exists m,
    addShapeToLibrary Examples.shapesDir collate
      (Examples.shape "c" "C" "basic" "basic/c.png") Examples.lockedDisk
    = (Throw (Error m), Examples.lockedDisk).
Proof.
  destruct (write_failure_reported Examples.shapesDir collate Examples.lockedDisk "basic"
              "EACCES: permission denied, open '/library/shapes/basic.json'")
    as [Hadd _].
  - vm_compute. reflexivity.
  - eexists. apply Hadd. reflexivity.
Defined.

Lemma add_overwrites_broken_store_witness :
  addShapeToLibrary Examples.shapesDir collate
    (Examples.shape "c" "C" "basic" "basic/c.png") Examples.corruptDisk
  = (OK (getCategoryFilePath Examples.shapesDir "basic"),
     written Examples.shapesDir Examples.corruptDisk "basic"
       [Examples.shape "c" "C" "basic" "basic/c.png"]).
Proof.
  apply (add_overwrites_broken_store Examples.shapesDir collate Examples.corruptDisk
           (Examples.shape "c" "C" "basic" "basic/c.png") "Unexpected end of JSON input").
  - right. reflexivity.
  - reflexivity.
Defined.

Lemma shapeExists_after_add_and_remove_witness :
  let fs' := (addShapeToLibrary Examples.shapesDir collate
                (Examples.shape "c" "C" "basic" "basic/c.png") Examples.basicDisk).2 in
  shapeExists Examples.shapesDir "c" "basic" fs' = (OK true, fs').
Proof.
  intros fs'.
  destruct (shapeExists_after_add_and_remove Examples.shapesDir collate
              Examples.basicDisk fs') as [Hadd _].
  apply (Hadd (Examples.shape "c" "C" "basic" "basic/c.png")
           (getCategoryFilePath Examples.shapesDir "basic")).
  vm_compute. reflexivity.
Defined.

Lemma remove_removes_only_the_id_witness :
  exists fs',
    removeShapeFromLibrary Examples.shapesDir collate "b" "basic" Examples.basicDisk
    = (OK tt, fs')
    /\ withId "b" (stored Examples.shapesDir fs' "basic") = []
    /\ length (stored Examples.shapesDir fs' "basic") = 0%nat.
Proof.
  destruct (remove_removes_only_the_id Examples.shapesDir collate Examples.basicDisk
              "b" "basic") as (fs' & Hrun & Hgone & _ & Hlen).
  - vm_compute. discriminate.
  - reflexivity.
  - exists fs'. split; [exact Hrun|]. split; [exact Hgone|].
    change (length (stored Examples.shapesDir fs' "basic") + 1 = 1)%nat in Hlen. lia.
Defined.

Lemma other_categories_untouched_witness :
  let fs' := (addShapeToLibrary Examples.shapesDir collate
                (Examples.shape "c" "C" "basic" "basic/c.png") Examples.basicDisk).2 in
  files fs' !! getCategoryFilePath Examples.shapesDir "arrows"
  = files Examples.basicDisk !! getCategoryFilePath Examples.shapesDir "arrows"
  /\ faults fs' = faults Examples.basicDisk.
Proof.
  intros fs'.
  destruct (other_categories_untouched Examples.shapesDir collate Examples.basicDisk fs'
              "basic" "arrows") as (Hadd & _ & _).
  - reflexivity.
  - reflexivity.
  - discriminate.
  - apply (Hadd (Examples.shape "c" "C" "basic" "basic/c.png")
             (OK (getCategoryFilePath Examples.shapesDir "basic"))).
    + reflexivity.
    + vm_compute. reflexivity.
Defined.

Lemma add_changes_one_id_witness :
  let fs' := (addShapeToLibrary Examples.shapesDir collate
                (Examples.shape "c" "C" "basic" "basic/c.png") Examples.basicDisk).2 in
  withId "b" (stored Examples.shapesDir fs' "basic")
  ≡ₚ withId "b" (stored Examples.shapesDir Examples.basicDisk "basic")
  /\ length (stored Examples.shapesDir fs' "basic") = 2%nat.
Proof.
  intros fs'.
  destruct (add_changes_one_id Examples.shapesDir collate Examples.basicDisk fs'
              (Examples.shape "c" "C" "basic" "basic/c.png")
              (getCategoryFilePath Examples.shapesDir "basic")) as [Hothers Hlen].
  - vm_compute. reflexivity.
  - split.
    + apply (Hothers "b"). discriminate.
    + exact Hlen.
Defined.

Lemma update_without_keys_is_noop_witness :
  updateShapeInLibrary Examples.shapesDir collate "b" "basic" noUpdates Examples.basicDisk
  = (OK tt, Examples.basicDisk).
Proof.
  apply (update_without_keys_is_noop Examples.shapesDir collate Examples.basicDisk
           "b" "basic" [Examples.shape "b" "B" "basic" "basic/b.png"]
           (Examples.shape "b" "B" "basic" "basic/b.png") []).
  - reflexivity.
  - repeat constructor.
  - reflexivity.
  - reflexivity.
  - reflexivity.
Defined.

Lemma add_is_idempotent_witness :
  let fs1 := (addShapeToLibrary Examples.shapesDir collate
                (Examples.shape "c" "C" "basic" "basic/c.png") Examples.basicDisk).2 in
  addShapeToLibrary Examples.shapesDir collate
    (Examples.shape "c" "C" "basic" "basic/c.png") fs1
  = (OK (getCategoryFilePath Examples.shapesDir "basic"), fs1).
Proof.
  intros fs1.
  apply (add_is_idempotent Examples.shapesDir collate Examples.basicDisk fs1
           (Examples.shape "c" "C" "basic" "basic/c.png")).
  - exact (proj1 collate_consistent).
  - vm_compute. lia.
  - vm_compute. reflexivity.
Defined.

Lemma total_count_after_add_witness :
  let fs' := (addShapeToLibrary Examples.shapesDir collate
                (Examples.shape "c" "C" "basic" "basic/c.png") Examples.basicDisk).2 in
  (getTotalShapeCount Examples.shapesDir Examples.basicDisk).1 = OK 1%nat
  /\ (getTotalShapeCount Examples.shapesDir fs').1 = OK 2%nat.
Proof.
  intros fs'. split; [vm_compute; reflexivity|].
  apply (total_count_after_add Examples.shapesDir collate Examples.basicDisk fs'
           (Examples.shape "c" "C" "basic" "basic/c.png")
           (getCategoryFilePath Examples.shapesDir "basic") 1%nat).
  - reflexivity.
  - vm_compute. reflexivity.
  - vm_compute. reflexivity.
Defined.

Lemma normalised_record_is_counted_witness :
  let r := Mapper.mapToShapeInfo Examples.now
             (Extractor.toExtractedShape Examples.arrowData) None in
  exists p fs' n,
    addShapeToLibrary Examples.shapesDir collate r Examples.basicDisk = (OK p, fs')
    /\ (getTotalShapeCount Examples.shapesDir Examples.basicDisk).1 = OK n
    /\ (getTotalShapeCount Examples.shapesDir fs').1 = OK (S n).
Proof.
  apply (normalised_record_is_counted Examples.shapesDir collate Examples.basicDisk
           Examples.now (Extractor.toExtractedShape Examples.arrowData) None).
  - vm_compute. reflexivity.
  - vm_compute. reflexivity.
Defined.

Lemma generatePreview_swallows_store_errors_witness :
  PreviewGenerator.generatePreview Examples.shapesDir collate Examples.libRoot "win32"
    (OK tt) (Examples.shape "b" "B" "basic" "basic/placeholder.png") Examples.lockedDisk
  = (OK (Some "/library/assets/basic/b.png"), Examples.lockedDisk).
Proof.
  apply (generatePreview_swallows_store_errors Examples.shapesDir collate Examples.libRoot
           Examples.lockedDisk (Examples.shape "b" "B" "basic" "basic/placeholder.png")).
  right. vm_compute. eexists. reflexivity.
Defined.

Lemma normalizeColor_spec_witness :
  Generator.normalizeColor (Some "4472C4") = Some "#4472C4".
Proof.
  destruct (normalizeColor_spec (Some "4472C4") None None) as (_ & _ & _ & Hhex & _).
  apply (Hhex "4472C4"); reflexivity.
Defined.

Lemma safeName_of_generated_id_witness :
  let shape := Examples.shape (Mapper.generateShapeId Examples.now "Arrow1") "Arrow1"
                 "arrows" "arrows/placeholder.png" in
  Generator.safeName (id shape) = id shape
  /\ Generator.tempFileName shape 1700000000123
     = "shape_" +:+ id shape +:+ "_" +:+ Js.toString10 1700000000123 +:+ ".pptx".
Proof.
  apply (safeName_of_generated_id Examples.now 1700000000123 "Arrow1"
           (Examples.shape (Mapper.generateShapeId Examples.now "Arrow1") "Arrow1"
              "arrows" "arrows/placeholder.png")).
  reflexivity.
Defined.

Lemma deck_reply_round_trip_witness :
  Deck.addShapeToDeckFromPptx 0 ("OK:" +:+ Js.toString10 12 +:+ Examples.crlf) "" = OK 12.
Proof.
  apply (deck_reply_round_trip 12 Examples.crlf "").
  - lia.
  - reflexivity.
Defined.

Lemma deck_reply_classified_witness :
  Deck.addShapeToDeckFromPptx 1 "" "Presentation is read-only"
  = Throw (Error ("PowerShell failed (" +:+ Js.toString10 1 +:+ "). "
                  +:+ "Presentation is read-only")).
Proof.
  destruct (deck_reply_classified 1 "" "Presentation is read-only") as (Hcode & _ & _).
  apply Hcode. discriminate.
Defined.

Lemma store_invariants_preserved_witness :
  let fs' := (addShapeToLibrary Examples.shapesDir collate
                (Examples.shape "c" "C" "basic" "basic/c.png") Examples.emptyDisk).2 in
  uniqueIds (stored Examples.shapesDir fs' "basic")
  /\ filedUnder "basic" (stored Examples.shapesDir fs' "basic").
Proof.
  intros fs'.
  destruct (store_invariants_preserved Examples.shapesDir collate Examples.emptyDisk)
    as (Habsent & Hadd & _ & _).
  destruct (Habsent "basic") as [Hunique Hfiled]; [reflexivity|].
  apply (Hadd (Examples.shape "c" "C" "basic" "basic/c.png")
           (getCategoryFilePath Examples.shapesDir "basic") fs').
  - exact Hunique.
  - exact Hfiled.
  - vm_compute. reflexivity.
Defined.

Lemma update_changes_one_id_witness :
  length (stored Examples.shapesDir
            (updateShapeInLibrary Examples.shapesDir collate "b" "basic" noUpdates
               Examples.basicDisk).2 "basic")
  = length (stored Examples.shapesDir Examples.basicDisk "basic").
Proof.
  destruct (update_changes_one_id Examples.shapesDir collate Examples.basicDisk
              (updateShapeInLibrary Examples.shapesDir collate "b" "basic" noUpdates
                 Examples.basicDisk).2 "b" "basic" noUpdates) as [Hlen _].
  - vm_compute. reflexivity.
  - exact Hlen.
Defined.
